(** * Codeforces submission analysis and recommendation synthesis

    A shallow embedding of the Codeforces pipeline of the application:

    - [analyzeSubmissions] (frontend chat page): one pass over the
      submission list of a handle, producing the analysis aggregate;
    - [generateCodeforcesPrompt] (backend, [routes/auth.js]): the prompt sent
      to the generative backend;
    - [generateFallbackRecommendations] (frontend) and
      [generateCodeforcesFallback] (backend): the templated recommendation.

    Around the pipeline, the development also covers the prompt of the chat
    page ([generateAIRecommendationPrompt]), the selection of recommended
    problems ([getRecommendedProblems]), the conversation history of the
    chat page, the age printed in the side bar ([formatTime]), and, of the
    backend, the two [verifyToken] middlewares, [callDeepSeekAPI] and the
    routes [/codeforces] and [/generate], with the network, the token
    library, the generative service, the database and the clock as
    parameters.

    JavaScript values are represented as follows.  Integers that the code
    counts, compares or adds are [Z] (exact below 2^53, where a double holds
    every integer).  The quotients that are printed with [toFixed] are IEEE
    binary64 values, computed with the primitive floats.  Plain objects used
    as dictionaries are association lists in property-creation order, with
    the enumeration order of ECMAScript ([Object.entries]) computed from
    them.  [Map] and [Set] are association lists and lists in insertion
    order.  Reading a property of a dictionary finds the members that every
    object inherits from [Object.prototype] (such as [constructor]) as well:
    a dictionary of counts holds a number under a key, or, under the name of
    such a member, the text of the member with the digits appended by the
    increments.  The text of a built-in member is defined by the engine and
    is a parameter of the functions that print it. *)

From Stdlib Require Import ZArith NArith List String Ascii Bool Lia.
From Stdlib Require Import Permutation Sorted DecimalString DecimalZ DecimalPos.
From Stdlib Require Import Floats.
Import ListNotations.

Open Scope string_scope.
Open Scope list_scope.
Open Scope Z_scope.

(** ** Numbers and strings of the JavaScript runtime *)

Module JS.

(** [String(n)] for an integer [n]: the decimal numeral, [-] for negatives. *)
Definition Number_toString (z : Z) : string :=
  NilEmpty.string_of_int (Z.to_int z).

Definition is_digit (c : ascii) : bool :=
  let n := nat_of_ascii c in (48 <=? n)%nat && (n <=? 57)%nat.

(** The longest prefix of decimal digits. *)
Fixpoint digit_prefix (s : string) : string :=
  match s with
  | EmptyString => EmptyString
  | String c s' => if is_digit c then String c (digit_prefix s') else EmptyString
  end.

Definition parse_digits (s : string) : option Z :=
  match digit_prefix s with
  | EmptyString => None
  | p => option_map Z.of_uint (NilEmpty.uint_of_string p)
  end.

(** [parseInt(s)] in radix 10: an optional sign followed by the longest run
    of decimal digits; [None] stands for [NaN].  Leading white space and the
    [0x] prefix are not part of the model: the strings parsed here are the
    property keys written by [Number_toString]. *)
Definition parseInt (s : string) : option Z :=
  match s with
  | String "-" s' => option_map Z.opp (parse_digits s')
  | String "+" s' => parse_digits s'
  | _ => parse_digits s
  end.

(** A property key is an array index when it is the canonical numeral of an
    integer in [0, 2^32 - 2]. *)
Definition array_index (s : string) : option Z :=
  match parse_digits s with
  | Some n =>
      if (n <? 4294967295) && String.eqb (Number_toString n) s
      then Some n else None
  | None => None
  end.

(** *** [Array.prototype.sort]

    The sort is stable (ECMAScript 2019).  With a comparator that is a
    consistent ordering every stable sort returns the same array, so the
    engine's algorithm is represented by a stable insertion sort.  The
    comparator returns a number: negative puts [a] first, positive puts [b]
    first, zero keeps the order of the input. *)
Section Sort.
Context {A : Type} (comparefn : A -> A -> Z).

Fixpoint sort_insert (x : A) (l : list A) : list A :=
  match l with
  | [] => [x]
  | y :: l' =>
      if comparefn x y <=? 0 then x :: y :: l' else y :: sort_insert x l'
  end.

Definition Array_sort (l : list A) : list A :=
  fold_right sort_insert [] l.
End Sort.

(** [a.slice(0, n)] *)
Definition slice0 {A : Type} (n : nat) (l : list A) : list A := firstn n l.

(** *** Plain objects used as dictionaries *)

Definition Obj (V : Type) : Type := list (string * V).

Section Obj.
Context {V : Type}.

Fixpoint get (k : string) (o : Obj V) : option V :=
  match o with
  | [] => None
  | (k', v) :: o' => if String.eqb k k' then Some v else get k o'
  end.

(** [o[k] = v]: an existing property keeps its place, a new one is
    created last. *)
Fixpoint set (k : string) (v : V) (o : Obj V) : Obj V :=
  match o with
  | [] => [(k, v)]
  | (k', v') :: o' =>
      if String.eqb k k' then (k', v) :: o' else (k', v') :: set k v o'
  end.

Definition is_index (e : string * V) : bool :=
  match array_index (fst e) with Some _ => true | None => false end.

Definition index_of (e : string * V) : Z :=
  match array_index (fst e) with Some n => n | None => 0 end.

(** [Object.entries(o)]: array-index keys in ascending numeric order, then
    the other keys in creation order. *)
Definition Object_entries (o : Obj V) : list (string * V) :=
  Array_sort (fun a b => index_of a - index_of b) (filter is_index o)
  ++ filter (fun e => negb (is_index e)) o.

Definition Object_keys (o : Obj V) : list string :=
  map fst (Object_entries o).

(** [Object.fromEntries(m)] *)
Definition Object_fromEntries (m : list (string * V)) : Obj V :=
  fold_left (fun o e => set (fst e) (snd e) o) m [].
End Obj.

(** *** Members inherited from [Object.prototype]

    The names that every object inherits.  All of them are functions,
    except [__proto__], an accessor that gives the prototype object. *)
Definition Object_prototype : list string :=
  ["constructor"; "__defineGetter__"; "__defineSetter__"; "hasOwnProperty";
   "__lookupGetter__"; "__lookupSetter__"; "isPrototypeOf";
   "propertyIsEnumerable"; "toString"; "valueOf"; "__proto__";
   "toLocaleString"].

Definition inherited (k : string) : bool :=
  existsb (String.eqb k) Object_prototype.

(** *** Dictionaries of counts

    What [o[k] || 0] gives on a dictionary that the idiom
    [o[k] = (o[k] || 0) + 1] fills: a number, or the text of the inherited
    member [member] followed by [ones] digits [1] (a function or an object
    plus a number is the concatenation of their texts).  Such a text is not
    a numeral: as a number it is [NaN]. *)
Inductive tally : Type :=
| Count (n : Z)
| Native (member : string) (ones : nat).

(** [o[k] || 0]: the object's own property, else the inherited member of
    that name, else 0. *)
Definition get0 (k : string) (o : Obj tally) : tally :=
  match get k o with
  | Some v => v
  | None => if inherited k then Native k 0 else Count 0
  end.

(** [v + 1] *)
Definition plus_one (v : tally) : tally :=
  match v with
  | Count n => Count (n + 1)
  | Native member ones => Native member (S ones)
  end.

(** [o[k] = v] for a number or a text [v]: an own property is written or
    created, except that the inherited setter of [__proto__] ignores a
    value that is not an object and creates nothing. *)
Definition assign (k : string) (v : tally) (o : Obj tally) : Obj tally :=
  match get k o with
  | Some _ => set k v o
  | None => if String.eqb k "__proto__" then o else set k v o
  end.

(** The number a tally stands for in arithmetic; [None] is [NaN]. *)
Definition to_number (v : tally) : option Z :=
  match v with
  | Count n => Some n
  | Native _ _ => None
  end.

(** *** [Map] and [Set], in insertion order *)

Definition Map (V : Type) : Type := list (string * V).
Definition Map_has {V} (k : string) (m : Map V) : bool :=
  match get k m with Some _ => true | None => false end.
Definition Map_get {V} (k : string) (m : Map V) : option V := get k m.
Definition Map_set {V} (k : string) (v : V) (m : Map V) : Map V := set k v m.

Definition SetOf : Type := list string.
Definition Set_has (k : string) (s : SetOf) : bool := existsb (String.eqb k) s.
Definition Set_add (k : string) (s : SetOf) : SetOf :=
  if Set_has k s then s else s ++ [k].
Definition Set_size (s : SetOf) : Z := Z.of_nat (List.length s).

End JS.

(** ** Data model *)

Module Problem.
Record t := mk {
  contestId : option Z;
  index : string;
  tags : option (list string);
  rating : option Z
}.
End Problem.

Module Submission.
Record t := mk {
  problem : Problem.t;
  verdict : string;
  programmingLanguage : string;
  creationTimeSeconds : Z
}.
End Submission.

(** The per-problem record kept in [problemStats]. *)
Module Stats.
Record t := mk {
  solved : bool;
  attempts : Z;
  tags : list string;
  rating : option Z;
  lastAttempt : Z
}.
End Stats.

(** An entry of [problemAccuracy]. *)
Module Accuracy.
Record t := mk { total : float; count : Z }.
End Accuracy.

Module Analysis.
Record t := mk {
  totalProblemsSolved : Z;
  totalSubmissions : Z;
  totalAccepted : Z;
  totalAttempts : Z;
  solvedByTag : JS.Obj JS.tally;
  solvedByRating : JS.Obj Z;
  verdicts : JS.Obj JS.tally;
  languages : JS.Obj JS.tally;
  topTags : list (string * JS.tally);
  weakTags : list string;
  ratingDistribution : list (string * Z);
  topLanguages : list (string * JS.tally);
  maxAttempts : Z;
  tagAccuracy : JS.Obj float;
  highestSolvedRating : option Z;      (* [None] is [NaN] *)
  problemStats : JS.Obj Stats.t;
  attemptsPerProblem : JS.Obj Z
}.
End Analysis.

Module UserData.
Record t := mk {
  rating : option Z;
  rank : option string;
  maxRating : option Z;
  organization : option string
}.
End UserData.

(** ** The Submission Analyzer *)

Import JS.

(** The integer [z] as a double (round to nearest even). *)
Definition Z2float (z : Z) : float :=
  SF2Prim (binary_normalize prec emax z 0 false).

(** [`${submission.problem.contestId}-${submission.problem.index}`] *)
Definition problemKey (submission : Submission.t) : string :=
  let p := Submission.problem submission in
  ((match Problem.contestId p with
    | Some c => Number_toString c
    | None => "undefined"
    end) ++ "-" ++ Problem.index p)%string.

(** Truthiness of an optional number: present and not zero. *)
Definition truthy (n : option Z) : bool :=
  match n with Some r => negb (r =? 0) | None => false end.

Definition accepted (submission : Submission.t) : bool :=
  String.eqb (Submission.verdict submission) "OK".

(** The variables of [analyzeSubmissions] that the loop updates. *)
Module Vars.
Record t := mk {
  solvedProblems : SetOf;
  solvedByTag : Obj tally;
  solvedByRating : Obj Z;
  verdicts : Obj tally;
  languages : Obj tally;
  attemptsPerProblem : Map Z;
  problemStats : Map Stats.t;
  totalAccepted : Z;
  maxAttempts : Z;
  totalAttempts : Z
}.

Definition init : t := mk [] [] [] [] [] [] [] 0 0 0.
End Vars.

(** [o[k] = (o[k] || 0) + 1] *)
Definition incr (k : string) (o : Obj tally) : Obj tally :=
  assign k (plus_one (get0 k o)) o.

(** [tags?.forEach(tag => { solvedByTag[tag] = (solvedByTag[tag] || 0) + 1 })] *)
Definition count_tags (tags : option (list string)) (o : Obj tally) : Obj tally :=
  match tags with
  | Some ts => fold_left (fun o tag => incr tag o) ts o
  | None => o
  end.

(** [solvedByRating[rating] || 0] for a number [rating].  The key is the
    numeral of the number, and no inherited member has a numeral for its
    name: the property read is the object's own, and it is a number. *)
Definition rating_count (rating : Z) (o : Obj Z) : Z :=
  match get (Number_toString rating) o with Some v => v | None => 0 end.

(** [if (rating) { solvedByRating[rating] = (solvedByRating[rating] || 0) + 1 }] *)
Definition count_rating (rating : option Z) (o : Obj Z) : Obj Z :=
  match rating with
  | Some r =>
      if truthy rating
      then set (Number_toString r) (rating_count r o + 1) o
      else o
  | None => o
  end.

(** The record created for a problem at its first submission. *)
Definition fresh_stats (submission : Submission.t) : Stats.t :=
  let p := Submission.problem submission in
  Stats.mk false 0
    (match Problem.tags p with Some ts => ts | None => [] end)
    (Problem.rating p)
    (Submission.creationTimeSeconds submission).

(** The body of [submissions.forEach], statement by statement.  [stats] is
    the object that [problemStats] holds under [key]: the assignments to its
    fields change the entry of the map, which is written here as a final
    [Map_set] on the same key (the entry keeps its position). *)
Definition forEach_body (st : Vars.t) (submission : Submission.t) : Vars.t :=
  let p := Submission.problem submission in
  let key := problemKey submission in
  let totalAttempts := Vars.totalAttempts st + 1 in
  let languages :=
    incr (Submission.programmingLanguage submission) (Vars.languages st) in
  let verdicts := incr (Submission.verdict submission) (Vars.verdicts st) in
  (* if (!problemStats.has(problemKey)) { problemStats.set(problemKey, {...}) } *)
  let problemStats :=
    if Map_has key (Vars.problemStats st) then Vars.problemStats st
    else Map_set key (fresh_stats submission) (Vars.problemStats st) in
  (* const stats = problemStats.get(problemKey), present by now *)
  let stats :=
    match Map_get key problemStats with
    | Some stats => stats
    | None => fresh_stats submission
    end in
  (* stats.attempts++; stats.lastAttempt = Math.max(...) *)
  let stats :=
    Stats.mk (Stats.solved stats) (Stats.attempts stats + 1)
      (Stats.tags stats) (Stats.rating stats)
      (Z.max (Stats.lastAttempt stats)
         (Submission.creationTimeSeconds submission)) in
  (* if (submission.verdict === 'OK') { stats.solved = true; totalAccepted++ ... *)
  let ok := accepted submission in
  let stats :=
    if ok
    then Stats.mk true (Stats.attempts stats) (Stats.tags stats)
           (Stats.rating stats) (Stats.lastAttempt stats)
    else stats in
  let totalAccepted :=
    if ok then Vars.totalAccepted st + 1 else Vars.totalAccepted st in
  (* ... if (!solvedProblems.has(problemKey)) { ... } } *)
  let first := ok && negb (Set_has key (Vars.solvedProblems st)) in
  let solvedProblems :=
    if first then Set_add key (Vars.solvedProblems st)
    else Vars.solvedProblems st in
  let solvedByTag :=
    if first then count_tags (Problem.tags p) (Vars.solvedByTag st)
    else Vars.solvedByTag st in
  let solvedByRating :=
    if first then count_rating (Problem.rating p) (Vars.solvedByRating st)
    else Vars.solvedByRating st in
  let problemStats := Map_set key stats problemStats in
  (* attemptsPerProblem.set(problemKey, stats.attempts); maxAttempts = ... *)
  let attemptsPerProblem :=
    Map_set key (Stats.attempts stats) (Vars.attemptsPerProblem st) in
  let maxAttempts := Z.max (Vars.maxAttempts st) (Stats.attempts stats) in
  Vars.mk solvedProblems solvedByTag solvedByRating verdicts languages
    attemptsPerProblem problemStats totalAccepted maxAttempts totalAttempts.

Definition forEach (submissions : list Submission.t) : Vars.t :=
  fold_left forEach_body submissions Vars.init.

(** [problemAccuracy]: for every solved problem, [1 / attempts] is added to
    the entry of each of its tags. *)
Definition add_accuracy (accuracy : float) (o : Obj Accuracy.t) (tag : string)
  : Obj Accuracy.t :=
  match get tag o with
  | Some e =>
      set tag
        (Accuracy.mk (Accuracy.total e + accuracy)%float (Accuracy.count e + 1)) o
  | None =>
      (* [!problemAccuracy[tag]] is false for the name of an inherited
         member: no entry is created, and [total] and [count] are written on
         the member, where the analysis does not read them *)
      if inherited tag then o
      else
        set tag
          (Accuracy.mk (Z2float 0 + accuracy)%float (0 + 1)) o
  end.

Definition problemAccuracy (problemStats : Map Stats.t) : Obj Accuracy.t :=
  fold_left
    (fun o e =>
       let stats := snd e in
       if Stats.solved stats then
         let accuracy := (Z2float 1 / Z2float (Stats.attempts stats))%float in
         fold_left (add_accuracy accuracy) (Stats.tags stats) o
       else o)
    problemStats [].

Definition tagAccuracy (pa : Obj Accuracy.t) : Obj float :=
  fold_left
    (fun o tag =>
       match get tag pa with
       | Some e =>
           set tag (Accuracy.total e / Z2float (Accuracy.count e))%float o
       | None => o
       end)
    (Object_keys pa) [].

(** [x - y] on what a dictionary of counts holds; a difference that is
    [NaN] counts as zero in the sort.  Among entries that hold numbers the
    comparators below are consistent orderings.  With a text among them
    they are not, and the array that the engine returns depends on its
    algorithm: the properties of the sorted sequences are stated for
    entries that hold numbers, and the examples with a text have two
    entries, which compare as equal and keep their order in every stable
    sort. *)
Definition minus (x y : tally) : Z :=
  match to_number x, to_number y with
  | Some n, Some m => n - m
  | _, _ => 0
  end.

(** The comparators handed to [sort]. *)
Definition by_count_desc (a b : string * tally) : Z := minus (snd b) (snd a).
Definition by_count_asc (a b : string * tally) : Z := minus (snd a) (snd b).

(** [parseInt(a[0]) - parseInt(b[0])]; a [NaN] difference counts as [0]. *)
Definition by_rating_asc (a b : string * Z) : Z :=
  match parseInt (fst a), parseInt (fst b) with
  | Some x, Some y => x - y
  | _, _ => 0
  end.

(** [Math.max(x, ...xs)]: [NaN] as soon as one argument is. *)
Definition Math_max (x : option Z) (xs : list (option Z)) : option Z :=
  fold_left
    (fun m y =>
       match m, y with
       | Some a, Some b => Some (Z.max a b)
       | _, _ => None
       end)
    xs x.

Definition analyzeSubmissions (submissions : list Submission.t) : Analysis.t :=
  let st := forEach submissions in
  let solvedByTag := Vars.solvedByTag st in
  let solvedByRating := Vars.solvedByRating st in
  let languages := Vars.languages st in
  let topTags :=
    slice0 10 (Array_sort by_count_desc (Object_entries solvedByTag)) in
  let weakTags :=
    map fst (slice0 5 (Array_sort by_count_asc (Object_entries solvedByTag))) in
  let ratingDistribution :=
    Array_sort by_rating_asc (Object_entries solvedByRating) in
  let topLanguages :=
    slice0 5 (Array_sort by_count_desc (Object_entries languages)) in
  let highestSolvedRating :=
    match map (fun e => parseInt (fst e)) ratingDistribution with
    | [] => Some 0
    | r :: rs => Math_max r rs
    end in
  Analysis.mk
    (Set_size (Vars.solvedProblems st))
    (Z.of_nat (List.length submissions))
    (Vars.totalAccepted st)
    (Vars.totalAttempts st)
    solvedByTag
    solvedByRating
    (Vars.verdicts st)
    languages
    topTags
    weakTags
    ratingDistribution
    topLanguages
    (Vars.maxAttempts st)
    (tagAccuracy (problemAccuracy (Vars.problemStats st)))
    highestSolvedRating
    (Object_fromEntries (Vars.problemStats st))
    (Object_fromEntries (Vars.attemptsPerProblem st)).

(** ** Text of the synthesizers

    A JavaScript string is represented by the bytes of its UTF-8 encoding. *)

Definition nl : string := String "010"%char EmptyString.
Definition dquote : string := String "034"%char EmptyString.

(** The pieces appended to the result, in order. *)
Definition cat (pieces : list string) : string :=
  fold_right String.append EmptyString pieces.

(** [l.forEach((x, index) => { out += line(index, x) })] *)
Fixpoint forEach_text {A : Type} (line : nat -> A -> string) (index : nat)
  (l : list A) : string :=
  match l with
  | [] => EmptyString
  | x :: l' => (line index x ++ forEach_text line (S index) l')%string
  end.

(** [s] occurs in [text]. *)
Definition contains (s text : string) : Prop :=
  exists before after, text = (before ++ s ++ after)%string.

(** [`${n}`] for an integer, and for a number that may be [NaN]. *)
Definition num (z : Z) : string := Number_toString z.
Definition num_or_NaN (n : option Z) : string :=
  match n with Some z => num z | None => "NaN" end.

(** [n || d] on numbers and [s || d] on strings: zero, the empty string and
    an absent value are falsy. *)
Definition or_number (n : option Z) (d : Z) : Z :=
  match n with Some r => if r =? 0 then d else r | None => d end.
Definition or_string (s : option string) (d : string) : string :=
  match s with Some s' => if String.eqb s' "" then d else s' | None => d end.
(** [`${n || s}`] *)
Definition num_or_string (n : option Z) (d : string) : string :=
  match n with Some r => if r =? 0 then d else num r | None => d end.

(** *** [Number.prototype.toFixed]

    [round_half_up m e] is the integer nearest to [m * 2^e], the larger one
    of two.  [fixed f n] prints [n / 10^f] with [f] decimals. *)
Definition round_half_up (m e : Z) : Z :=
  if 0 <=? e then m * 2 ^ e else (2 * m + 2 ^ (- e)) / 2 ^ (- e + 1).

(** [s] after [n] zeros. *)
Fixpoint zeros (n : nat) (s : string) : string :=
  match n with
  | O => s
  | S n' => zeros n' (String "0" s)
  end.

Definition pad_zeros (width : nat) (s : string) : string :=
  zeros (width - String.length s) s.

Definition fixed (f : nat) (n : Z) : string :=
  match f with
  | O => num n
  | _ => let p := 10 ^ Z.of_nat f in
         (num (n / p) ++ "." ++ pad_zeros f (num (n mod p)))%string
  end.

(** [x.toFixed(f)].  Not finite: the name of the value.  Otherwise the
    decimal numeral with [f] decimals nearest to the exact value of the
    double.  (From 10^21 on ECMAScript prints the exponent notation, which
    is not modelled; a percentage that large needs a counter above 10^19.) *)
Definition toFixed (f : nat) (x : float) : string :=
  match Prim2SF x with
  | S754_nan => "NaN"
  | S754_infinity false => "Infinity"
  | S754_infinity true => "-Infinity"
  | S754_zero _ => fixed f 0
  | S754_finite s m e =>
      ((if s then "-" else "")
       ++ fixed f (round_half_up (Z.pos m * 10 ^ Z.of_nat f) e))%string
  end.

(** [(a / b) * 100] *)
Definition percentage (a b : Z) : float :=
  (Z2float a / Z2float b * Z2float 100)%float.

(** [ratings.reduce((a, b) => a + b, 0)], [NaN] as soon as one rating is. *)
Definition sum_ratings (ratings : list (option Z)) : option Z :=
  fold_left
    (fun a b => match a, b with Some x, Some y => Some (x + y) | _, _ => None end)
    ratings (Some 0).

Definition number2float (n : option Z) : float :=
  match n with Some z => Z2float z | None => nan end.

(** [Math.max(0, x)] *)
Definition Math_max0 (x : float) : float :=
  if is_nan x then x else if (zero <? x)%float then x else zero.

(** [n] digits [1]. *)
Fixpoint ones (n : nat) : string :=
  match n with
  | O => EmptyString
  | S n' => (ones n' ++ "1")%string
  end.

(** [`${v}`] for what a dictionary of counts holds.  [inherited_text] gives
    the text of a member of [Object.prototype], which the engine defines
    (V8 prints [function Object() { [native code] }] for [constructor] and
    [[object Object]] for [__proto__]). *)
Definition tally_text (inherited_text : string -> string) (v : tally) : string :=
  match v with
  | Count n => num n
  | Native member n => (inherited_text member ++ ones n)%string
  end.

(** [(count / b) * 100] for a count of a dictionary; a text that is not a
    numeral is [NaN] in the division. *)
Definition tally_percentage (count : tally) (b : Z) : float :=
  (number2float (to_number count) / Z2float b * Z2float 100)%float.

(** [weakTags[0] || d] *)
Definition first_or (l : list string) (d : string) : string :=
  match l with t :: _ => if String.eqb t "" then d else t | [] => d end.

(** ** The Prompt Synthesizer ([generateCodeforcesPrompt], backend) *)

Definition generateCodeforcesPrompt (inherited_text : string -> string)
  (handle : string) (userData : UserData.t) (analysis : Analysis.t) : string :=
  let userRating := or_number (UserData.rating userData) 0 in
  let userRank := or_string (UserData.rank userData) "unrated" in
  cat [
    "I have analyzed the Codeforces profile of "; handle;
      ". Here's a detailed analysis:"; nl; nl;
    "User Information:"; nl;
    "- Handle: "; handle; nl;
    "- Current Rating: "; num userRating; " ("; userRank; ")"; nl;
    "- Max Rating: "; num (or_number (UserData.maxRating userData) userRating); nl;
    "- Organization: ";
      or_string (UserData.organization userData) "Not specified"; nl; nl;
    "Performance Metrics:"; nl;
    "- Total Problems Solved: "; num (Analysis.totalProblemsSolved analysis); nl;
    "- Total Submissions: "; num (Analysis.totalSubmissions analysis); nl;
    "- Acceptance Rate: ";
      toFixed 1 (percentage (Analysis.totalAccepted analysis)
                   (Analysis.totalSubmissions analysis)); "%"; nl;
    "- Highest Solved Rating: ";
      num_or_NaN (Analysis.highestSolvedRating analysis); nl; nl;
    "Strengths (Top Problem Tags):"; nl;
    match Analysis.topTags analysis with
    | [] => cat ["No tag data available"; nl]
    | topTags =>
        forEach_text
          (fun index '(tag, count) =>
             cat [num (Z.of_nat index + 1); ". "; tag; ": ";
                  tally_text inherited_text count; " problems solved"; nl])
          0 (slice0 5 topTags)
    end;
    nl; "Areas for Improvement (Weakest Tags):"; nl;
    match Analysis.weakTags analysis with
    | [] => cat ["No weakness data available"; nl]
    | weakTags =>
        forEach_text
          (fun index tag =>
             let solvedCount := get0 tag (Analysis.solvedByTag analysis) in
             cat [num (Z.of_nat index + 1); ". "; tag; ": Only ";
                  tally_text inherited_text solvedCount; " problems solved"; nl])
          0 weakTags
    end;
    nl; "Rating Distribution Analysis:"; nl;
    match Analysis.ratingDistribution analysis with
    | [] => cat ["No rating distribution data available"; nl]
    | ratingDistribution =>
        let ratings := map (fun e => parseInt (fst e)) ratingDistribution in
        let avgSolvedRating :=
          (number2float (sum_ratings ratings)
           / Z2float (Z.of_nat (List.length ratings)))%float in
        cat ["- Average solved problem rating: "; toFixed 0 avgSolvedRating; nl;
             "- Current rating capability: "; num userRating; nl;
             "- Gap to next level: ";
               toFixed 0
                 (Math_max0 (Z2float (userRating + 100) - avgSolvedRating)%float);
               " rating points"; nl]
    end;
    nl; "Programming Language Usage:"; nl;
    match Analysis.topLanguages analysis with
    | [] => cat ["No language data available"; nl]
    | topLanguages =>
        forEach_text
          (fun index '(lang, count) =>
             let percentage :=
               toFixed 1
                 (tally_percentage count (Analysis.totalSubmissions analysis)) in
             cat [num (Z.of_nat index + 1); ". "; lang; ": "; percentage;
                  "% of submissions"; nl])
          0 topLanguages
    end;
    nl; "Problem-Solving Patterns:"; nl;
    "- Maximum attempts on a single problem: ";
      num_or_string (Some (Analysis.maxAttempts analysis)) "N/A"; nl;
    (if Analysis.maxAttempts analysis >? 5
     then "- Pattern: Tendency to persist on difficult problems (good for learning)"
     else "- Pattern: Efficient problem-solver, moves on quickly"); nl;
    nl; "Based on this analysis, please provide:"; nl;
    "1. Specific competitive programming areas to focus on"; nl;
    "2. Recommended problem ratings to target (current level and next level)"; nl;
    "3. Study plan suggestions"; nl;
    "4. Key problem types to practice"; nl;
    "5. Tips to improve contest performance"; nl;
    "6. Recommended Codeforces problem IDs to solve next (provide 5-10 specific problem IDs with ratings)"; nl;
    nl; "Please structure your response with clear sections and be specific about problem recommendations."
  ].

(** ** The Fallback Synthesizer *)

(** [generateCodeforcesFallback] (backend). *)
Definition generateCodeforcesFallback (inherited_text : string -> string)
  (handle : string) (userData : UserData.t) (analysis : Analysis.t) : string :=
  let userRating := or_number (UserData.rating userData) 1200 in
  let ratingRange := (Z.max 800 (userRating - 100), userRating + 100) in
  cat [
    "## Codeforces Analysis for "; handle; nl; nl;
    "### 📊 Basic Statistics"; nl;
    "- **Rating**: "; num_or_string (UserData.rating userData) "Unrated";
      " ("; or_string (UserData.rank userData) "Unranked"; ")"; nl;
    "- **Max Rating**: ";
      match UserData.maxRating userData with
      | Some m => if m =? 0 then num_or_string (UserData.rating userData) "Unrated"
                  else num m
      | None => num_or_string (UserData.rating userData) "Unrated"
      end; nl;
    "- **Problems Solved**: ";
      num (or_number (Some (Analysis.totalProblemsSolved analysis)) 0); nl;
    "- **Acceptance Rate**: ";
      (if Analysis.totalSubmissions analysis >? 0
       then toFixed 1 (percentage (Analysis.totalAccepted analysis)
                         (Analysis.totalSubmissions analysis))
       else num 0); "%"; nl; nl;
    match Analysis.topTags analysis with
    | [] => EmptyString
    | topTags =>
        cat ["### 🏆 Top Strengths"; nl;
             forEach_text
               (fun index '(tag, count) =>
                  cat [num (Z.of_nat index + 1); ". **"; tag; "**: ";
                       tally_text inherited_text count; " problems solved"; nl])
               0 (slice0 3 topTags)]
    end;
    match Analysis.weakTags analysis with
    | [] => EmptyString
    | weakTags =>
        cat [nl; "### 📈 Areas for Improvement"; nl;
             forEach_text
               (fun index tag =>
                  let solvedCount := get0 tag (Analysis.solvedByTag analysis) in
                  cat [num (Z.of_nat index + 1); ". **"; tag; "**: Only ";
                       tally_text inherited_text solvedCount; " problems solved"; nl])
               0 (slice0 3 weakTags)]
    end;
    nl; "### 🎯 Recommended Next Steps"; nl;
    "1. **Target Rating**: Practice problems rated ";
      num (fst ratingRange); "-"; num (snd ratingRange); nl;
    "2. **Weak Areas**: Focus on ";
      first_or (Analysis.weakTags analysis) "dynamic programming"; " problems"; nl;
    "3. **Contest Strategy**: Participate in Div 2 contests regularly"; nl;
    "4. **Learning Plan**: Solve 5-10 problems daily from different categories";
      nl; nl;
    "### 💡 Specific Recommendations"; nl;
    "- **Immediate Focus**: ";
      first_or (Analysis.weakTags analysis) "Graph Theory"; " problems"; nl;
    "- **Problem Count**: Aim for 50 more solves in your weak areas"; nl;
    "- **Rating Goal**: Target "; num (userRating + 100); " within 2 months"; nl;
    "- **Resources**: Use Codeforces Edu section for tutorials"; nl; nl;
    "### 🔗 Recommended Practice Problems"; nl;
    "(These are general recommendations - connect to backend for specific problem IDs)"; nl;
    "1. Search Codeforces for "; dquote;
      first_or (Analysis.weakTags analysis) "dp"; dquote;
      " tagged problems at "; num (fst ratingRange); " rating"; nl;
    "2. Try recent Div 2 A/B problems to build speed"; nl;
    "3. Practice virtual contests to simulate real competition"; nl
  ].

(** [generateFallbackRecommendations] (frontend): the same document, without
    the guards on the acceptance rate and on empty lists. *)
Definition generateFallbackRecommendations (inherited_text : string -> string)
  (handle : string) (userData : UserData.t) (analysis : Analysis.t) : string :=
  let userRating := or_number (UserData.rating userData) 1200 in
  let ratingRange := (Z.max 800 (userRating - 100), userRating + 100) in
  cat [
    "## Codeforces Analysis for "; handle; nl; nl;
    "### ğŸ“Š Basic Statistics"; nl;
    "- **Rating**: "; num_or_string (UserData.rating userData) "Unrated";
      " ("; or_string (UserData.rank userData) "Unranked"; ")"; nl;
    "- **Max Rating**: ";
      match UserData.maxRating userData with
      | Some m => if m =? 0 then num_or_string (UserData.rating userData) "Unrated"
                  else num m
      | None => num_or_string (UserData.rating userData) "Unrated"
      end; nl;
    "- **Problems Solved**: "; num (Analysis.totalProblemsSolved analysis); nl;
    "- **Acceptance Rate**: ";
      toFixed 1 (percentage (Analysis.totalAccepted analysis)
                   (Analysis.totalSubmissions analysis)); "%"; nl; nl;
    "### ğŸ† Top Strengths"; nl;
    forEach_text
      (fun index '(tag, count) =>
         cat [num (Z.of_nat index + 1); ". **"; tag; "**: ";
              tally_text inherited_text count; " problems solved"; nl])
      0 (slice0 3 (Analysis.topTags analysis));
    nl; "### ğŸ“ˆ Areas for Improvement"; nl;
    forEach_text
      (fun index tag =>
         let solvedCount := get0 tag (Analysis.solvedByTag analysis) in
         cat [num (Z.of_nat index + 1); ". **"; tag; "**: Only ";
              tally_text inherited_text solvedCount; " problems solved"; nl])
      0 (slice0 3 (Analysis.weakTags analysis));
    nl; "### ğŸ¯ Recommended Next Steps"; nl;
    "1. **Target Rating**: Practice problems rated ";
      num (fst ratingRange); "-"; num (snd ratingRange); nl;
    "2. **Weak Areas**: Focus on ";
      first_or (Analysis.weakTags analysis) "dynamic programming"; " problems"; nl;
    "3. **Contest Strategy**: Participate in Div 2 contests regularly"; nl;
    "4. **Learning Plan**: Solve 5-10 problems daily from different categories";
      nl; nl;
    "### ğŸ’¡ Specific Recommendations"; nl;
    "- **Immediate Focus**: ";
      first_or (Analysis.weakTags analysis) "Graph Theory"; " problems"; nl;
    "- **Problem Count**: Aim for 50 more solves in your weak areas"; nl;
    "- **Rating Goal**: Target "; num (userRating + 100); " within 2 months"; nl;
    "- **Resources**: Use Codeforces Edu section for tutorials"; nl; nl;
    "### ğŸ”— Recommended Practice Problems"; nl;
    "(These are general recommendations - connect to backend for specific problem IDs)"; nl;
    "1. Search Codeforces for "; dquote;
      first_or (Analysis.weakTags analysis) "dp"; dquote;
      " tagged problems at "; num (fst ratingRange); " rating"; nl;
    "2. Try recent Div 2 A/B problems to build speed"; nl;
    "3. Practice virtual contests to simulate real competition"; nl
  ].

(** ** Vocabulary of the properties *)

(** *** Keeping the first member for every key *)

Section FirstBy.
Context {A : Type} (key : A -> string).

Definition has_key (k : string) (a : A) : bool := String.eqb (key a) k.

(** The members of [l] whose key has not occurred before them. *)
Fixpoint first_by (l : list A) : list A :=
  match l with
  | [] => []
  | a :: l' => a :: filter (fun b => negb (has_key (key a) b)) (first_by l')
  end.
End FirstBy.

(** *** What the loop computes

    The variables after the loop are characterised by functions of the
    submission list that do not mention the loop. *)

Definition same_problem : string -> Submission.t -> bool := has_key problemKey.

(** The submissions of one problem, in arrival order. *)
Definition submissions_of (k : string) (l : list Submission.t) : list Submission.t :=
  filter (same_problem k) l.

Definition attempts_of (k : string) (l : list Submission.t) : Z :=
  Z.of_nat (List.length (submissions_of k l)).

(** One submission per problem: the earliest one. *)
Definition first_per_problem : list Submission.t -> list Submission.t :=
  first_by problemKey.

(** For every solved problem, the accepted submission that came first. *)
Definition first_accepted (l : list Submission.t) : list Submission.t :=
  first_per_problem (filter accepted l).

(** Strings in the order of their first occurrence. *)
Definition first_seen : list string -> list string := first_by (fun k => k).

Definition submission_tags (s : Submission.t) : list string :=
  match Problem.tags (Submission.problem s) with Some ts => ts | None => [] end.

Definition submission_rating (s : Submission.t) : option Z :=
  Problem.rating (Submission.problem s).

Definition rated (s : Submission.t) : bool := truthy (submission_rating s).

Definition sumZ (l : list Z) : Z := fold_right Z.add 0 l.

Definition count_tag (t : string) (ts : list string) : Z :=
  Z.of_nat (count_occ string_dec ts t).

(** How often tag [t] occurs on the submissions [ss]. *)
Definition tag_total (t : string) (ss : list Submission.t) : Z :=
  sumZ (map (fun s => count_tag t (submission_tags s)) ss).

Definition has_rating (r : Z) (s : Submission.t) : bool :=
  match submission_rating s with Some r' => r' =? r | None => false end.

(** What [problemStats] holds for problem [k] after the submissions [l]. *)
Definition stats_of (k : string) (l : list Submission.t) : option Stats.t :=
  match submissions_of k l with
  | [] => None
  | s0 :: rest =>
      Some (Stats.mk
              (existsb accepted (s0 :: rest))
              (Z.of_nat (List.length (s0 :: rest)))
              (submission_tags s0)
              (submission_rating s0)
              (fold_left Z.max (map Submission.creationTimeSeconds rest)
                 (Submission.creationTimeSeconds s0)))
  end.

(** Whether [s], arriving after [l], is the first accepted submission of its
    problem. *)
Definition first_ok (l : list Submission.t) (s : Submission.t) : bool :=
  accepted s && negb (existsb (same_problem (problemKey s)) (filter accepted l)).

(** The record that the loop reads for the problem of [s], when [s] arrives
    after [l]: the one of [problemStats], or a new one. *)
Definition read_stats (l : list Submission.t) (s : Submission.t) : Stats.t :=
  match Map_get (problemKey s) (Vars.problemStats (forEach l)) with
  | Some stats => stats
  | None => fresh_stats s
  end.

(** Every stored count is at least one. *)
Definition positive_counts (o : Obj Z) : Prop :=
  forall k v, get k o = Some v -> 1 <= v.

(** The dictionary that [o[k] = (o[k] || 0) + 1] fills from the keys
    [keys], taken one after the other. *)
Definition tally_of (keys : list string) : Obj tally :=
  fold_left (fun o k => incr k o) keys [].

(** What the dictionary holds under [k] once [k] has been counted [n]
    times: nothing under [__proto__], a text under the name of another
    inherited member, the number [n] under any other key. *)
Definition stored (k : string) (n : nat) : option tally :=
  if String.eqb k "__proto__" then None
  else
    match n with
    | O => None
    | S _ => Some (if inherited k then Native k n else Count (Z.of_nat n))
    end.

(** None of the keys is the name of an inherited member. *)
Definition plain (keys : list string) : Prop :=
  Forall (fun k => inherited k = false) keys.

(** The number under a key of a dictionary of counts, 0 for a text. *)
Definition weight (v : tally) : Z :=
  match to_number v with Some n => n | None => 0 end.

(** The sum of the numbers that a dictionary of counts holds. *)
Definition total_count (o : Obj tally) : Z := sumZ (map (fun e => weight (snd e)) o).

(** The tags on the solved problems, in the order in which the loop counts
    them. *)
Definition solved_tags (l : list Submission.t) : list string :=
  flat_map submission_tags (first_accepted l).

(** Every property key of [solvedByRating] is the numeral of a non-zero
    rating. *)
Definition rating_key (k : string) : Prop :=
  exists r, r <> 0 /\ k = Number_toString r.

Definition count_by (f : Submission.t -> string) (k : string)
  (l : list Submission.t) : Z :=
  Z.of_nat (List.length (filter (fun s => String.eqb (f s) k) l)).

(** [maxAttempts] is the largest number of submissions of one problem. *)
Definition is_max_attempts (l : list Submission.t) (m : Z) : Prop :=
  (forall s, In s l -> attempts_of (problemKey s) l <= m) /\
  ((l = [] /\ m = 0) \/ exists s, In s l /\ attempts_of (problemKey s) l = m).

(** *** The derived sequences as the specification words them

    The tag/count pairs of [solvedByTag] taken in the order in which the
    tags were first seen on solved problems, ordered by count with a stable
    sort, so that ties keep the first-seen order. *)
Definition first_seen_entries (submissions : list Submission.t)
  : list (string * tally) :=
  let o := Analysis.solvedByTag (analyzeSubmissions submissions) in
  map (fun t => (t, get0 t o))
    (first_seen (flat_map submission_tags (first_accepted submissions))).

Definition topTags_first_seen (submissions : list Submission.t)
  : list (string * tally) :=
  slice0 10 (Array_sort by_count_desc (first_seen_entries submissions)).

Definition weakTags_first_seen (submissions : list Submission.t) : list string :=
  map fst (slice0 5 (Array_sort by_count_asc (first_seen_entries submissions))).

(** [l] is [entries] ordered by [key] ascending, the members with equal
    keys in the order they have in [entries]. *)
Definition ordered_by {A : Type} (key : A -> Z) (entries l : list A) : Prop :=
  StronglySorted (fun a b => key a <= key b) l /\
  forall c, filter (fun e => key e =? c) l = filter (fun e => key e =? c) entries.

Definition count_desc (e : string * tally) : Z := - weight (snd e).
Definition count_asc (e : string * tally) : Z := weight (snd e).

(** *** Order of arrival *)

(** The problem metadata a submission carries. *)
Definition metadata (s : Submission.t) : option (list string) * option Z :=
  (Problem.tags (Submission.problem s), Problem.rating (Submission.problem s)).

(** The metadata is a function of the problem: every submission of a
    problem carries the same tags and rating. *)
Definition consistent (meta : string -> option (list string) * option Z)
  (l : list Submission.t) : Prop :=
  forall s, In s l -> metadata s = meta (problemKey s).

(** No two keys of the dictionary have the same count. *)
Definition no_ties (o : Obj tally) : Prop :=
  forall k k' c, get k o = Some c -> get k' o = Some c -> k = k'.

(** Every entry holds a number. *)
Definition numeric (entries : list (string * tally)) : Prop :=
  Forall (fun e => snd e = Count (weight (snd e))) entries.

(** The entries with equal counts come in the same order in both lists. *)
Definition same_tie_order (entries entries' : list (string * tally)) : Prop :=
  forall c,
    filter (fun e => weight (snd e) =? c) entries =
    filter (fun e => weight (snd e) =? c) entries'.

(** [m] is the largest member of [xs]. *)
Definition is_max (m : Z) (xs : list Z) : Prop :=
  In m xs /\ Forall (fun y => y <= m) xs.

(** The rating a key of [solvedByRating] stands for. *)
Definition rating_of (e : string * Z) : Z :=
  match parseInt (fst e) with Some r => r | None => 0 end.

(** The numbered lines of a section of a document: the member at position
    [i] of [l] gives the line of number [i + 1], and the lines follow one
    another in the order of [l]. *)
Definition numbered_lines {A : Type} (line : Z -> A -> string) (l : list A)
  : string :=
  cat (map (fun p => line (Z.of_nat (fst p) + 1) (snd p))
         (combine (seq 0 (List.length l)) l)).

(** A decision procedure for [contains]. *)
Fixpoint substringb (s text : string) : bool :=
  String.prefix s text ||
  match text with
  | EmptyString => false
  | String _ text' => substringb s text'
  end.

(** ** Sample inputs *)

(** A submission with all its fields present. *)
Definition submission (contestId : Z) (index : string) (tags : list string)
  (rating : option Z) (verdict language : string) (time : Z) : Submission.t :=
  Submission.mk (Problem.mk (Some contestId) index (Some tags) rating)
    verdict language time.

Definition no_profile : UserData.t := UserData.mk None None None None.

(** An analysis with a language count but no submission count. *)
Definition skewed_analysis : Analysis.t :=
  Analysis.mk 0 0 0 0 [] [] [] [("C++", Count 3)] [] [] []
    [("C++", Count 3)] 0 [] (Some 0) [] [].

(** The analysis of one accepted submission on a problem tagged [t]: [t] is
    the weakest tag. *)
Definition analysisWithWeakTag (t : string) : Analysis.t :=
  analyzeSubmissions [submission 1 "A" [t] (Some 800) "OK" "C++" 10].

(** Two solved problems whose tags tie; one tag is an array-index numeral. *)
Definition tie_example : list Submission.t :=
  [submission 1 "A" ["dp"] (Some 800) "OK" "C++" 10;
   submission 1 "B" ["7"] (Some 900) "OK" "C++" 20].

(** Two solved problems whose tags tie, in the two orders of arrival. *)
Definition shuffle_example : list Submission.t :=
  [submission 1 "A" ["dp"] (Some 800) "OK" "C++" 10;
   submission 1 "B" ["graphs"] (Some 900) "OK" "C++" 20].

Definition shuffle_example' : list Submission.t :=
  [submission 1 "B" ["graphs"] (Some 900) "OK" "C++" 20;
   submission 1 "A" ["dp"] (Some 800) "OK" "C++" 10].

(** A problem solved at the second attempt. *)
Definition retry_wrong : Submission.t :=
  submission 1 "A" ["dp"] (Some 1200) "WRONG_ANSWER" "C++" 10.
Definition retry_ok : Submission.t :=
  submission 1 "A" ["dp"] (Some 1200) "OK" "C++" 20.

(** Three submissions on two problems, without ties, in two orders. *)
Definition order_example : list Submission.t :=
  [retry_wrong; retry_ok;
   submission 2 "B" ["dp"; "graphs"] (Some 900) "OK" "C++" 15].

Definition order_example' : list Submission.t :=
  [submission 2 "B" ["dp"; "graphs"] (Some 900) "OK" "C++" 15;
   retry_ok; retry_wrong].

Definition order_meta (k : string) : option (list string) * option Z :=
  if String.eqb k "1-A" then (Some ["dp"], Some 1200)
  else (Some ["dp"; "graphs"], Some 900).

Definition alice : UserData.t := UserData.mk (Some 1400) None None None.

(** Two accepted submissions of one problem that carry different tags, in
    the two orders of arrival. *)
Definition retagged_pair : list Submission.t :=
  [submission 1 "A" ["dp"] (Some 800) "OK" "C++" 10;
   submission 1 "A" ["graphs"] (Some 800) "OK" "C++" 20].

Definition retagged_pair' : list Submission.t :=
  [submission 1 "A" ["graphs"] (Some 800) "OK" "C++" 20;
   submission 1 "A" ["dp"] (Some 800) "OK" "C++" 10].

(** Three solved problems, the third at the third attempt, in two orders
    of arrival. *)
Definition accuracy_example : list Submission.t :=
  [submission 1 "A" ["dp"] (Some 800) "OK" "C++" 10;
   submission 1 "B" ["dp"] (Some 800) "OK" "C++" 20;
   submission 1 "C" ["dp"] (Some 800) "WRONG_ANSWER" "C++" 30;
   submission 1 "C" ["dp"] (Some 800) "WRONG_ANSWER" "C++" 40;
   submission 1 "C" ["dp"] (Some 800) "OK" "C++" 50].

Definition accuracy_example' : list Submission.t :=
  [submission 1 "A" ["dp"] (Some 800) "OK" "C++" 10;
   submission 1 "C" ["dp"] (Some 800) "WRONG_ANSWER" "C++" 30;
   submission 1 "C" ["dp"] (Some 800) "WRONG_ANSWER" "C++" 40;
   submission 1 "C" ["dp"] (Some 800) "OK" "C++" 50;
   submission 1 "B" ["dp"] (Some 800) "OK" "C++" 20].

(** Two solved problems tagged with the name of an inherited function and
    one tagged [dp], in two orders of arrival. *)
Definition native_example : list Submission.t :=
  [submission 1 "A" ["constructor"] (Some 800) "OK" "C++" 10;
   submission 1 "B" ["constructor"] (Some 900) "OK" "C++" 20;
   submission 1 "C" ["dp"] (Some 1000) "OK" "C++" 30].

Definition native_example' : list Submission.t :=
  [submission 1 "C" ["dp"] (Some 1000) "OK" "C++" 30;
   submission 1 "A" ["constructor"] (Some 800) "OK" "C++" 10;
   submission 1 "B" ["constructor"] (Some 900) "OK" "C++" 20].

Definition native_meta (k : string) : option (list string) * option Z :=
  if String.eqb k "1-C" then (Some ["dp"], Some 1000)
  else if String.eqb k "1-A" then (Some ["constructor"], Some 800)
  else (Some ["constructor"], Some 900).


(** The texts that V8 gives the members of [Object.prototype]. *)
Definition v8_text (member : string) : string :=
  if String.eqb member "__proto__" then "[object Object]"
  else if String.eqb member "constructor"
       then "function Object() { [native code] }"
       else ("function " ++ member ++ "() { [native code] }")%string.

(** ** The prompt of the chat page ([generateAIRecommendationPrompt], frontend)

    The text that the chat page sends to the [/generate] route after the
    analysis of a handle. *)

Definition generateAIRecommendationPrompt (inherited_text : string -> string)
  (handle : string) (userData : UserData.t) (analysis : Analysis.t) : string :=
  let userRating := or_number (UserData.rating userData) 0 in
  let userRank := or_string (UserData.rank userData) "unrated" in
  cat [
    "I have analyzed the Codeforces profile of "; handle;
      ". Here's a detailed analysis:"; nl; nl;
    "User Information:"; nl;
    "- Handle: "; handle; nl;
    "- Current Rating: "; num userRating; " ("; userRank; ")"; nl;
    nl; "Areas for Improvement (Weakest Tags):"; nl;
    forEach_text
      (fun index tag =>
         let solvedCount := get0 tag (Analysis.solvedByTag analysis) in
         cat [num (Z.of_nat index + 1); ". "; tag; ": ";
              tally_text inherited_text solvedCount; " problems solved"; nl])
      0 (Analysis.weakTags analysis);
    nl; "Rating Distribution Analysis:"; nl;
    match Analysis.ratingDistribution analysis with
    | [] => EmptyString
    | ratingDistribution =>
        let ratings := map (fun e => parseInt (fst e)) ratingDistribution in
        let avgSolvedRating :=
          (number2float (sum_ratings ratings)
           / Z2float (Z.of_nat (List.length ratings)))%float in
        cat ["- Average solved problem rating: "; toFixed 0 avgSolvedRating; nl;
             "- Current rating capability: "; num userRating; nl;
             "- Gap to next level: ";
               toFixed 0
                 (Math_max0 (Z2float (userRating + 100) - avgSolvedRating)%float);
               " rating points"; nl]
    end
  ].

(** ** The Codeforces client ([codeforcesAPI], frontend)

    The network is a parameter: [fetch url] is what [await fetch(url)]
    followed by [await response.json()] gives during one call.  A body
    whose [status] is ["OK"] carries the [result] the platform documents
    for the method. *)

Module Fetch.
Inductive t (A : Type) :=
| Rejects (message : string)     (* [fetch] or [json()] rejects with an [Error] *)
| NotOk                          (* [response.ok] is false *)
| Json (status : string) (comment : option string) (result : A).
Arguments Rejects {A} message.
Arguments NotOk {A}.
Arguments Json {A} status comment result.
End Fetch.

(** [{ success: true, data }] or [{ success: false, error }] *)
Inductive Result (A : Type) :=
| Success (data : A)
| Failure (error : string).
Arguments Success {A} data.
Arguments Failure {A} error.

(** [Array.prototype.join] on an array of strings. *)
Fixpoint join (sep : string) (l : list string) : string :=
  match l with
  | [] => EmptyString
  | [x] => x
  | x :: l' => (x ++ sep ++ join sep l')%string
  end.

Definition problemset_problems : string :=
  "https://codeforces.com/api/problemset.problems".

Definition problemset_problems_tags (tags : list string) : string :=
  (problemset_problems ++ "?tags=" ++ join ";" tags)%string.

Definition getProblemsByTags (fetch : string -> Fetch.t (list Problem.t))
  (tags : list string) : Result (list Problem.t) :=
  match fetch (problemset_problems_tags tags) with
  | Fetch.Rejects message => Failure message
  | Fetch.NotOk => Failure "Failed to fetch problems"
  | Fetch.Json status comment problems =>
      if String.eqb status "OK" then Success problems
      else Failure (or_string comment "Failed to fetch problems")
  end.

(** [problem.rating && problem.rating >= ratingRange[0] &&
    problem.rating <= ratingRange[1]] *)
Definition in_ratingRange (ratingRange : Z * Z) (problem : Problem.t) : bool :=
  match Problem.rating problem with
  | Some rating =>
      negb (rating =? 0) && (fst ratingRange <=? rating)
      && (rating <=? snd ratingRange)
  | None => false
  end.

(** [(a, b) => a.rating - b.rating]; a difference that is [NaN] counts as
    zero in the sort. *)
Definition by_problem_rating (a b : Problem.t) : Z :=
  match Problem.rating a, Problem.rating b with
  | Some x, Some y => x - y
  | _, _ => 0
  end.

Definition filteredProblems (ratingRange : Z * Z) (problems : list Problem.t)
  : list Problem.t :=
  slice0 10 (Array_sort by_problem_rating
               (filter (in_ratingRange ratingRange) problems)).

Definition getRecommendedProblems (fetch : string -> Fetch.t (list Problem.t))
  (weakTags : list string) (rating : option Z) : Result (list Problem.t) :=
  let targetRating := or_number rating 1200 in
  let ratingRange := (Z.max 800 (targetRating - 200), targetRating + 200) in
  let general :=
    match fetch problemset_problems with
    | Fetch.Rejects message => Failure message
    | Fetch.NotOk => Failure "No problems found"
    | Fetch.Json status _ problems =>
        if String.eqb status "OK"
        then Success (filteredProblems ratingRange problems)
        else Failure "No problems found"
    end in
  match fetch (problemset_problems_tags (slice0 3 weakTags)) with
  | Fetch.Rejects message => Failure message
  | Fetch.NotOk => general
  | Fetch.Json status _ problems =>
      if String.eqb status "OK"
      then Success (filteredProblems ratingRange problems)
      else general
  end.

(** The rating a problem is sorted by. *)
Definition problem_rating (problem : Problem.t) : Z :=
  match Problem.rating problem with Some r => r | None => 0 end.

(** A network that answers every request for problems with one listing. *)
Definition one_listing (problems : list Problem.t) (url : string)
  : Fetch.t (list Problem.t) :=
  Fetch.Json "OK" None problems.

Definition rated_problem (contestId : Z) (index : string) (rating : Z) : Problem.t :=
  Problem.mk (Some contestId) index (Some ["dp"]) (Some rating).

Definition listing_example : list Problem.t :=
  [rated_problem 5 "C" 1500; rated_problem 1 "A" 800; rated_problem 4 "B" 1300;
   Problem.mk (Some 9) "Z" (Some ["dp"]) None; rated_problem 7 "D" 1700].

(** ** The conversation history of the chat page

    [substring] and [length] count UTF-16 code units, so the text of a
    message is represented by its code units.  [utf16] gives the code units
    of a text written as UTF-8 bytes. *)

Definition Utf16 : Type := list N.

(** One byte of a UTF-8 text: the code point begun and the number of bytes
    it still needs, and the code units completed so far, last first. *)
Definition utf16_units (cp : N) : list N :=
  if (cp <? 65536)%N then [cp]
  else [(56320 + N.land (cp - 65536) 1023)%N; (55296 + N.shiftr (cp - 65536) 10)%N].

Definition utf16_step (st : N * nat * list N) (c : ascii) : N * nat * list N :=
  let '(cp, more, units) := st in
  let b := N_of_ascii c in
  match more with
  | O =>
      if (b <? 128)%N then (0%N, O, b :: units)
      else if (b <? 224)%N then (N.land b 31, 1%nat, units)
      else if (b <? 240)%N then (N.land b 15, 2%nat, units)
      else (N.land b 7, 3%nat, units)
  | S more' =>
      let cp' := (cp * 64 + N.land b 63)%N in
      match more' with
      | O => (0%N, O, utf16_units cp' ++ units)
      | _ => (cp', more', units)
      end
  end.

Definition utf16 (s : string) : Utf16 :=
  rev (snd (fold_left utf16_step (list_ascii_of_string s) (0%N, O, []))).

Module Message.
Record t := mk {
  id : string;
  role : string;
  content : Utf16;
  timestamp : string
}.
End Message.

(** A member of [conversationsHistory].  The identifier is [null] until the
    first conversation is started. *)
Module Conversation.
Record t := mk {
  id : option string;
  title : Utf16;
  messages : list Message.t;
  lastUpdated : string
}.
End Conversation.

(** [a === b] on identifiers. *)
Definition id_eqb (a b : option string) : bool :=
  match a, b with
  | Some x, Some y => String.eqb x y
  | None, None => true
  | _, _ => false
  end.

(** The state of the chat page that the history functions read and write. *)
Module Chat.
Record t := mk {
  conversation : list Message.t;
  currentConversationId : option string;
  conversationsHistory : list Conversation.t;
  codeforcesUser : option UserData.t;
  codeforcesAnalysis : option Analysis.t;
  showUserCard : bool;
  pendingAnalysis : option (string * UserData.t * Analysis.t)
}.
End Chat.

Definition welcome (now : string) : Message.t :=
  Message.mk "welcome" "assistant"
    (utf16 (cat [
      "## ğŸ‘‹ Hello! I'm Codeforces AI Assistant"; nl; nl;
      "I can help you analyze Codeforces profiles and provide personalized recommendations.";
      nl; nl; "**To get started:**"; nl; "â€¢ Type "; dquote; "cf [handle]"; dquote;
      " to search for a user (e.g., "; dquote; "cf tourist"; dquote; ")"; nl;
      "â€¢ Ask me anything about competitive programming"; nl;
      "â€¢ Get tips to improve your rating"; nl; nl;
      "Let's analyze your first Codeforces profile! ğŸš€"
    ]))
    now.

(** [startNewConversation]; [now_ms] is [Date.now()] and [now] is
    [new Date().toISOString()]. *)
Definition startNewConversation (now_ms : Z) (now : string) (st : Chat.t) : Chat.t :=
  Chat.mk [welcome now] (Some (Number_toString now_ms))
    (Chat.conversationsHistory st) None None false None.

(** [conversationsHistory.find(c => c.id === conversationId)] *)
Definition find_conversation (conversationId : option string)
  (conversationsHistory : list Conversation.t) : option Conversation.t :=
  find (fun c => id_eqb (Conversation.id c) conversationId) conversationsHistory.

Definition loadConversation (conversationId : option string) (st : Chat.t) : Chat.t :=
  match find_conversation conversationId (Chat.conversationsHistory st) with
  | Some conversation =>
      Chat.mk (Conversation.messages conversation) conversationId
        (Chat.conversationsHistory st)
        (Chat.codeforcesUser st) (Chat.codeforcesAnalysis st)
        (Chat.showUserCard st) (Chat.pendingAnalysis st)
  | None => st
  end.

(** [content.substring(0, 50) + (content.length > 50 ? '...' : '')
    || 'New Conversation'] *)
Definition title_of (content : Utf16) : Utf16 :=
  let title :=
    firstn 50 content
    ++ (if (50 <? List.length content)%nat then utf16 "..." else []) in
  match title with
  | [] => utf16 "New Conversation"
  | _ => title
  end.

(** [saveCurrentConversation]; [now] is [new Date().toISOString()].  The
    title is taken from the second message, which a conversation of more
    than one message has. *)
Definition saveCurrentConversation (now : string) (st : Chat.t) : Chat.t :=
  let conversation := Chat.conversation st in
  let currentConversationId := Chat.currentConversationId st in
  match conversation with
  | [] | [_] => st
  | _ :: second :: _ =>
      let updatedHistory :=
        filter (fun c => negb (id_eqb (Conversation.id c) currentConversationId))
          (Chat.conversationsHistory st) in
      let conversationToSave :=
        Conversation.mk currentConversationId
          (title_of (Message.content second)) conversation now in
      let newHistory := slice0 50 (conversationToSave :: updatedHistory) in
      Chat.mk conversation currentConversationId newHistory
        (Chat.codeforcesUser st) (Chat.codeforcesAnalysis st)
        (Chat.showUserCard st) (Chat.pendingAnalysis st)
  end.

(** [handleDeleteConversation] *)
Definition handleDeleteConversation (now_ms : Z) (now : string)
  (conversationId : option string) (st : Chat.t) : Chat.t :=
  let updatedHistory :=
    filter (fun c => negb (id_eqb (Conversation.id c) conversationId))
      (Chat.conversationsHistory st) in
  let st' :=
    Chat.mk (Chat.conversation st) (Chat.currentConversationId st) updatedHistory
      (Chat.codeforcesUser st) (Chat.codeforcesAnalysis st)
      (Chat.showUserCard st) (Chat.pendingAnalysis st) in
  if id_eqb conversationId (Chat.currentConversationId st)
  then startNewConversation now_ms now st'
  else st'.

(** The identifiers of the history. *)
Definition history_ids (st : Chat.t) : list (option string) :=
  map Conversation.id (Chat.conversationsHistory st).

(** ** The backend routes of the generative service

    The environment of a request is a parameter: the variables of the
    process, the token library, the generative service, the database and
    the clock.  A text of a response is represented by its UTF-16 code
    units, as [substring] and [length] count them. *)

(** A value of a JSON body. *)
Inductive value : Type :=
| Null
| Bool (b : bool)
| Num (n : Z)
| Str (s : Utf16).

Definition str (s : string) : value := Str (utf16 s).

(** The decoded content of a token: [req.user]. *)
Module Payload.
Record t := mk {
  userId : option string;
  name : option string;
  email : option string
}.
End Payload.

(** [jwt.verify(token, secret)]: the decoded content, or an error with its
    [name]. *)
Module Jwt.
Inductive t :=
| Decoded (payload : Payload.t)
| Throws (name : string).
End Jwt.

(** The request sent to the generative service, and what comes of it:
    [content] is [response.data.choices[0]?.message?.content] and
    [total_tokens] is [response.data.usage?.total_tokens]; [Failed] is a
    rejected request or a reply without choices. *)
Module ChatRequest.
Record t := mk {
  url : string;
  model : string;
  system : string;
  user : string;
  temperature : float;
  max_tokens : Z;
  Authorization : string;
  timeout : Z
}.
End ChatRequest.

Module ApiReply.
Inductive t :=
| Replied (content : option Utf16) (total_tokens : option Z)
| Failed.
End ApiReply.

(** The document saved for a generation. *)
Module Generation.
Record t := mk {
  userId : option string;
  promptType : string;
  userInput : string;
  aiResponse : Utf16;
  tokensUsed : Z;
  mode : string;
  metadata : option (string * option Z * Z)
}.
End Generation.

Module Env.
Record t := mk {
  NODE_ENV : option string;
  JWT_SECRET : option string;
  DEEPSEEK_API_KEY : option string;
  jwt_verify : string -> string -> Jwt.t;
  axios_post : ChatRequest.t -> ApiReply.t;
  (** [generation.save()]: the [_id] of the saved document, or nothing
      when the database block throws *)
  save : Generation.t -> option string;
  (** [new Date().toISOString()] and [new Date().toLocaleString()] *)
  toISOString : string;
  toLocaleString : string;
  (** the text of a property that every object inherits, which the engine
      defines *)
  inherited_text : string -> string
}.
End Env.

(** [!s] on a string that may be absent. *)
Definition falsy (s : option string) : bool :=
  match s with
  | None => true
  | Some s' => String.eqb s' ""
  end.

(** [s.split(sep)] for a separator of one character. *)
Fixpoint split (sep : ascii) (s : string) : list string :=
  match s with
  | EmptyString => [EmptyString]
  | String c s' =>
      if Ascii.eqb c sep then EmptyString :: split sep s'
      else match split sep s' with
           | piece :: pieces => String c piece :: pieces
           | [] => [String c EmptyString]
           end
  end.

(** [authHeader && authHeader.split(' ')[1]] *)
Definition header_token (authHeader : option string) : option string :=
  match authHeader with
  | None => None
  | Some h => if String.eqb h "" then Some h else nth_error (split " " h) 1
  end.

(** The request interceptor of the frontend: the [Authorization] header
    for the token in the local storage. *)
Definition request_Authorization (token : option string) : option string :=
  match token with
  | Some t => if String.eqb t "" then None else Some ("Bearer " ++ t)%string
  | None => None
  end.

(** What a middleware does with a request. *)
Inductive Handled :=
| Next (user : Payload.t)
| Respond (status : Z) (body : Obj value).

Definition secret (env : Env.t) : string :=
  or_string (Env.JWT_SECRET env) "your-secret-key-change-in-production".

(** [verifyToken] of the authentication routes. *)
Definition verifyToken_auth (env : Env.t) (authorization : option string) : Handled :=
  let token := header_token authorization in
  match token with
  | Some t =>
      if falsy token
      then Respond 401 [("success", Bool false);
                        ("error", str "Access token required")]
      else match Env.jwt_verify env t (secret env) with
           | Jwt.Decoded decoded => Next decoded
           | Jwt.Throws _ =>
               Respond 403 [("success", Bool false);
                            ("error", str "Invalid or expired token")]
           end
  | None => Respond 401 [("success", Bool false);
                         ("error", str "Access token required")]
  end.

Definition demo_user : Payload.t :=
  Payload.mk (Some "507f1f77bcf86cd799439011") (Some "Demo User")
    (Some "demo@example.com").

Definition development (env : Env.t) : bool :=
  match Env.NODE_ENV env with
  | Some e => String.eqb e "development"
  | None => false
  end.

(** [verifyToken] of the routes of the generative service. *)
Definition verifyToken (env : Env.t) (authorization : option string) : Handled :=
  let token := header_token authorization in
  if falsy token && development env then Next demo_user
  else
    match token with
    | Some t =>
        if falsy token
        then Respond 401 [("success", Bool false);
                          ("error", str "Access token required")]
        else match Env.jwt_verify env t (secret env) with
             | Jwt.Decoded decoded => Next decoded
             | Jwt.Throws name =>
                 if String.eqb name "TokenExpiredError"
                 then Respond 401 [("success", Bool false);
                                   ("error", str "Token expired");
                                   ("code", str "TOKEN_EXPIRED")]
                 else if String.eqb name "JsonWebTokenError"
                 then Respond 401 [("success", Bool false);
                                   ("error", str "Invalid token");
                                   ("code", str "INVALID_TOKEN")]
                 else Respond 401 [("success", Bool false);
                                   ("error", str "Authentication failed")]
             end
    | None => Respond 401 [("success", Bool false);
                           ("error", str "Access token required")]
    end.

(** The prompt templates, in the order they are written. *)
Definition CUSTOM_PROMPTS : Obj string := [
  ("general_chat",
   "You are a helpful AI assistant. Respond conversationally and provide detailed, helpful responses.");
  ("business_plan",
   "Analyze this business idea and provide a comprehensive business plan including market analysis, SWOT analysis, target audience, marketing strategy, and financial projections.");
  ("code_review",
   "Review this code for best practices, identify bugs, security issues, suggest optimizations, and provide improved code examples.");
  ("content_strategy",
   "Create a content strategy including topics, platforms, posting schedule, engagement tactics, and performance metrics.");
  ("market_research",
   "Provide detailed market research including competitors, trends, opportunities, threats, and market size.");
  ("learning_path",
   "Create a personalized learning path with resources, milestones, projects, and assessment methods.");
  ("email_writing",
   "Write professional, clear, and effective emails for the given purpose and audience.");
  ("creative_writing",
   "Help with creative writing including stories, poems, scripts, and brainstorming ideas.");
  ("problem_solving",
   "Analyze problems systematically and provide step-by-step solutions with implementation guidance.");
  ("codeforces_analysis",
   "You are a competitive programming expert specializing in Codeforces analysis. Analyze the user's Codeforces data and provide specific, actionable recommendations including problem IDs, areas to focus on, and study plans. Structure your response with clear sections and be specific about problem recommendations.")
].

(** [CUSTOM_PROMPTS[promptType]] when it is truthy, as the text it has in a
    template. *)
Definition customPrompt (env : Env.t) (promptType : string) : option string :=
  match get promptType CUSTOM_PROMPTS with
  | Some prompt => if String.eqb prompt "" then None else Some prompt
  | None =>
      if existsb (String.eqb promptType) Object_prototype
      then Some (Env.inherited_text env promptType)
      else None
  end.

(** [generateMockResponse('general_chat', userInput)]: the entry
    [general_chat] of the responses, which is not empty. *)
Definition generateMockResponse (timestamp : string) (userInput : Utf16) : Utf16 :=
  utf16 "**Response to:** " ++ utf16 dquote
  ++ firstn 100 userInput
  ++ (if (100 <? List.length userInput)%nat then utf16 "..." else [])
  ++ utf16 dquote
  ++ utf16 (cat [
          nl; nl;
          "I understand you're asking about this topic. As your AI assistant, I would provide a detailed response here including:";
          nl; nl; "1. **Key information** related to your query"; nl;
          "2. **Actionable steps** you can take"; nl;
          "3. **Additional resources** for further learning"; nl;
          "4. **Practical examples** when applicable"; nl; nl;
          "*This is a mock response generated at "
        ])
  ++ utf16 timestamp
  ++ utf16 ". Connect a real AI API for actual responses.*".

Module AiResult.
Record t := mk {
  data : Utf16;
  tokensUsed : Z;
  mode : string
}.
End AiResult.

Definition default_systemPrompt : string :=
  "You are a helpful AI assistant specialized in providing detailed, structured responses.".

(** [content || d] on texts. *)
Definition or_text (content : option Utf16) (d : Utf16) : Utf16 :=
  match content with
  | Some (u :: content') => u :: content'
  | _ => d
  end.

(** The double nearest to 0.7. *)
Definition temperature : float := 0x1.6666666666666p-1%float.

(** [callDeepSeekAPI(fullPrompt, user, systemPrompt)] *)
Definition callDeepSeekAPI (env : Env.t) (fullPrompt : string)
  (systemPrompt : string) : AiResult.t :=
  match Env.DEEPSEEK_API_KEY env with
  | Some apiKey =>
      if falsy (Some apiKey) || String.eqb apiKey "your-deepseek-api-key-here"
      then AiResult.mk
             (generateMockResponse (Env.toLocaleString env) (utf16 fullPrompt))
             0 "mock"
      else
        match Env.axios_post env
                (ChatRequest.mk "https://api.deepseek.com/v1/chat/completions"
                   "deepseek-chat" systemPrompt fullPrompt temperature 2000
                   ("Bearer " ++ apiKey)%string 60000) with
        | ApiReply.Replied content total_tokens =>
            AiResult.mk (or_text content (utf16 "No response from AI"))
              (or_number total_tokens 0) "ai"
        | ApiReply.Failed =>
            AiResult.mk
              (generateMockResponse (Env.toLocaleString env) (utf16 fullPrompt))
              0 "error-fallback"
        end
  | None =>
      AiResult.mk
        (generateMockResponse (Env.toLocaleString env) (utf16 fullPrompt))
        0 "mock"
  end.

(** [CUSTOM_PROMPTS.codeforces_analysis] *)
Definition codeforces_systemPrompt : string :=
  match get "codeforces_analysis" CUSTOM_PROMPTS with
  | Some prompt => prompt
  | None => EmptyString
  end.

(** The identifier under which a generation is saved. *)
Definition generation_userId (user : Payload.t) : option string :=
  match Payload.userId user with
  | Some userId =>
      if negb (String.eqb userId "") && String.prefix "demo" userId
      then Some "507f1f77bcf86cd799439011"
      else Some userId
  | None => None
  end.

Definition generationId (savedGeneration : option string) : value :=
  match savedGeneration with
  | Some _id => str _id
  | None => Null
  end.

(** The body of a request to [/codeforces]. *)
Module CodeforcesBody.
Record t := mk {
  handle : option string;
  userData : option UserData.t;
  analysis : option Analysis.t
}.
End CodeforcesBody.

Definition codeforces_generation (user : Payload.t) (handle : string)
  (userData : UserData.t) (analysis : Analysis.t) (aiResult : AiResult.t)
  : Generation.t :=
  Generation.mk (generation_userId user) "codeforces_analysis"
    ("Codeforces analysis for " ++ handle)%string
    (AiResult.data aiResult) (AiResult.tokensUsed aiResult) (AiResult.mode aiResult)
    (Some (handle, UserData.rating userData, Analysis.totalProblemsSolved analysis)).

(** The route [POST /codeforces], behind [verifyToken].  With a body of
    these types nothing in the handler throws. *)
Definition codeforces_route (env : Env.t) (authorization : option string)
  (body : CodeforcesBody.t) : Z * Obj value :=
  match verifyToken env authorization with
  | Respond status body' => (status, body')
  | Next user =>
      match CodeforcesBody.handle body, CodeforcesBody.userData body,
            CodeforcesBody.analysis body with
      | Some handle, Some userData, Some analysis =>
          if String.eqb handle ""
          then (400, [("success", Bool false);
                      ("error", str "handle, userData, and analysis are required")])
          else
            let codeforcesPrompt :=
              generateCodeforcesPrompt (Env.inherited_text env)
                handle userData analysis in
            let aiResult :=
              callDeepSeekAPI env codeforcesPrompt
                codeforces_systemPrompt in
            let savedGeneration :=
              Env.save env
                (codeforces_generation user handle userData analysis aiResult) in
            (200, [("success", Bool true);
                   ("data", Str (AiResult.data aiResult));
                   ("promptType", str "codeforces_analysis");
                   ("mode", str (AiResult.mode aiResult));
                   ("tokens", Num (AiResult.tokensUsed aiResult));
                   ("generationId", generationId savedGeneration);
                   ("timestamp", str (Env.toISOString env))])
      | _, _, _ =>
          (400, [("success", Bool false);
                 ("error", str "handle, userData, and analysis are required")])
      end
  end.

(** The body of a request to [/generate]. *)
Module GenerateBody.
Record t := mk {
  promptType : option string;
  userInput : option string;
  context : option string
}.
End GenerateBody.

(** The route [POST /generate], behind [verifyToken]. *)
Definition generate_route (env : Env.t) (authorization : option string)
  (body : GenerateBody.t) : Z * Obj value :=
  match verifyToken env authorization with
  | Respond status body' => (status, body')
  | Next user =>
      match GenerateBody.promptType body, GenerateBody.userInput body with
      | Some promptType, Some userInput =>
          if String.eqb promptType "" || String.eqb userInput ""
          then (400, [("success", Bool false);
                      ("error", str "promptType and userInput are required")])
          else
            match customPrompt env promptType with
            | None =>
                (400, [("success", Bool false);
                       ("error",
                        str ("Invalid prompt type. Available types: "
                             ++ join ", " (Object_keys CUSTOM_PROMPTS)))])
            | Some customPrompt =>
                let context := or_string (GenerateBody.context body) "" in
                let fullPrompt :=
                  if String.eqb context ""
                  then cat [customPrompt; nl; nl; "User Input: "; userInput]
                  else cat [context; nl; customPrompt; nl; nl;
                            "User Input: "; userInput] in
                let aiResult := callDeepSeekAPI env fullPrompt default_systemPrompt in
                let savedGeneration :=
                  Env.save env
                    (Generation.mk (generation_userId user) promptType userInput
                       (AiResult.data aiResult) (AiResult.tokensUsed aiResult)
                       (AiResult.mode aiResult) None) in
                (200, [("success", Bool true);
                       ("data", Str (AiResult.data aiResult));
                       ("promptType", str promptType);
                       ("mode", str (AiResult.mode aiResult));
                       ("tokens", Num (AiResult.tokensUsed aiResult));
                       ("generationId", generationId savedGeneration);
                       ("timestamp", str (Env.toISOString env))])
            end
      | _, _ =>
          (400, [("success", Bool false);
                 ("error", str "promptType and userInput are required")])
      end
  end.

(** ** The client of the generative service ([deepseekAPI], frontend) *)

(** What comes of a request of the frontend: an answer of the server, or
    none. *)
Inductive Http :=
| Answer (status : Z) (body : Obj value)
| NoAnswer.

(** A call of [deepseekAPI.generate] returns the body of an answer or
    throws one. *)
Inductive Outcome :=
| Returns (data : Obj value)
| ThrowsBody (data : Obj value).

(** [deepseekAPI.generate]: the HTTP client takes an answer with a status
    from 200 to 299 for a success. *)
Definition deepseekAPI_generate (http : Http) : Outcome :=
  match http with
  | Answer status body =>
      if (200 <=? status) && (status <? 300) then Returns body
      else ThrowsBody body
  | NoAnswer => ThrowsBody [("error", str "Generation failed")]
  end.

(** The call of the chat page, served by the route. *)
Definition generate_call (env : Env.t) (token : option string)
  (promptType userInput : string) : Outcome :=
  let '(status, body) :=
    generate_route env (request_Authorization token)
      (GenerateBody.mk (Some promptType) (Some userInput) None) in
  deepseekAPI_generate (Answer status body).

(** No character of [s] is a space. *)
Definition no_space (s : string) : bool :=
  forallb (fun c => negb (Ascii.eqb c " ")) (list_ascii_of_string s).

(** The key of the generative service, when the process has one that is
    not the placeholder. *)
Definition usable_key (env : Env.t) : option string :=
  match Env.DEEPSEEK_API_KEY env with
  | Some apiKey =>
      if falsy (Some apiKey) || String.eqb apiKey "your-deepseek-api-key-here"
      then None else Some apiKey
  | None => None
  end.

(** The environment with another generative service. *)
Definition with_post (env : Env.t) (post : ChatRequest.t -> ApiReply.t) : Env.t :=
  Env.mk (Env.NODE_ENV env) (Env.JWT_SECRET env) (Env.DEEPSEEK_API_KEY env)
    (Env.jwt_verify env) post (Env.save env) (Env.toISOString env)
    (Env.toLocaleString env) (Env.inherited_text env).

(** The request that [callDeepSeekAPI] sends. *)
Definition chat_request (apiKey fullPrompt systemPrompt : string) : ChatRequest.t :=
  ChatRequest.mk "https://api.deepseek.com/v1/chat/completions"
    "deepseek-chat" systemPrompt fullPrompt temperature 2000
    ("Bearer " ++ apiKey)%string 60000.

(** The dictionary has an entry under [k]. *)
Definition has_entry {V : Type} (k : string) (o : Obj V) : Prop :=
  exists v, get k o = Some v.

(** A problem whose tags changed between a failed and an accepted
    submission. *)
Definition retagged_example : list Submission.t :=
  [submission 1 "A" ["greedy"] (Some 1200) "WRONG_ANSWER" "C++" 10;
   submission 1 "A" ["dp"] (Some 1200) "OK" "C++" 20].

(** ** The age of a conversation in the side bar ([formatTime], frontend)

    [now] and [date] are times in milliseconds; [date] is absent when the
    timestamp is not a date, and then every comparison fails.  The text of
    [toLocaleDateString] depends on the locale and is a parameter. *)
Definition formatTime (toLocaleDateString : option Z -> string) (now : Z)
  (date : option Z) : string :=
  match date with
  | Some d =>
      let diffMs := now - d in
      let diffMins := diffMs / 60000 in
      let diffHours := diffMs / 3600000 in
      let diffDays := diffMs / 86400000 in
      if diffMins <? 60 then (num diffMins ++ "m ago")%string
      else if diffHours <? 24 then (num diffHours ++ "h ago")%string
      else if diffDays <? 7 then (num diffDays ++ "d ago")%string
      else toLocaleDateString date
  | None => toLocaleDateString date
  end.

(** *** Sample states and environments *)

Definition ask : Message.t := Message.mk "1" "user" (utf16 "cf tourist") "t1".

Definition chat_example : Chat.t :=
  Chat.mk [welcome "t0"; ask] (Some "17")
    [Conversation.mk (Some "16") (utf16 "first") [] "t";
     Conversation.mk (Some "17") (utf16 "stale") [] "t"]
    None None false None.

Definition ann : Payload.t :=
  Payload.mk (Some "65a1") (Some "Ann") (Some "ann@example.com").

(** A process with a key for a generative service that is out of reach, a
    token library that knows one good and one expired token, and a database
    that cannot be written. *)
Definition env_example : Env.t :=
  Env.mk (Some "production") None (Some "sk-live")
    (fun token _ =>
       if String.eqb token "good" then Jwt.Decoded ann
       else if String.eqb token "old" then Jwt.Throws "TokenExpiredError"
       else Jwt.Throws "JsonWebTokenError")
    (fun _ => ApiReply.Failed)
    (fun _ => None)
    "2024-01-01T00:00:00.000Z"
    "1/1/2024, 12:00:00 AM"
    v8_text.

Definition body_example : CodeforcesBody.t :=
  CodeforcesBody.mk (Some "alice") (Some alice)
    (Some (analyzeSubmissions order_example)).

(** ** Facts about the runtime model *)

Section ObjFacts.
Context {V : Type}.
Implicit Types (o : Obj V) (k : string) (v : V).

Lemma get_set_eq k v o : get k (set k v o) = Some v.
Proof.
  induction o as [|[k' v'] o IH]; simpl.
  - now rewrite String.eqb_refl.
  - destruct (String.eqb_spec k k') as [->|Hne]; simpl.
    + now rewrite String.eqb_refl.
    + destruct (String.eqb_spec k k'); [contradiction|exact IH].
Qed.

Lemma get_set_neq k k' v o : k <> k' -> get k (set k' v o) = get k o.
Proof.
  intros Hne. induction o as [|[k2 v2] o IH]; simpl.
  - destruct (String.eqb_spec k k'); [contradiction|reflexivity].
  - destruct (String.eqb_spec k' k2) as [->|Hne2]; simpl.
    + destruct (String.eqb_spec k k2); [contradiction|reflexivity].
    + now rewrite IH.
Qed.

Lemma get_set k k' v o :
  get k (set k' v o) = if String.eqb k k' then Some v else get k o.
Proof.
  destruct (String.eqb_spec k k') as [->|Hne].
  - apply get_set_eq.
  - now apply get_set_neq.
Qed.

Lemma get_None_keys k o : get k o = None <-> ~ In k (map fst o).
Proof.
  induction o as [|[k' v'] o IH]; simpl.
  - tauto.
  - destruct (String.eqb_spec k k') as [->|Hne].
    + split; [discriminate|intros H; exfalso; apply H; now left].
    + rewrite IH. split; intros H; [intros [E|E]; [congruence|tauto]|tauto].
Qed.

Lemma get_Some_In k v o : get k o = Some v -> In (k, v) o.
Proof.
  induction o as [|[k' v'] o IH]; simpl; [discriminate|].
  destruct (String.eqb_spec k k') as [->|Hne].
  - intros [= ->]. now left.
  - intros H. right. now apply IH.
Qed.

Lemma In_get k v o : NoDup (map fst o) -> In (k, v) o -> get k o = Some v.
Proof.
  induction o as [|[k' v'] o IH]; simpl; [tauto|].
  intros Hnd [E|Hin]; inversion Hnd as [|? ? Hnot Hnd']; subst.
  - inversion E; subst. now rewrite String.eqb_refl.
  - destruct (String.eqb_spec k k') as [->|Hne].
    + exfalso. apply Hnot. change k' with (fst (k', v)). now apply in_map.
    + now apply IH.
Qed.

(** A new key is created last; an existing one keeps its place. *)
Lemma keys_set k v o :
  map fst (set k v o) =
  match get k o with
  | Some _ => map fst o
  | None => map fst o ++ [k]
  end.
Proof.
  induction o as [|[k' v'] o IH]; simpl; [reflexivity|].
  destruct (String.eqb_spec k k') as [->|Hne]; simpl; [reflexivity|].
  rewrite IH. now destruct (get k o).
Qed.

Lemma NoDup_keys_set k v o :
  NoDup (map fst o) -> NoDup (map fst (set k v o)).
Proof.
  intros Hnd. rewrite keys_set. destruct (get k o) eqn:E; [exact Hnd|].
  apply get_None_keys in E.
  apply NoDup_rev in Hnd. rewrite <- (rev_involutive (_ ++ _)).
  apply NoDup_rev. rewrite rev_app_distr. simpl.
  constructor; [now rewrite <- in_rev|exact Hnd].
Qed.

(** Two dictionaries with the same lookups hold the same properties, up
    to the order of creation. *)
Lemma same_get_Permutation o o' :
  NoDup (map fst o) -> NoDup (map fst o') ->
  (forall k, get k o = get k o') -> Permutation o o'.
Proof.
  intros Hnd Hnd' Hget.
  assert (Hnd1 : NoDup o) by (eapply NoDup_map_inv; exact Hnd).
  assert (Hnd2 : NoDup o') by (eapply NoDup_map_inv; exact Hnd').
  apply NoDup_Permutation; try assumption.
  intros [k v]. split; intros Hin.
  - apply get_Some_In. rewrite <- Hget. now apply In_get.
  - apply get_Some_In. rewrite Hget. now apply In_get.
Qed.
End ObjFacts.

(** *** The stable sort *)

Section SortFacts.
Context {A : Type} (cmp : A -> A -> Z).

Lemma sort_insert_Permutation x l : Permutation (sort_insert cmp x l) (x :: l).
Proof.
  induction l as [|y l IH]; simpl; [reflexivity|].
  destruct (cmp x y <=? 0); [reflexivity|].
  rewrite IH. apply perm_swap.
Qed.

Lemma Array_sort_Permutation l : Permutation (Array_sort cmp l) l.
Proof.
  induction l as [|x l IH]; simpl; [reflexivity|].
  rewrite sort_insert_Permutation. now constructor.
Qed.

(** Only the comparisons between members of the array matter. *)
Lemma sort_insert_ext (cmp' : A -> A -> Z) x l :
  (forall y, In y l -> cmp x y = cmp' x y) ->
  sort_insert cmp x l = sort_insert cmp' x l.
Proof.
  induction l as [|y l IH]; simpl; intros H; [reflexivity|].
  rewrite <- (H y) by now left.
  destruct (cmp x y <=? 0); [reflexivity|].
  f_equal. apply IH. intros z Hz. apply H. now right.
Qed.

Lemma Array_sort_ext (cmp' : A -> A -> Z) l :
  (forall x y, In x l -> In y l -> cmp x y = cmp' x y) ->
  Array_sort cmp l = Array_sort cmp' l.
Proof.
  induction l as [|x l IH]; simpl; intros H; [reflexivity|].
  rewrite <- IH by (intros; apply H; now right).
  apply sort_insert_ext. intros y Hy. apply H; [now left|right].
  eapply Permutation_in; [apply Array_sort_Permutation|exact Hy].
Qed.

(** The comparator is the difference of a numeric sort key. *)
Variable key : A -> Z.
Hypothesis cmp_key : forall a b, cmp a b = key a - key b.

Lemma sort_insert_sorted x l :
  StronglySorted (fun a b => key a <= key b) l ->
  StronglySorted (fun a b => key a <= key b) (sort_insert cmp x l).
Proof.
  induction 1 as [|y l Hs IH Hall]; simpl.
  - repeat constructor.
  - rewrite cmp_key. destruct (Z.leb_spec (key x - key y) 0) as [Hle|Hgt].
    + constructor; [now constructor|].
      constructor; [lia|].
      eapply Forall_impl; [|exact Hall]. simpl. intros; lia.
    + constructor; [exact IH|].
      eapply Permutation_Forall;
        [symmetry; apply sort_insert_Permutation|].
      constructor; [lia|exact Hall].
Qed.

Lemma Array_sort_sorted l :
  StronglySorted (fun a b => key a <= key b) (Array_sort cmp l).
Proof.
  induction l as [|x l IH]; simpl; [constructor|].
  now apply sort_insert_sorted.
Qed.

(** Stability: the members with one value of the sort key keep the order
    they had in the input. *)
Lemma sort_insert_stable c x l :
  StronglySorted (fun a b => key a <= key b) l ->
  filter (fun e => key e =? c) (sort_insert cmp x l) =
  filter (fun e => key e =? c) (x :: l).
Proof.
  induction 1 as [|y l Hs IH Hall]; simpl; [reflexivity|].
  rewrite cmp_key. destruct (Z.leb_spec (key x - key y) 0) as [Hle|Hgt].
  - reflexivity.
  - simpl. rewrite IH. simpl.
    destruct (Z.eqb_spec (key x) c), (Z.eqb_spec (key y) c);
      try reflexivity; lia.
Qed.

Lemma Array_sort_stable c l :
  filter (fun e => key e =? c) (Array_sort cmp l) =
  filter (fun e => key e =? c) l.
Proof.
  induction l as [|x l IH]; simpl; [reflexivity|].
  rewrite sort_insert_stable by apply Array_sort_sorted.
  simpl. now rewrite IH.
Qed.
End SortFacts.

(** A list sorted on an injective key is determined by its members. *)
Lemma sorted_Permutation_eq {A : Type} (key : A -> Z) (l l' : list A) :
  (forall a b, In a l -> In b l -> key a = key b -> a = b) ->
  StronglySorted (fun a b => key a <= key b) l ->
  StronglySorted (fun a b => key a <= key b) l' ->
  Permutation l l' -> l = l'.
Proof.
  revert l'. induction l as [|x l IH]; intros l' Hinj Hs Hs' Hp.
  - apply Permutation_nil in Hp. now subst.
  - destruct l' as [|y l'].
    + apply Permutation_sym, Permutation_nil in Hp. discriminate.
    + inversion Hs as [|? ? Hs1 Hx]; subst.
      inversion Hs' as [|? ? Hs1' Hy]; subst.
      rewrite Forall_forall in Hx, Hy.
      assert (Hxy : x = y).
      { assert (Hyl : In y (x :: l))
          by (eapply Permutation_in; [symmetry; exact Hp|now left]).
        assert (Hxl : In x (y :: l'))
          by (eapply Permutation_in; [exact Hp|now left]).
        destruct Hyl as [E|Hyl]; [exact E|].
        destruct Hxl as [E|Hxl]; [now symmetry|].
        apply Hinj; [now left|now right|].
        specialize (Hx _ Hyl). specialize (Hy _ Hxl). lia. }
      subst y. f_equal. apply IH; try assumption.
      * intros a b Ha Hb. apply Hinj; now right.
      * eapply Permutation_cons_inv. exact Hp.
Qed.

Section EntriesFacts.
Context {V : Type}.

Lemma Object_entries_Permutation (o : Obj V) : Permutation (Object_entries o) o.
Proof.
  unfold Object_entries. rewrite Array_sort_Permutation.
  induction o as [|e o IH]; simpl; [reflexivity|].
  destruct (is_index e); simpl.
  - now constructor.
  - rewrite <- Permutation_middle. now constructor.
Qed.

(** Without array-index keys the enumeration order is the creation order. *)
Lemma Object_entries_no_index (o : Obj V) :
  (forall e, In e o -> array_index (fst e) = None) -> Object_entries o = o.
Proof.
  intros H. unfold Object_entries.
  assert (Hf : forall e, In e o -> is_index e = false).
  { intros e He. unfold is_index. now rewrite (H e He). }
  clear H.
  assert (H12 : filter is_index o = [] /\
                filter (fun e => negb (is_index e)) o = o).
  { induction o as [|e o IH]; simpl; [now split|].
    rewrite (Hf e) by now left. simpl.
    destruct IH as [H1 H2]; [intros; apply Hf; now right|].
    split; [exact H1|now f_equal]. }
  destruct H12 as [H1 H2]. now rewrite H1, H2.
Qed.
End EntriesFacts.

Lemma NoDup_snoc {A : Type} (x : A) l : NoDup l -> ~ In x l -> NoDup (l ++ [x]).
Proof.
  intros Hnd Hx. apply NoDup_rev in Hnd. rewrite <- (rev_involutive (_ ++ _)).
  apply NoDup_rev. rewrite rev_app_distr. simpl.
  constructor; [now rewrite <- in_rev|exact Hnd].
Qed.

Lemma existsb_eqb_In k ks : existsb (String.eqb k) ks = true <-> In k ks.
Proof.
  rewrite existsb_exists. split.
  - intros [x [Hin E]]. apply String.eqb_eq in E. now subst.
  - intros H. exists k. split; [exact H|apply String.eqb_refl].
Qed.

Section FirstByFacts.
Context {A : Type} (key : A -> string).
Local Abbreviation has_key := (has_key key).
Local Abbreviation first_by := (first_by key).

Lemma has_key_true k a : has_key k a = true <-> key a = k.
Proof. apply String.eqb_eq. Qed.

Lemma has_key_false k a : has_key k a = false <-> key a <> k.
Proof. apply String.eqb_neq. Qed.

Lemma first_by_In a l : In a (first_by l) -> In a l.
Proof.
  induction l as [|x l IH]; simpl; [tauto|].
  intros [E|H]; [now left|]. apply filter_In in H. right. now apply IH.
Qed.

Lemma first_by_snoc l a :
  first_by (l ++ [a]) =
  first_by l ++ (if existsb (has_key (key a)) l then [] else [a]).
Proof.
  induction l as [|x l IH]; simpl; [reflexivity|].
  rewrite IH, filter_app. f_equal. f_equal.
  destruct (has_key (key a) x) eqn:Ex; simpl.
  - apply has_key_true in Ex.
    destruct (existsb _ l); simpl; [reflexivity|].
    replace (has_key (key x) a) with true; [reflexivity|].
    symmetry. now apply has_key_true.
  - apply has_key_false in Ex.
    destruct (existsb _ l); simpl; [reflexivity|].
    replace (has_key (key x) a) with false; [reflexivity|].
    symmetry. apply has_key_false. congruence.
Qed.

Lemma existsb_first_by k l :
  existsb (String.eqb k) (map key (first_by l)) = existsb (has_key k) l.
Proof.
  induction l as [|a l IH] using rev_ind; [reflexivity|].
  rewrite first_by_snoc, map_app, !existsb_app, IH. simpl.
  destruct (existsb (has_key (key a)) l) eqn:E; simpl.
  - destruct (has_key k a) eqn:Ea; [|reflexivity].
    apply has_key_true in Ea. subst k. now rewrite E.
  - f_equal. f_equal. apply String.eqb_sym.
Qed.

Lemma existsb_has_key_In k l :
  existsb (has_key k) l = true <-> In k (map key l).
Proof.
  rewrite existsb_exists, in_map_iff.
  split; intros [x [H1 H2]]; exists x.
  - apply has_key_true in H2. tauto.
  - subst k. split; [exact H2|now apply has_key_true].
Qed.

(** The chosen members have pairwise different keys, and every key of the
    list has one. *)
Lemma first_by_NoDup l : NoDup (map key (first_by l)).
Proof.
  induction l as [|a l IH] using rev_ind; [constructor|].
  rewrite first_by_snoc, map_app.
  destruct (existsb (has_key (key a)) l) eqn:E; simpl.
  - now rewrite app_nil_r.
  - apply NoDup_snoc; [exact IH|].
    rewrite <- existsb_eqb_In, existsb_first_by, E. discriminate.
Qed.

Lemma first_by_keys k l : In k (map key (first_by l)) <-> In k (map key l).
Proof.
  now rewrite <- existsb_eqb_In, existsb_first_by, existsb_has_key_In.
Qed.
End FirstByFacts.

Lemma forEach_snoc l s : forEach (l ++ [s]) = forEach_body (forEach l) s.
Proof. unfold forEach. now rewrite fold_left_app. Qed.

Lemma first_accepted_snoc l s :
  first_accepted (l ++ [s]) =
  first_accepted l ++ (if first_ok l s then [s] else []).
Proof.
  unfold first_accepted, first_per_problem, first_ok. rewrite filter_app. simpl.
  destruct (accepted s); simpl.
  - rewrite first_by_snoc. fold same_problem.
    now destruct (existsb _ (filter accepted l)).
  - now rewrite !app_nil_r.
Qed.

(** *** Counters *)

Lemma totalAttempts_spec l :
  Vars.totalAttempts (forEach l) = Z.of_nat (List.length l).
Proof.
  induction l as [|s l IH] using rev_ind; [reflexivity|].
  rewrite forEach_snoc, length_app. cbn. rewrite IH. lia.
Qed.

Lemma totalAccepted_spec l :
  Vars.totalAccepted (forEach l) = Z.of_nat (List.length (filter accepted l)).
Proof.
  induction l as [|s l IH] using rev_ind; [reflexivity|].
  rewrite forEach_snoc, filter_app, length_app. cbn.
  destruct (accepted s); cbn; rewrite IH; lia.
Qed.

(** *** Dictionaries of counts *)

Lemma sumZ_app l1 l2 : sumZ (l1 ++ l2) = sumZ l1 + sumZ l2.
Proof. induction l1; simpl; lia. Qed.

Lemma inherited_In k : inherited k = true <-> In k Object_prototype.
Proof. apply existsb_eqb_In. Qed.

Lemma not_inherited_proto k : inherited k = false -> String.eqb k "__proto__" = false.
Proof.
  intros H. destruct (String.eqb_spec k "__proto__") as [->|]; [discriminate H|reflexivity].
Qed.

Lemma get_assign k x v (o : Obj tally) :
  get k (assign x v o) =
  if String.eqb k x
  then match get x o with
       | Some _ => Some v
       | None => if String.eqb x "__proto__" then None else Some v
       end
  else get k o.
Proof.
  unfold assign. destruct (get x o) eqn:E.
  - rewrite get_set. destruct (String.eqb_spec k x); reflexivity.
  - destruct (String.eqb x "__proto__") eqn:P.
    + destruct (String.eqb_spec k x) as [->|]; [exact E|reflexivity].
    + rewrite get_set. destruct (String.eqb_spec k x); reflexivity.
Qed.

Lemma keys_assign x v (o : Obj tally) :
  map fst (assign x v o) =
  match get x o with
  | Some _ => map fst o
  | None => if String.eqb x "__proto__" then map fst o else map fst o ++ [x]
  end.
Proof.
  unfold assign. destruct (get x o) eqn:E.
  - now rewrite keys_set, E.
  - destruct (String.eqb x "__proto__"); [reflexivity|]. now rewrite keys_set, E.
Qed.

Lemma tally_of_snoc keys k : tally_of (keys ++ [k]) = incr k (tally_of keys).
Proof. unfold tally_of. now rewrite fold_left_app. Qed.

Lemma tally_of_app keys ts :
  tally_of (keys ++ ts) = count_tags (Some ts) (tally_of keys).
Proof. unfold tally_of. simpl. now rewrite fold_left_app. Qed.

Lemma count_occ_snoc keys x k :
  count_occ string_dec (keys ++ [x]) k =
  (count_occ string_dec keys k + if String.eqb k x then 1 else 0)%nat.
Proof.
  rewrite count_occ_app. simpl. destruct (string_dec x k) as [->|Hne].
  - now rewrite String.eqb_refl.
  - destruct (String.eqb_spec k x); [congruence|reflexivity].
Qed.

(** What the counting leaves under every key. *)
Lemma get_tally_of k keys :
  get k (tally_of keys) = stored k (count_occ string_dec keys k).
Proof.
  induction keys as [|x keys IH] using rev_ind.
  - unfold stored. simpl. now destruct (String.eqb k "__proto__").
  - rewrite tally_of_snoc, count_occ_snoc. unfold incr. rewrite get_assign.
    destruct (String.eqb_spec k x) as [<-|Hne]; [|now rewrite Nat.add_0_r].
    unfold get0. rewrite IH. unfold stored.
    destruct (String.eqb k "__proto__") eqn:P; [reflexivity|].
    destruct (count_occ string_dec keys k) as [|n]; simpl.
    + destruct (inherited k); reflexivity.
    + rewrite Nat.add_1_r. destruct (inherited k); simpl; [reflexivity|].
      do 2 f_equal. lia.
Qed.

Lemma get0_tally_of k keys :
  inherited k = false ->
  get0 k (tally_of keys) = Count (Z.of_nat (count_occ string_dec keys k)).
Proof.
  intros H. unfold get0. rewrite get_tally_of. unfold stored.
  rewrite (not_inherited_proto k H), H.
  now destruct (count_occ string_dec keys k).
Qed.

Lemma first_seen_In k L : In k (first_seen L) <-> In k L.
Proof.
  pose proof (first_by_keys (fun k => k) k L) as H.
  now rewrite !map_id in H.
Qed.

Lemma existsb_first_seen k L :
  existsb (has_key (fun k => k) k) L = true <-> In k L.
Proof. rewrite existsb_has_key_In. now rewrite map_id. Qed.

Lemma first_seen_NoDup L : NoDup (first_seen L).
Proof.
  unfold first_seen. rewrite <- (map_id (first_by _ L)).
  apply (first_by_NoDup (fun k => k)).
Qed.

(** The properties are created in the order in which the keys are first
    counted; [__proto__] never becomes one. *)
Lemma tally_of_keys keys :
  map fst (tally_of keys) =
  first_seen (filter (fun k => negb (String.eqb k "__proto__")) keys).
Proof.
  induction keys as [|x keys IH] using rev_ind; [reflexivity|].
  rewrite tally_of_snoc, filter_app. unfold incr.
  rewrite keys_assign, get_tally_of. simpl. unfold stored.
  destruct (String.eqb x "__proto__") eqn:P; simpl.
  - now rewrite app_nil_r.
  - unfold first_seen. rewrite first_by_snoc. fold first_seen. rewrite IH.
    destruct (count_occ string_dec keys x) as [|n] eqn:C.
    + destruct (existsb _ _) eqn:E; [|reflexivity].
      apply existsb_first_seen, filter_In in E. destruct E as [E _].
      apply (count_occ_In string_dec) in E. lia.
    + assert (E : In x (filter (fun k => negb (String.eqb k "__proto__")) keys)).
      { apply filter_In. split; [|now rewrite P].
        apply (count_occ_In string_dec). lia. }
      apply existsb_first_seen in E. rewrite E. now rewrite app_nil_r.
Qed.

Lemma tally_of_NoDup keys : NoDup (map fst (tally_of keys)).
Proof. rewrite tally_of_keys. apply first_seen_NoDup. Qed.

Lemma plain_no_proto keys :
  plain keys -> filter (fun k => negb (String.eqb k "__proto__")) keys = keys.
Proof.
  induction 1 as [|k keys Hk _ IH]; [reflexivity|]. simpl.
  now rewrite (not_inherited_proto k Hk), IH.
Qed.

Lemma plain_tally_of_keys keys :
  plain keys -> map fst (tally_of keys) = first_seen keys.
Proof. intros H. now rewrite tally_of_keys, plain_no_proto. Qed.

(** Under keys that name no inherited member every entry is a number, at
    least one. *)
Lemma plain_tally_of_entries keys e :
  plain keys -> In e (tally_of keys) ->
  snd e = Count (Z.of_nat (count_occ string_dec keys (fst e))) /\
  In (fst e) keys.
Proof.
  intros Hp Hin. destruct e as [k v]. simpl.
  assert (Hk : In k keys).
  { apply (in_map fst) in Hin. rewrite (plain_tally_of_keys keys Hp) in Hin.
    exact (proj1 (first_seen_In _ _) Hin). }
  split; [|exact Hk].
  apply (In_get _ _ _ (tally_of_NoDup keys)) in Hin.
  unfold plain in Hp. rewrite Forall_forall in Hp.
  pose proof (get0_tally_of k keys (Hp k Hk)) as H0.
  unfold get0 in H0. now rewrite Hin in H0.
Qed.

Lemma tally_of_Permutation k keys keys' :
  Permutation keys keys' -> get k (tally_of keys) = get k (tally_of keys').
Proof.
  intros Hp. rewrite !get_tally_of.
  now rewrite (proj1 (Permutation_count_occ string_dec keys keys') Hp k).
Qed.

Lemma total_count_set k v (o : Obj tally) :
  total_count (set k v o) =
  total_count o
  - match get k o with Some v0 => weight v0 | None => 0 end + weight v.
Proof.
  unfold total_count. induction o as [|[k' v'] o IH]; simpl; [lia|].
  destruct (String.eqb_spec k k') as [->|Hne]; simpl; [lia|].
  rewrite IH. lia.
Qed.

(** The numbers of the dictionary add up to the number of keys counted that
    name no inherited member. *)
Lemma total_count_tally_of keys :
  total_count (tally_of keys) =
  Z.of_nat (List.length (filter (fun k => negb (inherited k)) keys)).
Proof.
  induction keys as [|x keys IH] using rev_ind; [reflexivity|].
  rewrite tally_of_snoc, filter_app, length_app, Nat2Z.inj_add, <- IH.
  unfold incr, assign, get0. rewrite get_tally_of. unfold stored.
  destruct (String.eqb_spec x "__proto__") as [->|Hne].
  { change (inherited "__proto__") with true. simpl. lia. }
  destruct (count_occ string_dec keys x) as [|n] eqn:C;
    rewrite total_count_set, get_tally_of, C; unfold stored;
    (destruct (String.eqb_spec x "__proto__"); [contradiction|]);
    destruct (inherited x) eqn:I; unfold weight; simpl; rewrite ?I; simpl; lia.
Qed.

Lemma count_occ_tag_total t ss :
  Z.of_nat (count_occ string_dec (flat_map submission_tags ss) t) =
  tag_total t ss.
Proof.
  unfold tag_total, count_tag. induction ss as [|s ss IH]; [reflexivity|].
  simpl. rewrite count_occ_app, Nat2Z.inj_add, IH. reflexivity.
Qed.

Lemma count_occ_count_by (f : Submission.t -> string) k l :
  Z.of_nat (count_occ string_dec (map f l) k) = count_by f k l.
Proof.
  unfold count_by. induction l as [|s l IH]; [reflexivity|]. simpl.
  destruct (string_dec (f s) k) as [->|Hne].
  - rewrite String.eqb_refl. simpl. lia.
  - destruct (String.eqb_spec (f s) k); [contradiction|exact IH].
Qed.

(** *** The set of solved problems, and what is counted for each *)

Lemma solvedProblems_spec l :
  Vars.solvedProblems (forEach l) = map problemKey (first_accepted l).
Proof.
  induction l as [|s l IH] using rev_ind; [reflexivity|].
  rewrite forEach_snoc, first_accepted_snoc, map_app.
  unfold forEach_body; cbn [Vars.solvedProblems].
  rewrite IH. unfold Set_add, Set_has, first_ok.
  unfold first_accepted, first_per_problem.
  rewrite existsb_first_by. fold same_problem.
  destruct (accepted s); simpl; [|now rewrite app_nil_r].
  destruct (existsb _ (filter accepted l)); simpl; [now rewrite app_nil_r|].
  reflexivity.
Qed.

Lemma loop_first_ok l s :
  accepted s && negb (Set_has (problemKey s) (Vars.solvedProblems (forEach l)))
  = first_ok l s.
Proof.
  rewrite solvedProblems_spec. unfold Set_has, first_ok.
  unfold first_accepted, first_per_problem. now rewrite existsb_first_by.
Qed.

Lemma solvedByTag_snoc l s :
  Vars.solvedByTag (forEach (l ++ [s])) =
  if first_ok l s
  then count_tags (Problem.tags (Submission.problem s)) (Vars.solvedByTag (forEach l))
  else Vars.solvedByTag (forEach l).
Proof.
  rewrite forEach_snoc. unfold forEach_body; cbn [Vars.solvedByTag].
  now rewrite loop_first_ok.
Qed.

Lemma solvedByRating_snoc l s :
  Vars.solvedByRating (forEach (l ++ [s])) =
  if first_ok l s
  then count_rating (submission_rating s) (Vars.solvedByRating (forEach l))
  else Vars.solvedByRating (forEach l).
Proof.
  rewrite forEach_snoc. unfold forEach_body; cbn [Vars.solvedByRating].
  now rewrite loop_first_ok.
Qed.

Lemma count_tags_submission_tags s o :
  count_tags (Problem.tags (Submission.problem s)) o =
  count_tags (Some (submission_tags s)) o.
Proof. unfold submission_tags. now destruct (Problem.tags _). Qed.

(** [solvedByTag] counts the tags of the solved problems, each problem at
    its first accepted submission. *)
Lemma solvedByTag_tally l :
  Vars.solvedByTag (forEach l) = tally_of (solved_tags l).
Proof.
  unfold solved_tags.
  induction l as [|s l IH] using rev_ind; [reflexivity|].
  rewrite solvedByTag_snoc, first_accepted_snoc, flat_map_app, IH.
  destruct (first_ok l s); simpl.
  - now rewrite count_tags_submission_tags, app_nil_r, tally_of_app.
  - now rewrite app_nil_r.
Qed.

Lemma solvedByTag_spec t l :
  inherited t = false ->
  get0 t (Vars.solvedByTag (forEach l)) = Count (tag_total t (first_accepted l)).
Proof.
  intros H. rewrite solvedByTag_tally, (get0_tally_of t _ H).
  unfold solved_tags. now rewrite count_occ_tag_total.
Qed.

(** The properties of [solvedByTag] were created in the order in which the
    tags were first seen on solved problems. *)
Lemma solvedByTag_keys l :
  plain (solved_tags l) ->
  map fst (Vars.solvedByTag (forEach l)) = first_seen (solved_tags l).
Proof. intros H. rewrite solvedByTag_tally. now apply plain_tally_of_keys. Qed.

Lemma solvedByTag_NoDup l : NoDup (map fst (Vars.solvedByTag (forEach l))).
Proof. rewrite solvedByTag_tally. apply tally_of_NoDup. Qed.

(** *** Ratings *)

Lemma Number_toString_inj z z' : Number_toString z = Number_toString z' -> z = z'.
Proof.
  unfold Number_toString. intros H. apply DecimalZ.to_int_inj.
  assert (H' : Some (Z.to_int z) = Some (Z.to_int z'))
    by (rewrite <- !NilEmpty.isi; now rewrite H).
  now inversion H'.
Qed.

Lemma sumZ_set k v (o : Obj Z) :
  sumZ (map snd (set k v o)) =
  sumZ (map snd o) - match get k o with Some c => c | None => 0 end + v.
Proof.
  induction o as [|[k1 v1] o IH]; simpl; [lia|].
  destruct (String.eqb_spec k k1) as [->|Hne]; simpl; [lia|].
  rewrite IH. lia.
Qed.

Lemma Forall_keys_set {V : Type} (P : string -> Prop) k (v : V) (o : Obj V) :
  P k -> Forall P (map fst o) -> Forall P (map fst (set k v o)).
Proof.
  intros Hk Ho. rewrite keys_set.
  destruct (get k o); [exact Ho|].
  apply Forall_app. split; [exact Ho|now constructor].
Qed.

Lemma positive_counts_set k v o :
  positive_counts o -> 1 <= v -> positive_counts (set k v o).
Proof.
  intros H Hv k' v'. rewrite get_set.
  destruct (String.eqb k' k); [now intros [= <-]|apply H].
Qed.

Lemma rating_count_nonneg r o : positive_counts o -> 0 <= rating_count r o.
Proof.
  intros H. unfold rating_count.
  destruct (get (Number_toString r) o) eqn:E; [|lia].
  specialize (H _ _ E). lia.
Qed.

Lemma sumZ_count_rating rt o :
  sumZ (map snd (count_rating rt o)) =
  sumZ (map snd o) + (if truthy rt then 1 else 0).
Proof.
  unfold count_rating. destruct rt as [r|]; simpl; [|lia].
  destruct (negb (r =? 0)); [|lia].
  rewrite sumZ_set. unfold rating_count. lia.
Qed.

Lemma rating_count_count_rating r rt o :
  r <> 0 ->
  rating_count r (count_rating rt o) =
  rating_count r o +
  (match rt with Some r' => if r' =? r then 1 else 0 | None => 0 end).
Proof.
  intros Hr. unfold count_rating. destruct rt as [r'|]; simpl; [|lia].
  destruct (Z.eqb_spec r' 0) as [->|Hne]; simpl.
  - destruct r; [congruence|lia|lia].
  - unfold rating_count at 1. rewrite get_set.
    destruct (Z.eqb_spec r' r) as [->|Hne'].
    + now rewrite String.eqb_refl.
    + destruct (String.eqb_spec (Number_toString r) (Number_toString r'))
        as [E|_]; [|unfold rating_count; lia].
      apply Number_toString_inj in E. congruence.
Qed.

(** The values of [solvedByRating] add up to the number of solved problems
    whose first accepted submission carries a rating. *)
Lemma solvedByRating_sum l :
  sumZ (map snd (Vars.solvedByRating (forEach l))) =
  Z.of_nat (List.length (filter rated (first_accepted l))).
Proof.
  induction l as [|s l IH] using rev_ind; [reflexivity|].
  rewrite solvedByRating_snoc, first_accepted_snoc, filter_app, length_app.
  destruct (first_ok l s); simpl.
  - rewrite sumZ_count_rating, IH. unfold rated.
    destruct (truthy (submission_rating s)); simpl; lia.
  - rewrite IH. lia.
Qed.

Lemma solvedByRating_spec r l :
  r <> 0 ->
  rating_count r (Vars.solvedByRating (forEach l)) =
  Z.of_nat (List.length (filter (has_rating r) (first_accepted l))).
Proof.
  intros Hr. induction l as [|s l IH] using rev_ind; [reflexivity|].
  rewrite solvedByRating_snoc, first_accepted_snoc, filter_app, length_app.
  destruct (first_ok l s); simpl.
  - rewrite rating_count_count_rating, IH by exact Hr. unfold has_rating.
    destruct (submission_rating s) as [r'|]; simpl; [|lia].
    destruct (r' =? r); simpl; lia.
  - rewrite IH. lia.
Qed.

Lemma solvedByRating_keys l :
  Forall rating_key (map fst (Vars.solvedByRating (forEach l))).
Proof.
  induction l as [|s l IH] using rev_ind; [constructor|].
  rewrite solvedByRating_snoc. destruct (first_ok l s); [|exact IH].
  unfold count_rating. destruct (submission_rating s) as [r|]; [|exact IH].
  simpl. destruct (Z.eqb_spec r 0) as [->|Hne]; simpl; [exact IH|].
  apply Forall_keys_set; [|exact IH]. now exists r.
Qed.

Lemma solvedByRating_NoDup l : NoDup (map fst (Vars.solvedByRating (forEach l))).
Proof.
  induction l as [|s l IH] using rev_ind; [constructor|].
  rewrite solvedByRating_snoc. destruct (first_ok l s); [|exact IH].
  unfold count_rating. destruct (submission_rating s) as [r|]; [|exact IH].
  destruct (truthy (Some r)); [|exact IH]. now apply NoDup_keys_set.
Qed.

Lemma solvedByRating_positive l :
  positive_counts (Vars.solvedByRating (forEach l)).
Proof.
  induction l as [|s l IH] using rev_ind; [intros k v; discriminate|].
  rewrite solvedByRating_snoc. destruct (first_ok l s); [|exact IH].
  unfold count_rating. destruct (submission_rating s) as [r|]; [|exact IH].
  destruct (truthy (Some r)); [|exact IH].
  apply positive_counts_set; [exact IH|].
  pose proof (rating_count_nonneg r _ IH). lia.
Qed.

(** *** Languages and verdicts *)

Lemma languages_tally l :
  Vars.languages (forEach l) = tally_of (map Submission.programmingLanguage l).
Proof.
  induction l as [|s l IH] using rev_ind; [reflexivity|].
  rewrite forEach_snoc, map_app. cbn [map]. rewrite tally_of_snoc.
  unfold forEach_body; cbn [Vars.languages]. now rewrite IH.
Qed.

Lemma verdicts_tally l :
  Vars.verdicts (forEach l) = tally_of (map Submission.verdict l).
Proof.
  induction l as [|s l IH] using rev_ind; [reflexivity|].
  rewrite forEach_snoc, map_app. cbn [map]. rewrite tally_of_snoc.
  unfold forEach_body; cbn [Vars.verdicts]. now rewrite IH.
Qed.

Lemma languages_spec k l :
  inherited k = false ->
  get0 k (Vars.languages (forEach l)) =
  Count (count_by Submission.programmingLanguage k l).
Proof.
  intros H. now rewrite languages_tally, (get0_tally_of k _ H), count_occ_count_by.
Qed.

Lemma verdicts_spec k l :
  inherited k = false ->
  get0 k (Vars.verdicts (forEach l)) = Count (count_by Submission.verdict k l).
Proof.
  intros H. now rewrite verdicts_tally, (get0_tally_of k _ H), count_occ_count_by.
Qed.

Lemma languages_NoDup l : NoDup (map fst (Vars.languages (forEach l))).
Proof. rewrite languages_tally. apply tally_of_NoDup. Qed.

(** *** Per-problem records *)

Lemma submissions_of_snoc k l s :
  submissions_of k (l ++ [s]) =
  submissions_of k l ++ (if same_problem k s then [s] else []).
Proof. unfold submissions_of. now rewrite filter_app. Qed.

Lemma set_set {V : Type} k (v v' : V) (o : Obj V) :
  set k v (set k v' o) = set k v o.
Proof.
  induction o as [|[k1 v1] o IH]; simpl.
  - now rewrite String.eqb_refl.
  - destruct (String.eqb_spec k k1) as [->|Hne]; simpl.
    + now rewrite String.eqb_refl.
    + destruct (String.eqb_spec k k1); [contradiction|now rewrite IH].
Qed.

(** The loop body on [problemStats], with the new record inlined. *)
Lemma forEach_body_stats l s :
  let st := forEach l in
  let stats := read_stats l s in
  let stats' :=
    Stats.mk (if accepted s then true else Stats.solved stats)
      (Stats.attempts stats + 1) (Stats.tags stats) (Stats.rating stats)
      (Z.max (Stats.lastAttempt stats) (Submission.creationTimeSeconds s)) in
  Vars.problemStats (forEach_body st s) =
    Map_set (problemKey s) stats' (Vars.problemStats st) /\
  Vars.attemptsPerProblem (forEach_body st s) =
    Map_set (problemKey s) (Stats.attempts stats + 1) (Vars.attemptsPerProblem st) /\
  Vars.maxAttempts (forEach_body st s) =
    Z.max (Vars.maxAttempts st) (Stats.attempts stats + 1).
Proof.
  cbv zeta. unfold forEach_body, read_stats;
    cbn [Vars.problemStats Vars.attemptsPerProblem Vars.maxAttempts].
  unfold Map_has, Map_get, Map_set.
  destruct (get (problemKey s) (Vars.problemStats (forEach l))) as [st0|] eqn:E.
  - rewrite E. destruct (accepted s); repeat split; reflexivity.
  - rewrite get_set_eq, !set_set. destruct (accepted s); repeat split; reflexivity.
Qed.

Lemma problemStats_snoc l s :
  Vars.problemStats (forEach (l ++ [s])) =
  let stats := read_stats l s in
  Map_set (problemKey s)
    (Stats.mk (if accepted s then true else Stats.solved stats)
       (Stats.attempts stats + 1) (Stats.tags stats) (Stats.rating stats)
       (Z.max (Stats.lastAttempt stats) (Submission.creationTimeSeconds s)))
    (Vars.problemStats (forEach l)).
Proof. rewrite forEach_snoc. apply forEach_body_stats. Qed.

Lemma problemStats_spec k l :
  Map_get k (Vars.problemStats (forEach l)) = stats_of k l.
Proof.
  induction l as [|s l IH] using rev_ind; [reflexivity|].
  rewrite problemStats_snoc. cbv zeta. unfold read_stats, Map_get, Map_set in *.
  rewrite get_set. unfold stats_of. rewrite submissions_of_snoc.
  destruct (String.eqb_spec k (problemKey s)) as [->|Hne].
  - replace (same_problem (problemKey s) s) with true
      by (symmetry; now apply has_key_true).
    rewrite IH. unfold stats_of.
    destruct (submissions_of (problemKey s) l) as [|s0 rest]; simpl.
    + rewrite Z.max_id. now destruct (accepted s).
    + rewrite existsb_app, length_app, map_app, fold_left_app. simpl.
      f_equal. f_equal.
      * destruct (accepted s), (accepted s0), (existsb accepted rest);
          reflexivity.
      * lia.
  - replace (same_problem k s) with false
      by (symmetry; apply has_key_false; congruence).
    now rewrite app_nil_r.
Qed.

Lemma attempts_of_stats k l st :
  stats_of k l = Some st -> Stats.attempts st = attempts_of k l.
Proof.
  unfold stats_of, attempts_of.
  destruct (submissions_of k l); [discriminate|]. now intros [= <-].
Qed.

Lemma stats_of_None k l : stats_of k l = None <-> attempts_of k l = 0.
Proof.
  unfold stats_of, attempts_of.
  destruct (submissions_of k l); simpl; split; try discriminate; reflexivity.
Qed.

Lemma attempts_of_snoc k l s :
  attempts_of k (l ++ [s]) =
  attempts_of k l + (if same_problem k s then 1 else 0).
Proof.
  unfold attempts_of. rewrite submissions_of_snoc, length_app.
  destruct (same_problem k s); simpl; lia.
Qed.

Lemma attempts_of_nonneg k l : 0 <= attempts_of k l.
Proof. unfold attempts_of. lia. Qed.

Lemma attempts_of_In s l : In s l -> 1 <= attempts_of (problemKey s) l.
Proof.
  intros Hin. unfold attempts_of, submissions_of.
  assert (H : In s (filter (same_problem (problemKey s)) l)).
  { apply filter_In. split; [exact Hin|now apply has_key_true]. }
  destruct (filter _ l); [contradiction|]. simpl. lia.
Qed.

(** The number of attempts the loop reads for the problem of [s]. *)
Lemma loop_attempts l s :
  Stats.attempts (read_stats l s) = attempts_of (problemKey s) l.
Proof.
  unfold read_stats. rewrite problemStats_spec.
  destruct (stats_of (problemKey s) l) as [st|] eqn:E.
  - now apply attempts_of_stats.
  - apply stats_of_None in E. now rewrite E.
Qed.

Lemma attemptsPerProblem_spec k l :
  Map_get k (Vars.attemptsPerProblem (forEach l)) =
  option_map Stats.attempts (stats_of k l).
Proof.
  induction l as [|s l IH] using rev_ind; [reflexivity|].
  rewrite <- (problemStats_spec k (l ++ [s])), problemStats_snoc.
  rewrite forEach_snoc.
  rewrite (proj1 (proj2 (forEach_body_stats l s))).
  cbv zeta. unfold Map_get, Map_set in *. rewrite !get_set.
  destruct (String.eqb k (problemKey s)); [reflexivity|].
  rewrite IH. now rewrite <- problemStats_spec.
Qed.

Lemma attemptsPerProblem_NoDup l :
  NoDup (map fst (Vars.attemptsPerProblem (forEach l))).
Proof.
  induction l as [|s l IH] using rev_ind; [constructor|].
  rewrite forEach_snoc, (proj1 (proj2 (forEach_body_stats l s))).
  cbv zeta. now apply NoDup_keys_set.
Qed.

Lemma maxAttempts_snoc l s :
  Vars.maxAttempts (forEach (l ++ [s])) =
  Z.max (Vars.maxAttempts (forEach l)) (attempts_of (problemKey s) l + 1).
Proof.
  rewrite forEach_snoc, (proj2 (proj2 (forEach_body_stats l s))).
  cbv zeta. now rewrite loop_attempts.
Qed.

Lemma maxAttempts_spec l : is_max_attempts l (Vars.maxAttempts (forEach l)).
Proof.
  induction l as [|s l IH] using rev_ind.
  - split; [intros s []|left; now split].
  - rewrite maxAttempts_snoc. destruct IH as [Hub Hatt].
    assert (Hs : attempts_of (problemKey s) (l ++ [s]) =
                 attempts_of (problemKey s) l + 1).
    { rewrite attempts_of_snoc.
      replace (same_problem (problemKey s) s) with true; [reflexivity|].
      symmetry. now apply has_key_true. }
    split.
    + intros x Hx. rewrite attempts_of_snoc.
      destruct (same_problem (problemKey x) s) eqn:E.
      * apply has_key_true in E. rewrite <- E. lia.
      * apply in_app_or in Hx. destruct Hx as [Hx|[<-|[]]].
        -- specialize (Hub _ Hx). lia.
        -- apply has_key_false in E. congruence.
    + right.
      destruct (Z.le_gt_cases (Vars.maxAttempts (forEach l))
                  (attempts_of (problemKey s) l + 1)) as [Hle|Hgt].
      * exists s. split; [apply in_or_app; right; now left|].
        rewrite Hs. lia.
      * destruct Hatt as [[-> Hm]|[x [Hx Hm]]].
        -- rewrite Hm in Hgt. pose proof (attempts_of_nonneg (problemKey s) []).
           lia.
        -- exists x. split; [apply in_or_app; now left|].
           rewrite attempts_of_snoc.
           destruct (same_problem (problemKey x) s) eqn:E.
           ++ apply has_key_true in E. rewrite <- E in Hm. lia.
           ++ lia.
Qed.

(** *** Numerals *)

Lemma digit_prefix_string_of_uint d :
  digit_prefix (NilEmpty.string_of_uint d) = NilEmpty.string_of_uint d.
Proof. induction d; simpl; now rewrite ?IHd. Qed.

Lemma parse_digits_cons c s :
  is_digit c = true ->
  parse_digits (String c s) =
  option_map Z.of_uint (uint_of_char c (NilEmpty.uint_of_string (digit_prefix s))).
Proof. intros H. unfold parse_digits. simpl. now rewrite H. Qed.

Lemma parse_digits_string_of_uint d :
  d <> Decimal.Nil ->
  parse_digits (NilEmpty.string_of_uint d) = Some (Z.of_uint d).
Proof.
  intros Hd.
  destruct d; try congruence; cbn [NilEmpty.string_of_uint];
    rewrite parse_digits_cons by reflexivity;
    rewrite digit_prefix_string_of_uint, NilEmpty.usu; reflexivity.
Qed.

Lemma parse_digits_pos p :
  parse_digits (NilEmpty.string_of_uint (Pos.to_uint p)) = Some (Z.pos p).
Proof.
  rewrite parse_digits_string_of_uint by apply DecimalPos.Unsigned.to_uint_nonnil.
  unfold Z.of_uint. now rewrite DecimalPos.Unsigned.of_to.
Qed.

(** [parseInt] reads back what [Number_toString] prints. *)
Lemma parseInt_Number_toString z : parseInt (Number_toString z) = Some z.
Proof.
  unfold Number_toString. destruct z as [|p|p]; simpl.
  - reflexivity.
  - pose proof (parse_digits_pos p) as H.
    pose proof (DecimalPos.Unsigned.to_uint_nonnil p) as Hn.
    destruct (Pos.to_uint p); try congruence; exact H.
  - now rewrite parse_digits_pos.
Qed.

(** *** Problem keys *)

(** The numeral of a number is not the name of an inherited member: on a
    rating, the general lookup reads the object's own property too. *)
Lemma Number_toString_plain r : inherited (Number_toString r) = false.
Proof.
  destruct (inherited (Number_toString r)) eqn:E; [|reflexivity].
  apply inherited_In in E. pose proof (parseInt_Number_toString r) as P.
  unfold Object_prototype in E. simpl in E.
  repeat (destruct E as [E|E];
          [rewrite <- E in P; vm_compute in P; discriminate P|]).
  contradiction.
Qed.






(** ** Properties of the analyzer *)

Lemma totalProblemsSolved_spec l :
  Analysis.totalProblemsSolved (analyzeSubmissions l) =
  Z.of_nat (List.length (first_accepted l)).
Proof.
  unfold analyzeSubmissions; cbn [Analysis.totalProblemsSolved].
  unfold Set_size. now rewrite solvedProblems_spec, length_map.
Qed.

Lemma first_accepted_keys k l :
  In k (map problemKey (first_accepted l)) <->
  In k (map problemKey (filter accepted l)).
Proof. apply first_by_keys. Qed.

Lemma first_accepted_NoDup l : NoDup (map problemKey (first_accepted l)).
Proof. apply first_by_NoDup. Qed.

Lemma first_accepted_In s l :
  In s (first_accepted l) -> In s l /\ accepted s = true.
Proof.
  intros H. apply first_by_In in H. now apply filter_In in H.
Qed.


(** One accepted submission on a problem tagged "dp" and rated 1200. *)
Example scenario_one_accepted :
  let a := analyzeSubmissions
             [submission 1 "A" ["dp"] (Some 1200) "OK" "C++" 10] in
  Analysis.totalProblemsSolved a = 1 /\
  Analysis.solvedByTag a = [("dp", Count 1)] /\
  Analysis.solvedByRating a = [("1200", 1)] /\
  Analysis.highestSolvedRating a = Some 1200 /\
  Analysis.totalAccepted a = 1.
Proof. cbv zeta. repeat split; reflexivity. Qed.

(** A wrong answer followed by an accepted submission on the same problem. *)
Example scenario_retry :
  let a := analyzeSubmissions [retry_wrong; retry_ok] in
  Analysis.totalProblemsSolved a = 1 /\
  Analysis.totalAttempts a = 2 /\
  Analysis.totalAccepted a = 1 /\
  Analysis.maxAttempts a = 2 /\
  get "1-A" (Analysis.attemptsPerProblem a) = Some 2.
Proof. cbv zeta. repeat split; reflexivity. Qed.

(** C5. [analyzeSubmissions] applied to the empty submission list returns an
    analysis in which the counters [totalProblemsSolved], [totalSubmissions],
    [totalAccepted], [totalAttempts] and [maxAttempts] are 0, the mappings
    and derived sequences [solvedByTag], [solvedByRating], [languages],
    [topTags], [weakTags], [ratingDistribution] and [topLanguages] are
    empty, and [highestSolvedRating] is 0. *)
Theorem C5_analyze_empty :
  let a := analyzeSubmissions [] in
  Analysis.totalProblemsSolved a = 0 /\
  Analysis.totalSubmissions a = 0 /\
  Analysis.totalAccepted a = 0 /\
  Analysis.totalAttempts a = 0 /\
  Analysis.maxAttempts a = 0 /\
  Analysis.solvedByTag a = [] /\
  Analysis.solvedByRating a = [] /\
  Analysis.languages a = [] /\
  Analysis.topTags a = [] /\
  Analysis.weakTags a = [] /\
  Analysis.ratingDistribution a = [] /\
  Analysis.topLanguages a = [] /\
  Analysis.highestSolvedRating a = Some 0.
Proof. cbv zeta. repeat split; reflexivity. Qed.

(** C10. For every submission list, [totalAttempts] and [totalSubmissions]
    of the analysis are equal, and both are the length of the list. *)
Theorem C10_totalAttempts_is_totalSubmissions (submissions : list Submission.t) :
  let a := analyzeSubmissions submissions in
  Analysis.totalAttempts a = Analysis.totalSubmissions a /\
  Analysis.totalSubmissions a = Z.of_nat (List.length submissions).
Proof.
  cbv zeta. unfold analyzeSubmissions;
    cbn [Analysis.totalAttempts Analysis.totalSubmissions].
  split; [apply totalAttempts_spec|reflexivity].
Qed.

(** C9. Let the loop have processed the submissions [processed], with [rest]
    still to come.  For a problem of which a record has been processed,
    [problemStats] holds a record whose [attempts] is at least 1; and after
    any further submissions the problem still has a record, whose [solved]
    flag is true if it was true before (the flag never reverts) and whose
    [attempts] did not decrease. *)
Theorem C9_attempt_state_invariant
  (processed rest : list Submission.t) (s : Submission.t) :
  In s processed ->
  exists st st',
    Map_get (problemKey s) (Vars.problemStats (forEach processed)) = Some st /\
    1 <= Stats.attempts st /\
    Map_get (problemKey s) (Vars.problemStats (forEach (processed ++ rest)))
      = Some st' /\
    (Stats.solved st = true -> Stats.solved st' = true) /\
    Stats.attempts st <= Stats.attempts st'.
Proof.
  intros Hin. rewrite !problemStats_spec. unfold stats_of, submissions_of.
  rewrite filter_app.
  pose proof (attempts_of_In s processed Hin) as Hatt.
  unfold attempts_of, submissions_of in Hatt.
  destruct (filter (same_problem (problemKey s)) processed) as [|s0 l0];
    [simpl in Hatt; lia|].
  simpl app. eexists. eexists. split; [reflexivity|].
  split; [exact Hatt|]. split; [reflexivity|].
  cbn [Stats.solved Stats.attempts]. split.
  - change (s0 :: l0 ++ filter (same_problem (problemKey s)) rest)
      with ((s0 :: l0) ++ filter (same_problem (problemKey s)) rest).
    rewrite existsb_app. intros ->. reflexivity.
  - simpl List.length. rewrite length_app. lia.
Qed.



(** C6. For every submission list, [totalProblemsSolved] is the sum of the
    values of [solvedByRating] plus the number of solved problems without a
    rating; so when every accepted submission is on a rated problem, the sum
    of the values of [solvedByRating] equals [totalProblemsSolved]. *)
Theorem C6_solvedByRating_sum (submissions : list Submission.t) :
  let a := analyzeSubmissions submissions in
  Analysis.totalProblemsSolved a =
    sumZ (map snd (Analysis.solvedByRating a)) +
    Z.of_nat (List.length
                (filter (fun s => negb (rated s)) (first_accepted submissions))) /\
  ((forall s, In s submissions -> accepted s = true -> rated s = true) ->
   sumZ (map snd (Analysis.solvedByRating a)) = Analysis.totalProblemsSolved a).
Proof.
  cbv zeta. rewrite totalProblemsSolved_spec.
  unfold analyzeSubmissions; cbn [Analysis.solvedByRating].
  rewrite solvedByRating_sum.
  assert (Hsplit : forall ss : list Submission.t,
             List.length ss =
             (List.length (filter rated ss) +
              List.length (filter (fun s => negb (rated s)) ss))%nat).
  { induction ss as [|s ss IH]; [reflexivity|].
    simpl. destruct (rated s); simpl; lia. }
  split; [rewrite (Hsplit (first_accepted submissions)); lia|].
  intros Hall. f_equal. f_equal.
  assert (Hsub : forall s, In s (first_accepted submissions) -> rated s = true).
  { intros s Hs. apply first_accepted_In in Hs. now apply Hall. }
  induction (first_accepted submissions) as [|s ss IH]; [reflexivity|].
  simpl. rewrite (Hsub s) by now left. f_equal.
  apply IH. intros; apply Hsub; now right.
Qed.

(** *** Order of the derived sequences *)

(** A list that is sorted on a key and keeps, for every value of the key,
    the members in a given order, is determined. *)
Lemma stable_sorted_unique {A : Type} (key : A -> Z) (l l' : list A) :
  StronglySorted (fun a b => key a <= key b) l ->
  StronglySorted (fun a b => key a <= key b) l' ->
  (forall c, filter (fun e => key e =? c) l = filter (fun e => key e =? c) l') ->
  l = l'.
Proof.
  revert l'. induction l as [|x l IH]; intros l' Hs Hs' Hf.
  - destruct l' as [|y l']; [reflexivity|].
    specialize (Hf (key y)). simpl in Hf. rewrite Z.eqb_refl in Hf. discriminate.
  - destruct l' as [|y l'].
    + specialize (Hf (key x)). simpl in Hf. rewrite Z.eqb_refl in Hf. discriminate.
    + inversion Hs as [|? ? Hs1 Hx]; subst.
      inversion Hs' as [|? ? Hs1' Hy]; subst.
      rewrite Forall_forall in Hx, Hy.
      assert (Hxy : x = y).
      { pose proof (Hf (key x)) as Fx. pose proof (Hf (key y)) as Fy.
        simpl in Fx, Fy. rewrite Z.eqb_refl in Fx, Fy.
        destruct (Z.eqb_spec (key y) (key x)) as [E|Hne].
        - now inversion Fx.
        - destruct (Z.eqb_spec (key x) (key y)) as [E|_]; [congruence|].
          assert (Hxl : In x l').
          { assert (H : In x (filter (fun e => key e =? key x) l'))
              by (rewrite <- Fx; now left).
            now apply filter_In in H. }
          assert (Hyl : In y l).
          { assert (H : In y (filter (fun e => key e =? key y) l))
              by (rewrite Fy; now left).
            now apply filter_In in H. }
          specialize (Hx _ Hyl). specialize (Hy _ Hxl). lia. }
      subst y. f_equal. apply IH; try assumption.
      intros c. specialize (Hf c). simpl in Hf.
      destruct (key x =? c); [now inversion Hf|exact Hf].
Qed.

(** On entries that hold numbers the comparators are differences of
    counts. *)
Lemma by_count_asc_key a b :
  snd a = Count (weight (snd a)) -> snd b = Count (weight (snd b)) ->
  by_count_asc a b = count_asc a - count_asc b.
Proof.
  intros Ha Hb. unfold by_count_asc, count_asc, minus. now rewrite Ha, Hb.
Qed.

Lemma by_count_desc_key a b :
  snd a = Count (weight (snd a)) -> snd b = Count (weight (snd b)) ->
  by_count_desc a b = count_desc a - count_desc b.
Proof.
  intros Ha Hb. unfold by_count_desc, count_desc, minus. rewrite Ha, Hb.
  simpl. unfold weight. simpl. lia.
Qed.

Lemma Object_entries_get {V : Type} (o : Obj V) k v :
  NoDup (map fst o) -> In (k, v) (Object_entries o) <-> get k o = Some v.
Proof.
  intros Hnd. split.
  - intros H. apply In_get; [exact Hnd|].
    eapply Permutation_in; [apply Object_entries_Permutation|exact H].
  - intros H. apply get_Some_In in H.
    eapply Permutation_in; [symmetry; apply Object_entries_Permutation|exact H].
Qed.

Lemma Array_sort_ordered_by {A : Type} (cmp : A -> A -> Z) (key : A -> Z) entries :
  (forall a b, cmp a b = key a - key b) ->
  ordered_by key entries (Array_sort cmp entries).
Proof.
  intros H. split.
  - now apply Array_sort_sorted.
  - intros c. now apply Array_sort_stable.
Qed.

Lemma ordered_by_unique {A : Type} (key : A -> Z) entries (l l' : list A) :
  ordered_by key entries l -> ordered_by key entries l' -> l = l'.
Proof.
  intros [Hs Hf] [Hs' Hf']. apply (stable_sorted_unique key); try assumption.
  intros c. now rewrite Hf, Hf'.
Qed.

Lemma Array_sort_ordered_on {A : Type} (cmp : A -> A -> Z) (key : A -> Z) entries :
  (forall a b, In a entries -> In b entries -> cmp a b = key a - key b) ->
  ordered_by key entries (Array_sort cmp entries).
Proof.
  intros H. rewrite (Array_sort_ext cmp (fun a b => key a - key b) entries H).
  now apply Array_sort_ordered_by.
Qed.

Lemma numeric_sorted entries :
  numeric entries ->
  ordered_by count_desc entries (Array_sort by_count_desc entries) /\
  ordered_by count_asc entries (Array_sort by_count_asc entries).
Proof.
  intros Hn. unfold numeric in Hn. rewrite Forall_forall in Hn.
  split; apply Array_sort_ordered_on; intros a b Ha Hb;
    [apply by_count_desc_key|apply by_count_asc_key]; now apply Hn.
Qed.

Lemma plain_numeric keys : plain keys -> numeric (Object_entries (tally_of keys)).
Proof.
  intros Hp. apply Forall_forall. intros e He.
  assert (Hin : In e (tally_of keys)).
  { eapply Permutation_in; [apply Object_entries_Permutation|exact He]. }
  destruct (plain_tally_of_entries keys e Hp Hin) as [E _]. now rewrite E.
Qed.

Lemma topTags_ordered l :
  plain (solved_tags l) ->
  ordered_by count_desc
    (Object_entries (Vars.solvedByTag (forEach l)))
    (Array_sort by_count_desc (Object_entries (Vars.solvedByTag (forEach l)))).
Proof.
  intros Hp. rewrite solvedByTag_tally.
  now apply numeric_sorted, plain_numeric.
Qed.

Lemma weakTags_ordered l :
  plain (solved_tags l) ->
  ordered_by count_asc
    (Object_entries (Vars.solvedByTag (forEach l)))
    (Array_sort by_count_asc (Object_entries (Vars.solvedByTag (forEach l)))).
Proof.
  intros Hp. rewrite solvedByTag_tally.
  now apply numeric_sorted, plain_numeric.
Qed.

(** What [solvedByTag] holds under the tags of solved problems that name
    no inherited member. *)
Lemma solvedByTag_entries l t c :
  plain (solved_tags l) ->
  In (t, c) (Object_entries (Vars.solvedByTag (forEach l))) ->
  c = Count (tag_total t (first_accepted l)) /\ 1 <= tag_total t (first_accepted l).
Proof.
  intros Hp Hin.
  assert (Hin' : In (t, c) (tally_of (solved_tags l))).
  { rewrite <- solvedByTag_tally.
    eapply Permutation_in; [apply Object_entries_Permutation|exact Hin]. }
  destruct (plain_tally_of_entries _ _ Hp Hin') as [E Ht]. simpl in E, Ht.
  unfold solved_tags in E, Ht. rewrite count_occ_tag_total in E.
  split; [exact E|].
  rewrite <- count_occ_tag_total.
  apply (count_occ_In string_dec) in Ht. lia.
Qed.

(** C4 (amended). When no tag of a solved problem is the name of a member
    inherited from [Object.prototype], every value of [solvedByTag] is the
    number of occurrences of the tag on solved problems; [topTags] is the
    first 10 of the tag/count pairs of [solvedByTag] ordered by count
    descending, and [weakTags] the tag names of the first 5 of them ordered
    by count ascending; ties are broken by the enumeration order of the
    mapping.  That order lists the tags that are array-index numerals first,
    by ascending number, and then the other tags in first-seen order; it is
    the first-seen order when no tag is such a numeral. *)
Theorem C4_topTags_weakTags (submissions : list Submission.t) :
  let a := analyzeSubmissions submissions in
  let entries := Object_entries (Analysis.solvedByTag a) in
  let seen := first_seen (flat_map submission_tags (first_accepted submissions)) in
  plain (flat_map submission_tags (first_accepted submissions)) ->
  (forall t c, In (t, c) entries <-> get t (Analysis.solvedByTag a) = Some c) /\
  (forall t c, In (t, c) entries ->
               c = Count (tag_total t (first_accepted submissions))) /\
  (exists top,
      ordered_by count_desc entries top /\
      (forall l, ordered_by count_desc entries l -> l = top) /\
      Analysis.topTags a = firstn 10 top) /\
  (exists weak,
      ordered_by count_asc entries weak /\
      (forall l, ordered_by count_asc entries l -> l = weak) /\
      Analysis.weakTags a = map fst (firstn 5 weak)) /\
  map fst (Analysis.solvedByTag a) = seen /\
  (exists indexed,
      entries = indexed ++ filter (fun e => negb (is_index e)) (Analysis.solvedByTag a) /\
      Permutation indexed (filter is_index (Analysis.solvedByTag a)) /\
      StronglySorted (fun x y => index_of x <= index_of y) indexed) /\
  ((forall t, In t seen -> array_index t = None) -> map fst entries = seen).
Proof.
  cbv zeta. intros Hp. fold (solved_tags submissions) in *.
  unfold analyzeSubmissions;
    cbn [Analysis.solvedByTag Analysis.topTags Analysis.weakTags].
  split.
  { intros t c. apply Object_entries_get. apply solvedByTag_NoDup. }
  split.
  { intros t c Hin. now apply (solvedByTag_entries submissions t c Hp). }
  split.
  { eexists. split; [now apply topTags_ordered|]. split; [|reflexivity].
    intros l Hl. eapply ordered_by_unique; [exact Hl|now apply topTags_ordered]. }
  split.
  { eexists. split; [now apply weakTags_ordered|]. split; [|reflexivity].
    intros l Hl. eapply ordered_by_unique; [exact Hl|now apply weakTags_ordered]. }
  split; [now apply solvedByTag_keys|].
  split.
  { eexists. split; [reflexivity|].
    split; [apply Array_sort_Permutation|].
    now apply Array_sort_sorted. }
  intros Hno. rewrite Object_entries_no_index; [now apply solvedByTag_keys|].
  intros e He. apply Hno. rewrite <- (solvedByTag_keys _ Hp). now apply in_map.
Qed.

(** C4, as stated, fails.  "dp" is seen before "7" and both count one
    solved problem, yet [weakTags] and [topTags] list "7" first.  And under
    [constructor], the name of an inherited member, [solvedByTag] holds a
    text and not a count: the tag is on two solved problems and comes
    before "dp", which is on one, in [weakTags]. *)
Lemma C4_counterexample :
  first_seen_entries tie_example = [("dp", Count 1); ("7", Count 1)] /\
  Analysis.weakTags (analyzeSubmissions tie_example) = ["7"; "dp"] /\
  Analysis.topTags (analyzeSubmissions tie_example) =
    [("7", Count 1); ("dp", Count 1)] /\
  ~ (Analysis.topTags (analyzeSubmissions tie_example) =
       topTags_first_seen tie_example /\
     Analysis.weakTags (analyzeSubmissions tie_example) =
       weakTags_first_seen tie_example) /\
  tag_total "constructor" (first_accepted native_example) = 2 /\
  tag_total "dp" (first_accepted native_example) = 1 /\
  Analysis.topTags (analyzeSubmissions native_example) =
    [("constructor", Native "constructor" 2); ("dp", Count 1)] /\
  Analysis.weakTags (analyzeSubmissions native_example) = ["constructor"; "dp"].
Proof.
  repeat split; try reflexivity.
  intros [H _]. vm_compute in H. discriminate.
Qed.

(** *** Permutations of the input *)

Lemma Permutation_filter {A : Type} (f : A -> bool) l l' :
  Permutation l l' -> Permutation (filter f l) (filter f l').
Proof.
  induction 1 as [|x l l' _ IH|x y l|l l' l'' _ IH1 _ IH2]; simpl.
  - constructor.
  - destruct (f x); [now constructor|exact IH].
  - destruct (f x), (f y); try reflexivity. apply perm_swap.
  - now transitivity (filter f l').
Qed.

Lemma sumZ_Permutation l l' : Permutation l l' -> sumZ l = sumZ l'.
Proof. induction 1; simpl; lia. Qed.

Lemma existsb_Permutation {A : Type} (f : A -> bool) l l' :
  Permutation l l' -> existsb f l = existsb f l'.
Proof.
  induction 1 as [|x l l' _ IH|x y l|l l' l'' _ IH1 _ IH2]; simpl.
  - reflexivity.
  - now rewrite IH.
  - destruct (f x), (f y); reflexivity.
  - congruence.
Qed.

Lemma fold_max_is_max xs : forall x,
  is_max (fold_left Z.max xs x) (x :: xs).
Proof.
  induction xs as [|y xs IH]; intros x; simpl.
  - split; [now left|]. constructor; [lia|constructor].
  - destruct (IH (Z.max x y)) as [Hin Hall]. split.
    + destruct Hin as [E|Hin]; [|right; now right].
      rewrite <- E. destruct (Z.max_spec x y) as [[_ ->]|[_ ->]];
        [right; now left|now left].
    + inversion Hall as [|? ? Hm Hxs]; subst.
      constructor; [lia|]. constructor; [lia|exact Hxs].
Qed.

Lemma is_max_Permutation m m' xs xs' :
  Permutation xs xs' -> is_max m xs -> is_max m' xs' -> m = m'.
Proof.
  intros Hp [Hin Hall] [Hin' Hall']. rewrite Forall_forall in Hall, Hall'.
  assert (m' <= m).
  { apply Hall. eapply Permutation_in; [symmetry; exact Hp|exact Hin']. }
  assert (m <= m').
  { apply Hall'. eapply Permutation_in; [exact Hp|exact Hin]. }
  lia.
Qed.

Lemma consistent_Permutation meta l l' :
  Permutation l l' -> consistent meta l -> consistent meta l'.
Proof.
  intros Hp H s Hs. apply H. eapply Permutation_in; [symmetry; exact Hp|exact Hs].
Qed.

Lemma submissions_of_Permutation k l l' :
  Permutation l l' -> Permutation (submissions_of k l) (submissions_of k l').
Proof. apply Permutation_filter. Qed.

Lemma attempts_of_Permutation k l l' :
  Permutation l l' -> attempts_of k l = attempts_of k l'.
Proof.
  intros Hp. unfold attempts_of. f_equal.
  apply Permutation_length. now apply submissions_of_Permutation.
Qed.

Lemma submissions_of_In k s l :
  In s (submissions_of k l) -> In s l /\ problemKey s = k.
Proof.
  unfold submissions_of. rewrite filter_In. intros [H1 H2].
  split; [exact H1|now apply has_key_true in H2].
Qed.

Lemma consistent_tags meta l s :
  consistent meta l -> In s l ->
  submission_tags s =
  match fst (meta (problemKey s)) with Some ts => ts | None => [] end.
Proof.
  intros H Hs. rewrite <- (H s Hs). reflexivity.
Qed.

Lemma consistent_rating meta l s :
  consistent meta l -> In s l ->
  submission_rating s = snd (meta (problemKey s)).
Proof.
  intros H Hs. rewrite <- (H s Hs). reflexivity.
Qed.

(** The record of a problem does not depend on the order of arrival. *)
Lemma stats_of_Permutation meta k l l' :
  Permutation l l' -> consistent meta l -> stats_of k l = stats_of k l'.
Proof.
  intros Hp Hc. pose proof (consistent_Permutation _ _ _ Hp Hc) as Hc'.
  pose proof (submissions_of_Permutation k _ _ Hp) as Hk.
  unfold stats_of.
  destruct (submissions_of k l) as [|s0 rest] eqn:E,
           (submissions_of k l') as [|s0' rest'] eqn:E'.
  - reflexivity.
  - apply Permutation_nil in Hk. discriminate.
  - apply Permutation_sym, Permutation_nil in Hk. discriminate.
  - assert (H0 : In s0 l /\ problemKey s0 = k)
      by (apply submissions_of_In; rewrite E; now left).
    assert (H0' : In s0' l' /\ problemKey s0' = k)
      by (apply submissions_of_In; rewrite E'; now left).
    destruct H0 as [H0 K0], H0' as [H0' K0'].
    f_equal. f_equal.
    + now apply existsb_Permutation.
    + f_equal. now apply Permutation_length.
    + rewrite (consistent_tags meta l s0 Hc H0).
      rewrite (consistent_tags meta l' s0' Hc' H0'). now rewrite K0, K0'.
    + rewrite (consistent_rating meta l s0 Hc H0).
      rewrite (consistent_rating meta l' s0' Hc' H0'). now rewrite K0, K0'.
    + eapply is_max_Permutation;
        [|apply fold_max_is_max|apply fold_max_is_max].
      change (Permutation (map Submission.creationTimeSeconds (s0 :: rest))
                (map Submission.creationTimeSeconds (s0' :: rest'))).
      now apply Permutation_map.
Qed.

Lemma first_accepted_Permutation l l' :
  Permutation l l' ->
  Permutation (map problemKey (first_accepted l))
    (map problemKey (first_accepted l')).
Proof.
  intros Hp. apply NoDup_Permutation; try apply first_accepted_NoDup.
  intros k. rewrite !first_accepted_keys.
  split; apply Permutation_in; apply Permutation_map, Permutation_filter;
    [exact Hp|now symmetry].
Qed.

(** A sum over the solved problems of a quantity that depends on the
    problem metadata only. *)
Lemma sum_first_accepted_Permutation meta
  (g : option (list string) * option Z -> Z) l l' :
  Permutation l l' -> consistent meta l ->
  sumZ (map (fun s => g (metadata s)) (first_accepted l)) =
  sumZ (map (fun s => g (metadata s)) (first_accepted l')).
Proof.
  intros Hp Hc. pose proof (consistent_Permutation _ _ _ Hp Hc) as Hc'.
  assert (H : forall l0, consistent meta l0 ->
            map (fun s => g (metadata s)) (first_accepted l0) =
            map (fun k => g (meta k)) (map problemKey (first_accepted l0))).
  { intros l0 H0. rewrite map_map. apply map_ext_in.
    intros s Hs. apply first_accepted_In in Hs. now rewrite (H0 s (proj1 Hs)). }
  rewrite (H l Hc), (H l' Hc'). apply sumZ_Permutation.
  now apply Permutation_map, first_accepted_Permutation.
Qed.

Lemma length_filter_sumZ {A : Type} (f : A -> bool) l :
  Z.of_nat (List.length (filter f l)) =
  sumZ (map (fun x => if f x then 1 else 0) l).
Proof.
  induction l as [|x l IH]; [reflexivity|].
  simpl. destruct (f x); simpl List.length; lia.
Qed.

Lemma get_In_keys {V : Type} k (v : V) o : get k o = Some v -> In k (map fst o).
Proof.
  intros H. apply get_Some_In in H. change k with (fst (k, v)). now apply in_map.
Qed.

Lemma get_of_counts (o o' : Obj Z) :
  positive_counts o -> positive_counts o' ->
  (forall k, In k (map fst o) \/ In k (map fst o') ->
     match get k o with Some v => v | None => 0 end =
     match get k o' with Some v => v | None => 0 end) ->
  forall k, get k o = get k o'.
Proof.
  intros H H' H0 k.
  destruct (get k o) as [v|] eqn:E, (get k o') as [v'|] eqn:E'; try reflexivity.
  - specialize (H0 k (or_introl (get_In_keys _ _ _ E))).
    rewrite E, E' in H0. now subst.
  - specialize (H0 k (or_introl (get_In_keys _ _ _ E))).
    rewrite E, E' in H0. specialize (H _ _ E). lia.
  - specialize (H0 k (or_intror (get_In_keys _ _ _ E'))).
    rewrite E, E' in H0. specialize (H' _ _ E'). lia.
Qed.

(** Every tag is counted as often in both orders of arrival. *)
Lemma solved_tags_Permutation meta l l' t :
  Permutation l l' -> consistent meta l ->
  count_occ string_dec (solved_tags l) t = count_occ string_dec (solved_tags l') t.
Proof.
  intros Hp Hc. apply Nat2Z.inj. unfold solved_tags.
  rewrite !count_occ_tag_total. unfold tag_total.
  apply (sum_first_accepted_Permutation meta
           (fun m => count_tag t (match fst m with Some ts => ts | None => [] end)));
    assumption.
Qed.

Lemma solvedByTag_Permutation meta l l' :
  Permutation l l' -> consistent meta l ->
  forall t, get t (Vars.solvedByTag (forEach l)) =
            get t (Vars.solvedByTag (forEach l')).
Proof.
  intros Hp Hc t. rewrite !solvedByTag_tally, !get_tally_of.
  now rewrite (solved_tags_Permutation meta l l' t Hp Hc).
Qed.

Lemma plain_solved_tags_Permutation meta l l' :
  Permutation l l' -> consistent meta l ->
  plain (solved_tags l) -> plain (solved_tags l').
Proof.
  intros Hp Hc H. unfold plain in *. rewrite Forall_forall in *.
  intros t Ht. apply H. apply (count_occ_In string_dec).
  rewrite (solved_tags_Permutation meta l l' t Hp Hc).
  now apply (count_occ_In string_dec).
Qed.

Lemma solvedByRating_Permutation meta l l' :
  Permutation l l' -> consistent meta l ->
  forall k, get k (Vars.solvedByRating (forEach l)) =
            get k (Vars.solvedByRating (forEach l')).
Proof.
  intros Hp Hc. apply get_of_counts; try apply solvedByRating_positive.
  intros k Hk.
  assert (Hr : rating_key k).
  { destruct Hk as [Hk|Hk];
      [pose proof (solvedByRating_keys l) as F
      |pose proof (solvedByRating_keys l') as F];
      rewrite Forall_forall in F; now apply F. }
  destruct Hr as [r [Hr ->]].
  change (rating_count r (Vars.solvedByRating (forEach l)) =
          rating_count r (Vars.solvedByRating (forEach l'))).
  rewrite !solvedByRating_spec by exact Hr.
  rewrite !length_filter_sumZ.
  apply (sum_first_accepted_Permutation meta
           (fun m => if match snd m with Some r' => r' =? r | None => false end
                     then 1 else 0));
    assumption.
Qed.

Lemma languages_Permutation l l' :
  Permutation l l' ->
  forall k, get k (Vars.languages (forEach l)) = get k (Vars.languages (forEach l')).
Proof.
  intros Hp k. rewrite !languages_tally.
  now apply tally_of_Permutation, Permutation_map.
Qed.

Lemma verdicts_Permutation l l' :
  Permutation l l' ->
  forall k, get k (Vars.verdicts (forEach l)) = get k (Vars.verdicts (forEach l')).
Proof.
  intros Hp k. rewrite !verdicts_tally.
  now apply tally_of_Permutation, Permutation_map.
Qed.

Lemma attemptsPerProblem_Permutation l l' :
  Permutation l l' ->
  forall k, Map_get k (Vars.attemptsPerProblem (forEach l)) =
            Map_get k (Vars.attemptsPerProblem (forEach l')).
Proof.
  intros Hp k. rewrite !attemptsPerProblem_spec. unfold stats_of.
  pose proof (submissions_of_Permutation k _ _ Hp) as Hk.
  destruct (submissions_of k l) as [|s0 rest] eqn:E,
           (submissions_of k l') as [|s0' rest'] eqn:E'.
  - reflexivity.
  - apply Permutation_nil in Hk. discriminate.
  - apply Permutation_sym, Permutation_nil in Hk. discriminate.
  - simpl. do 2 f_equal. apply Permutation_length in Hk. simpl in Hk. lia.
Qed.

Lemma is_max_attempts_Permutation l l' m m' :
  Permutation l l' -> is_max_attempts l m -> is_max_attempts l' m' -> m = m'.
Proof.
  intros Hp [Hub Hatt] [Hub' Hatt'].
  assert (Hle : forall l1 l2 m1 m2, Permutation l1 l2 ->
            (forall s, In s l2 -> attempts_of (problemKey s) l2 <= m2) ->
            ((l1 = [] /\ m1 = 0) \/
             exists s, In s l1 /\ attempts_of (problemKey s) l1 = m1) ->
            ((l2 = [] /\ m2 = 0) \/
             exists s, In s l2 /\ attempts_of (problemKey s) l2 = m2) ->
            m1 <= m2).
  { intros l1 l2 m1 m2 Hp12 Hub2 [[-> ->]|[s [Hs <-]]] H2.
    - destruct H2 as [[_ ->]|[s [Hs _]]]; [lia|].
      apply Permutation_nil in Hp12. subst. contradiction.
    - rewrite (attempts_of_Permutation _ _ _ Hp12). apply Hub2.
      eapply Permutation_in; [exact Hp12|exact Hs]. }
  assert (m <= m') by (apply (Hle l l' m m'); assumption).
  assert (m' <= m)
    by (apply (Hle l' l m' m); [now apply Permutation_sym|assumption..]).
  lia.
Qed.

Lemma problemStats_NoDup l : NoDup (map fst (Vars.problemStats (forEach l))).
Proof.
  induction l as [|s l IH] using rev_ind; [constructor|].
  rewrite problemStats_snoc. cbv zeta. now apply NoDup_keys_set.
Qed.

Lemma get_fold_set {V : Type} k (m : list (string * V)) : forall acc,
  NoDup (map fst m) ->
  get k (fold_left (fun o e => set (fst e) (snd e) o) m acc) =
  match get k m with Some v => Some v | None => get k acc end.
Proof.
  induction m as [|[k1 v1] m IH]; intros acc Hnd; simpl; [reflexivity|].
  inversion Hnd as [|? ? Hnot Hnd']; subst.
  rewrite IH by exact Hnd'.
  destruct (String.eqb_spec k k1) as [->|Hne].
  - apply get_None_keys in Hnot. rewrite Hnot. apply get_set_eq.
  - now rewrite get_set_neq.
Qed.

Lemma get_Object_fromEntries {V : Type} k (m : list (string * V)) :
  NoDup (map fst m) -> get k (Object_fromEntries m) = get k m.
Proof.
  intros Hnd. unfold Object_fromEntries. rewrite get_fold_set by exact Hnd.
  now destruct (get k m).
Qed.

(** Sorting on an injective key forgets the order of the input. *)
Lemma Array_sort_Permutation_eq {A : Type} (cmp : A -> A -> Z) (key : A -> Z) l l' :
  (forall a b, cmp a b = key a - key b) ->
  (forall a b, In a l -> In b l -> key a = key b -> a = b) ->
  Permutation l l' -> Array_sort cmp l = Array_sort cmp l'.
Proof.
  intros Hcmp Hinj Hp. apply (sorted_Permutation_eq key).
  - intros a b Ha Hb. apply Hinj;
      (eapply Permutation_in; [apply Array_sort_Permutation|eassumption]).
  - now apply Array_sort_sorted.
  - now apply Array_sort_sorted.
  - rewrite !Array_sort_Permutation. exact Hp.
Qed.

Lemma entries_Permutation {V : Type} (o o' : Obj V) :
  NoDup (map fst o) -> NoDup (map fst o') ->
  (forall k, get k o = get k o') ->
  Permutation (Object_entries o) (Object_entries o').
Proof.
  intros Hnd Hnd' Hget. rewrite !Object_entries_Permutation.
  now apply same_get_Permutation.
Qed.

Lemma entries_inj {V : Type} (o : Obj V) (key : string * V -> Z) :
  NoDup (map fst o) ->
  (forall a b, In a o -> In b o -> key a = key b -> fst a = fst b) ->
  forall a b, In a (Object_entries o) -> In b (Object_entries o) ->
              key a = key b -> a = b.
Proof.
  intros Hnd Hk a b Ha Hb E.
  assert (Ha' : In a o)
    by (eapply Permutation_in; [apply Object_entries_Permutation|exact Ha]).
  assert (Hb' : In b o)
    by (eapply Permutation_in; [apply Object_entries_Permutation|exact Hb]).
  specialize (Hk a b Ha' Hb' E).
  destruct a as [ka va], b as [kb vb]. simpl in Hk. subst kb.
  apply (In_get _ _ _ Hnd) in Ha'. apply (In_get _ _ _ Hnd) in Hb'.
  congruence.
Qed.

(** Two orderings by count of numeric entries agree exactly when the
    entries with equal counts come in the same order. *)
Lemma same_tie_order_sorted entries entries' :
  numeric entries -> numeric entries' -> same_tie_order entries entries' ->
  Array_sort by_count_desc entries = Array_sort by_count_desc entries' /\
  Array_sort by_count_asc entries = Array_sort by_count_asc entries'.
Proof.
  intros Hn Hn' Hs.
  destruct (numeric_sorted _ Hn) as [Hd Ha].
  destruct (numeric_sorted _ Hn') as [[Sd Fd] [Sa Fa]].
  split.
  - apply (ordered_by_unique count_desc entries); [exact Hd|].
    split; [exact Sd|]. intros c. rewrite Fd.
    rewrite (filter_ext (fun e => count_desc e =? c)
               (fun e => weight (snd e) =? - c))
      by (intros e; unfold count_desc;
          destruct (Z.eqb_spec (- weight (snd e)) c),
                   (Z.eqb_spec (weight (snd e)) (- c)); (reflexivity || lia)).
    rewrite (filter_ext (fun e => count_desc e =? c)
               (fun e => weight (snd e) =? - c))
      by (intros e; unfold count_desc;
          destruct (Z.eqb_spec (- weight (snd e)) c),
                   (Z.eqb_spec (weight (snd e)) (- c)); (reflexivity || lia)).
    symmetry. apply Hs.
  - apply (ordered_by_unique count_asc entries); [exact Ha|].
    split; [exact Sa|]. intros c. rewrite Fa. symmetry. apply Hs.
Qed.

Lemma sorted_same_tie_order entries entries' :
  numeric entries -> numeric entries' ->
  Array_sort by_count_asc entries = Array_sort by_count_asc entries' ->
  same_tie_order entries entries'.
Proof.
  intros Hn Hn' E c.
  destruct (numeric_sorted _ Hn) as [_ [_ Fa]].
  destruct (numeric_sorted _ Hn') as [_ [_ Fa']].
  specialize (Fa c). specialize (Fa' c). unfold count_asc in Fa, Fa'.
  now rewrite <- Fa, <- Fa', E.
Qed.

Lemma NoDup_entries {V : Type} (o : Obj V) :
  NoDup (map fst o) -> NoDup (Object_entries o).
Proof.
  intros H. eapply Permutation_NoDup.
  - symmetry. apply Object_entries_Permutation.
  - now apply NoDup_map_inv in H.
Qed.

(** Without ties every count has one entry at most, so the order of arrival
    has nothing to decide. *)
Lemma no_ties_same_tie_order (o o' : Obj tally) :
  NoDup (map fst o) -> NoDup (map fst o') ->
  (forall k, get k o = get k o') ->
  numeric (Object_entries o) -> no_ties o ->
  same_tie_order (Object_entries o) (Object_entries o').
Proof.
  intros Hnd Hnd' Hget Hn Hno c.
  pose proof (entries_Permutation o o' Hnd Hnd' Hget) as Hp.
  apply (Permutation_filter (fun e => weight (snd e) =? c)) in Hp.
  assert (Hone : forall a b,
             In a (filter (fun e => weight (snd e) =? c) (Object_entries o)) ->
             In b (filter (fun e => weight (snd e) =? c) (Object_entries o)) ->
             a = b).
  { intros a b Ha Hb. apply filter_In in Ha, Hb.
    destruct Ha as [Ha Wa], Hb as [Hb Wb].
    apply Z.eqb_eq in Wa, Wb.
    unfold numeric in Hn. rewrite Forall_forall in Hn.
    pose proof (Hn a Ha) as Na. pose proof (Hn b Hb) as Nb.
    destruct a as [ka va], b as [kb vb]. simpl in *.
    assert (E : va = vb) by congruence. subst vb.
    apply (Object_entries_get o ka va Hnd) in Ha.
    apply (Object_entries_get o kb va Hnd) in Hb.
    now rewrite (Hno ka kb va Ha Hb). }
  assert (Hnd1 : NoDup (filter (fun e => weight (snd e) =? c) (Object_entries o))).
  { apply NoDup_filter. now apply NoDup_entries. }
  destruct (filter (fun e => weight (snd e) =? c) (Object_entries o))
    as [|a [|b rest]].
  - apply Permutation_nil in Hp. now rewrite Hp.
  - apply Permutation_length_1_inv in Hp. now rewrite Hp.
  - exfalso. inversion Hnd1 as [|? ? Hnot _]; subst. apply Hnot.
    rewrite (Hone a b); [now left|now left|right; now left].
Qed.

Lemma by_rating_asc_key (a b : string * Z) :
  rating_key (fst a) -> rating_key (fst b) ->
  by_rating_asc a b = rating_of a - rating_of b.
Proof.
  intros [ra [_ Ea]] [rb [_ Eb]]. unfold by_rating_asc, rating_of.
  now rewrite Ea, Eb, !parseInt_Number_toString.
Qed.

Lemma ratingDistribution_Permutation (o o' : Obj Z) :
  NoDup (map fst o) -> NoDup (map fst o') ->
  Forall rating_key (map fst o) -> Forall rating_key (map fst o') ->
  (forall k, get k o = get k o') ->
  Array_sort by_rating_asc (Object_entries o) =
  Array_sort by_rating_asc (Object_entries o').
Proof.
  intros Hnd Hnd' Hk Hk' Hget.
  rewrite Forall_forall in Hk, Hk'.
  assert (He : forall (p : Obj Z), (forall k, In k (map fst p) -> rating_key k) ->
             forall e, In e (Object_entries p) -> rating_key (fst e)).
  { intros p Hp e He. apply Hp. apply in_map.
    eapply Permutation_in; [apply Object_entries_Permutation|exact He]. }
  rewrite (Array_sort_ext by_rating_asc (fun a b => rating_of a - rating_of b)
             (Object_entries o))
    by (intros; apply by_rating_asc_key; now apply (He o Hk)).
  rewrite (Array_sort_ext by_rating_asc (fun a b => rating_of a - rating_of b)
             (Object_entries o'))
    by (intros; apply by_rating_asc_key; now apply (He o' Hk')).
  apply (Array_sort_Permutation_eq _ rating_of); [reflexivity| |].
  - apply entries_inj; [exact Hnd|].
    intros a b Ha Hb E.
    destruct (Hk (fst a) (in_map fst _ _ Ha)) as [ra [_ Ea]].
    destruct (Hk (fst b) (in_map fst _ _ Hb)) as [rb [_ Eb]].
    unfold rating_of in E.
    rewrite Ea, Eb, !parseInt_Number_toString in E. congruence.
  - now apply entries_Permutation.
Qed.

Lemma lastAttempt_is_max l s :
  In s l ->
  exists st,
    get (problemKey s) (Analysis.problemStats (analyzeSubmissions l)) = Some st /\
    is_max (Stats.lastAttempt st)
      (map Submission.creationTimeSeconds (submissions_of (problemKey s) l)).
Proof.
  intros Hin. unfold analyzeSubmissions; cbn [Analysis.problemStats].
  rewrite get_Object_fromEntries by apply problemStats_NoDup.
  pose proof (problemStats_spec (problemKey s) l) as H. unfold Map_get in H.
  rewrite H. unfold stats_of.
  pose proof (attempts_of_In s l Hin) as Hatt. unfold attempts_of in Hatt.
  destruct (submissions_of (problemKey s) l) as [|s0 rest];
    [simpl in Hatt; lia|].
  eexists. split; [reflexivity|]. cbn [Stats.lastAttempt].
  apply fold_max_is_max.
Qed.

(** *** The tags that have an average accuracy *)

Lemma has_entry_set {V : Type} t k (v : V) o :
  has_entry t (set k v o) <-> has_entry t o \/ t = k.
Proof.
  unfold has_entry. rewrite get_set. destruct (String.eqb_spec t k) as [->|Hne].
  - split; [auto|]. intros _. now exists v.
  - split; [auto|]. intros [H|H]; [exact H|contradiction].
Qed.

Lemma has_entry_nil {V : Type} t : ~ has_entry t ([] : Obj V).
Proof. intros [v H]. discriminate H. Qed.

Lemma has_entry_keys {V : Type} t (o : Obj V) :
  has_entry t o <-> In t (map fst o).
Proof.
  unfold has_entry. split.
  - intros [v H]. exact (get_In_keys _ _ _ H).
  - intros H. destruct (get t o) as [v|] eqn:E; [now exists v|].
    apply get_None_keys in E. contradiction.
Qed.

Lemma has_entry_add_accuracy1 t accuracy tag o :
  has_entry t (add_accuracy accuracy o tag) <->
  has_entry t o \/ (t = tag /\ inherited tag = false).
Proof.
  unfold add_accuracy. destruct (get tag o) as [e|] eqn:E.
  - rewrite has_entry_set. split.
    + intros [H| ->]; left; [exact H|now exists e].
    + intros [H|[-> _]]; [now left|now right].
  - destruct (inherited tag) eqn:I.
    + split; [auto|]. intros [H|[_ H]]; [exact H|discriminate H].
    + rewrite has_entry_set. split; intros [H|H]; auto. tauto.
Qed.

Lemma has_entry_add_accuracy t accuracy tags : forall o,
  has_entry t (fold_left (add_accuracy accuracy) tags o) <->
  has_entry t o \/ (In t tags /\ inherited t = false).
Proof.
  induction tags as [|tag tags IH]; intros o; simpl; [tauto|].
  rewrite IH, has_entry_add_accuracy1. split.
  - intros [[H|[-> H]]|[H1 H2]]; auto.
  - intros [H|[[->|H1] H2]]; auto.
Qed.

Lemma has_entry_problemAccuracy t problemStats :
  has_entry t (problemAccuracy problemStats) <->
  inherited t = false /\
  exists e, In e problemStats /\ Stats.solved (snd e) = true /\
            In t (Stats.tags (snd e)).
Proof.
  unfold problemAccuracy.
  assert (H : forall o,
             has_entry t
               (fold_left
                  (fun o e =>
                     let stats := snd e in
                     if Stats.solved stats then
                       let accuracy :=
                         (Z2float 1 / Z2float (Stats.attempts stats))%float in
                       fold_left (add_accuracy accuracy) (Stats.tags stats) o
                     else o)
                  problemStats o) <->
             has_entry t o \/
             (inherited t = false /\
              exists e, In e problemStats /\ Stats.solved (snd e) = true /\
                        In t (Stats.tags (snd e)))).
  { induction problemStats as [|e ps IH]; intros o; cbn [fold_left].
    - split; [auto|]. intros [H|[_ [e [[ ] _]]]]. exact H.
    - rewrite IH. cbv zeta. destruct (Stats.solved (snd e)) eqn:Es.
      + rewrite has_entry_add_accuracy. split.
        * intros [[H|[H I]]|[I [e' [Hin H]]]]; [auto| |].
          -- right. split; [exact I|]. exists e. simpl. auto.
          -- right. split; [exact I|]. exists e'. simpl. auto.
        * intros [H|[I [e' [[<-|Hin] [Hs Ht]]]]]; [auto|auto|].
          right. split; [exact I|]. now exists e'.
      + split.
        * intros [H|[I [e' [Hin H]]]]; [auto|].
          right. split; [exact I|]. exists e'. simpl. auto.
        * intros [H|[I [e' [[<-|Hin] [Hs Ht]]]]]; [auto|congruence|].
          right. split; [exact I|]. now exists e'. }
  rewrite H. split; [|auto]. intros [Hn|He]; [|exact He].
  now apply has_entry_nil in Hn.
Qed.

Lemma tagAccuracy_fold t (pa : Obj Accuracy.t) keys : forall o,
  has_entry t
    (fold_left
       (fun o tag =>
          match get tag pa with
          | Some e =>
              set tag (Accuracy.total e / Z2float (Accuracy.count e))%float o
          | None => o
          end)
       keys o) <->
  has_entry t o \/ (In t keys /\ has_entry t pa).
Proof.
  induction keys as [|tag keys IH]; intros o; cbn [fold_left].
  - split; [auto|]. intros [H|[[ ] _]]. exact H.
  - rewrite IH. destruct (get tag pa) as [e|] eqn:E.
    + rewrite has_entry_set. split.
      * intros [[H| ->]|[Hin H]]; [auto| |].
        -- right. split; [now left|now exists e].
        -- right. split; [now right|exact H].
      * intros [H|[[<-|Hin] H]]; auto.
    + split.
      * intros [H|[Hin H]]; [auto|]. right. split; [now right|exact H].
      * intros [H|[[<-|Hin] H]]; [auto| |auto].
        destruct H as [v H]. congruence.
Qed.

Lemma has_entry_tagAccuracy t pa :
  has_entry t (tagAccuracy pa) <-> has_entry t pa.
Proof.
  unfold tagAccuracy. rewrite tagAccuracy_fold. split.
  - intros [H|[_ H]]; [now apply has_entry_nil in H|exact H].
  - intros H. right. split; [|exact H].
    apply has_entry_keys in H. unfold Object_keys.
    eapply Permutation_in; [|exact H].
    apply Permutation_map. symmetry. apply Object_entries_Permutation.
Qed.

Lemma tagAccuracy_NoDup pa : NoDup (map fst (tagAccuracy pa)).
Proof.
  unfold tagAccuracy.
  assert (H : forall keys (o : Obj float),
             NoDup (map fst o) ->
             NoDup (map fst
               (fold_left
                  (fun o tag =>
                     match get tag pa with
                     | Some e =>
                         set tag (Accuracy.total e / Z2float (Accuracy.count e))%float o
                     | None => o
                     end)
                  keys o))).
  { induction keys as [|tag keys IH]; intros o Ho; cbn [fold_left]; [exact Ho|].
    apply IH. destruct (get tag pa); [now apply NoDup_keys_set|exact Ho]. }
  apply H. constructor.
Qed.

(** The solved problems and the tags of their first submission. *)
Lemma solved_stats_entry t l :
  (exists e, In e (Vars.problemStats (forEach l)) /\
             Stats.solved (snd e) = true /\ In t (Stats.tags (snd e))) <->
  exists k s0 rest,
    submissions_of k l = s0 :: rest /\
    existsb accepted (s0 :: rest) = true /\
    In t (submission_tags s0).
Proof.
  split.
  - intros [[k st] [Hin [Hs Ht]]]. simpl in Hs, Ht.
    apply In_get in Hin; [|apply problemStats_NoDup].
    pose proof (problemStats_spec k l) as H. unfold Map_get in H.
    rewrite Hin in H. unfold stats_of in H.
    destruct (submissions_of k l) as [|s0 rest] eqn:E; [discriminate H|].
    injection H as ->. exists k, s0, rest. auto.
  - intros (k & s0 & rest & E & Hs & Ht).
    pose proof (problemStats_spec k l) as H. unfold Map_get, stats_of in H.
    rewrite E in H. apply get_Some_In in H.
    eexists. split; [exact H|]. simpl. auto.
Qed.

Lemma submission_tags_metadata s s' :
  metadata s = metadata s' -> submission_tags s = submission_tags s'.
Proof. unfold metadata, submission_tags. now intros [= -> _]. Qed.

(** With consistent metadata, the tags of the first accepted submissions
    are the tags of the first submissions of the solved problems. *)
Lemma solved_tags_consistent meta t l :
  consistent meta l ->
  (exists s, In s (first_accepted l) /\ In t (submission_tags s)) <->
  exists k s0 rest,
    submissions_of k l = s0 :: rest /\
    existsb accepted (s0 :: rest) = true /\
    In t (submission_tags s0).
Proof.
  intros Hc.
  assert (Hsame : forall s s', In s l -> In s' l -> problemKey s = problemKey s' ->
                               submission_tags s = submission_tags s').
  { intros s s' Hs Hs' Hk. apply submission_tags_metadata.
    now rewrite (Hc s Hs), (Hc s' Hs'), Hk. }
  split.
  - intros [s [Hs Ht]]. apply first_accepted_In in Hs. destruct Hs as [Hin Hok].
    assert (Hsub : In s (submissions_of (problemKey s) l)).
    { apply filter_In. split; [exact Hin|]. now apply has_key_true. }
    destruct (submissions_of (problemKey s) l) as [|s0 rest] eqn:E; [contradiction|].
    exists (problemKey s), s0, rest. split; [exact E|]. split.
    + apply existsb_exists. now exists s.
    + assert (H0 : In s0 (submissions_of (problemKey s) l)) by (rewrite E; now left).
      apply submissions_of_In in H0. destruct H0 as [H0 Hk].
      now rewrite (Hsame s0 s H0 Hin Hk).
  - intros (k & s0 & rest & E & Hok & Ht).
    apply existsb_exists in Hok. destruct Hok as [s' [Hs' Hok]].
    rewrite <- E in Hs'. apply submissions_of_In in Hs'. destruct Hs' as [Hin' Hk'].
    assert (H0 : In s0 (submissions_of k l)) by (rewrite E; now left).
    apply submissions_of_In in H0. destruct H0 as [H0 Hk0].
    assert (Hk : In k (map problemKey (first_accepted l))).
    { apply first_accepted_keys. rewrite <- Hk'. apply in_map.
      apply filter_In. now split. }
    apply in_map_iff in Hk. destruct Hk as [s [Hks Hs]].
    exists s. split; [exact Hs|].
    apply first_accepted_In in Hs. destruct Hs as [Hin _].
    rewrite (Hsame s s0 Hin H0); [exact Ht|congruence].
Qed.

(** With consistent metadata, [tagAccuracy] has an entry for the tags of
    solved problems that name no inherited member. *)
Lemma tagAccuracy_entry meta t l :
  consistent meta l ->
  has_entry t (Analysis.tagAccuracy (analyzeSubmissions l)) <->
  inherited t = false /\ In t (solved_tags l).
Proof.
  intros Hc. unfold analyzeSubmissions; cbn [Analysis.tagAccuracy].
  rewrite has_entry_tagAccuracy, has_entry_problemAccuracy, solved_stats_entry.
  rewrite <- (solved_tags_consistent meta t l Hc).
  unfold solved_tags. now rewrite in_flat_map.
Qed.

(** C2 (amended). Let [shuffled] be a permutation of [submissions].  The
    two analyses have the same counters, the same mappings [languages] and
    [verdicts] (key by key) and the same attempts per problem; and whatever
    the order of arrival, [lastAttempt] of a problem is the largest
    timestamp of its submissions.  When every submission carries the
    metadata of its problem, they also have the same mappings [solvedByTag]
    and [solvedByRating], the same per-problem records, the same
    [ratingDistribution] and [highestSolvedRating].  When moreover no tag
    counted is the name of a member inherited from [Object.prototype],
    [topTags] and [weakTags] are the same as soon as the tags with equal
    counts are enumerated in the same order by both mappings, which is so
    when no two tags have the same count; likewise for [topLanguages] and
    the languages.  [tagAccuracy] has an average for the same tags; the
    averages themselves, which come from sums of floating-point numbers
    taken in the order of arrival, and the order of the keys of a mapping
    are not part of the statement. *)
Theorem C2_order_independence
  (meta : string -> option (list string) * option Z)
  (submissions shuffled : list Submission.t) :
  Permutation submissions shuffled ->
  let a := analyzeSubmissions submissions in
  let a' := analyzeSubmissions shuffled in
  let tags := Object_entries (Analysis.solvedByTag a) in
  let tags' := Object_entries (Analysis.solvedByTag a') in
  let langs := Object_entries (Analysis.languages a) in
  let langs' := Object_entries (Analysis.languages a') in
  Analysis.totalProblemsSolved a = Analysis.totalProblemsSolved a' /\
  Analysis.totalSubmissions a = Analysis.totalSubmissions a' /\
  Analysis.totalAccepted a = Analysis.totalAccepted a' /\
  Analysis.totalAttempts a = Analysis.totalAttempts a' /\
  Analysis.maxAttempts a = Analysis.maxAttempts a' /\
  (forall k, get k (Analysis.languages a) = get k (Analysis.languages a')) /\
  (forall k, get k (Analysis.verdicts a) = get k (Analysis.verdicts a')) /\
  (forall k, get k (Analysis.attemptsPerProblem a) =
             get k (Analysis.attemptsPerProblem a')) /\
  (forall s, In s submissions ->
     exists st,
       get (problemKey s) (Analysis.problemStats a') = Some st /\
       is_max (Stats.lastAttempt st)
         (map Submission.creationTimeSeconds
            (submissions_of (problemKey s) submissions))) /\
  (plain (map Submission.programmingLanguage submissions) ->
     (same_tie_order langs langs' ->
      Analysis.topLanguages a = Analysis.topLanguages a') /\
     (no_ties (Analysis.languages a) -> same_tie_order langs langs')) /\
  (consistent meta submissions ->
     (forall k, get k (Analysis.solvedByTag a) = get k (Analysis.solvedByTag a')) /\
     (forall k, get k (Analysis.solvedByRating a) =
                get k (Analysis.solvedByRating a')) /\
     (forall k, get k (Analysis.problemStats a) = get k (Analysis.problemStats a')) /\
     Analysis.ratingDistribution a = Analysis.ratingDistribution a' /\
     Analysis.highestSolvedRating a = Analysis.highestSolvedRating a' /\
     (forall t, has_entry t (Analysis.tagAccuracy a) <->
                has_entry t (Analysis.tagAccuracy a')) /\
     (plain (solved_tags submissions) ->
        (same_tie_order tags tags' ->
         Analysis.topTags a = Analysis.topTags a' /\
         Analysis.weakTags a = Analysis.weakTags a') /\
        (no_ties (Analysis.solvedByTag a) -> same_tie_order tags tags'))).
Proof.
  intros Hp. cbv zeta.
  split.
  { rewrite !totalProblemsSolved_spec. f_equal.
    rewrite <- !(length_map problemKey).
    now apply Permutation_length, first_accepted_Permutation. }
  split.
  { unfold analyzeSubmissions; cbn [Analysis.totalSubmissions].
    f_equal. now apply Permutation_length. }
  split.
  { unfold analyzeSubmissions; cbn [Analysis.totalAccepted].
    rewrite !totalAccepted_spec. f_equal.
    now apply Permutation_length, Permutation_filter. }
  split.
  { unfold analyzeSubmissions; cbn [Analysis.totalAttempts].
    rewrite !totalAttempts_spec. f_equal. now apply Permutation_length. }
  split.
  { unfold analyzeSubmissions; cbn [Analysis.maxAttempts].
    eapply is_max_attempts_Permutation;
      [exact Hp|apply maxAttempts_spec|apply maxAttempts_spec]. }
  split; [now apply languages_Permutation|].
  split; [now apply verdicts_Permutation|].
  split.
  { intros k. unfold analyzeSubmissions; cbn [Analysis.attemptsPerProblem].
    rewrite !get_Object_fromEntries by apply attemptsPerProblem_NoDup.
    now apply attemptsPerProblem_Permutation. }
  split.
  { intros s Hs.
    destruct (lastAttempt_is_max shuffled s) as [st [Hget Hmax]].
    { eapply Permutation_in; [exact Hp|exact Hs]. }
    exists st. split; [exact Hget|].
    destruct Hmax as [Hin Hall]. split.
    - eapply Permutation_in; [|exact Hin].
      apply Permutation_map, Permutation_filter. now symmetry.
    - eapply Permutation_Forall; [|exact Hall].
      apply Permutation_map, Permutation_filter. now symmetry. }
  split.
  { intros Hpl.
    assert (Hpl' : plain (map Submission.programmingLanguage shuffled)).
    { eapply Permutation_Forall; [|exact Hpl]. now apply Permutation_map. }
    unfold analyzeSubmissions;
      cbn [Analysis.topLanguages Analysis.languages].
    rewrite !languages_tally. split.
    - intros Hs.
      destruct (same_tie_order_sorted _ _ (plain_numeric _ Hpl)
                  (plain_numeric _ Hpl') Hs) as [Hd _].
      now rewrite Hd.
    - intros Hno.
      apply no_ties_same_tie_order;
        [apply tally_of_NoDup|apply tally_of_NoDup| |now apply plain_numeric
        |exact Hno].
      intros k. now apply tally_of_Permutation, Permutation_map. }
  intros Hc.
  assert (Hrd : Analysis.ratingDistribution (analyzeSubmissions submissions) =
                Analysis.ratingDistribution (analyzeSubmissions shuffled)).
  { unfold analyzeSubmissions; cbn [Analysis.ratingDistribution].
    apply ratingDistribution_Permutation;
      try apply solvedByRating_NoDup; try apply solvedByRating_keys.
    now apply (solvedByRating_Permutation meta). }
  split; [now apply (solvedByTag_Permutation meta)|].
  split; [now apply (solvedByRating_Permutation meta)|].
  split.
  { intros k. unfold analyzeSubmissions; cbn [Analysis.problemStats].
    rewrite !get_Object_fromEntries by apply problemStats_NoDup.
    pose proof (problemStats_spec k submissions) as H1.
    pose proof (problemStats_spec k shuffled) as H2.
    unfold Map_get in H1, H2. rewrite H1, H2.
    now apply (stats_of_Permutation meta). }
  split; [exact Hrd|].
  split.
  { unfold analyzeSubmissions in *;
      cbn [Analysis.highestSolvedRating Analysis.ratingDistribution] in *.
    now rewrite Hrd. }
  split.
  { intros t.
    rewrite (tagAccuracy_entry meta t submissions Hc).
    rewrite (tagAccuracy_entry meta t shuffled
               (consistent_Permutation _ _ _ Hp Hc)).
    rewrite !(count_occ_In string_dec).
    now rewrite (solved_tags_Permutation meta _ _ t Hp Hc). }
  intros Hpl.
  pose proof (plain_solved_tags_Permutation meta _ _ Hp Hc Hpl) as Hpl'.
  unfold analyzeSubmissions;
    cbn [Analysis.topTags Analysis.weakTags Analysis.solvedByTag].
  pose proof (solvedByTag_Permutation meta _ _ Hp Hc) as Hget.
  rewrite !solvedByTag_tally in *. split.
  - intros Hs.
    destruct (same_tie_order_sorted _ _ (plain_numeric _ Hpl)
                (plain_numeric _ Hpl') Hs) as [Hd Ha].
    now rewrite Hd, Ha.
  - intros Hno.
    apply no_ties_same_tie_order;
      [apply tally_of_NoDup|apply tally_of_NoDup|exact Hget
      |now apply plain_numeric|exact Hno].
Qed.

(** C2, as stated, fails, and each condition of the amended statement is
    needed.  Two solved problems with one tag each, in the two orders of
    arrival, give different [topTags] and [weakTags]: the counts tie.  Two
    accepted submissions of one problem that carry different tags give
    different [solvedByTag].  Two solved problems tagged [constructor] and
    one tagged [dp] give different [topTags] although nothing ties: the
    text under [constructor] is not a number, and the sort leaves the
    entries in the order of arrival.  Three solved problems, one of
    them at the third attempt, give averages in [tagAccuracy] that differ
    in the last binary digit. *)
Lemma C2_counterexample :
  (Permutation shuffle_example shuffle_example' /\
   Analysis.topTags (analyzeSubmissions shuffle_example)
     = [("dp", Count 1); ("graphs", Count 1)] /\
   Analysis.topTags (analyzeSubmissions shuffle_example')
     = [("graphs", Count 1); ("dp", Count 1)] /\
   Analysis.weakTags (analyzeSubmissions shuffle_example)
     <> Analysis.weakTags (analyzeSubmissions shuffle_example') /\
   analyzeSubmissions shuffle_example <> analyzeSubmissions shuffle_example') /\
  (Permutation retagged_pair retagged_pair' /\
   get "dp" (Analysis.solvedByTag (analyzeSubmissions retagged_pair))
     = Some (Count 1) /\
   get "dp" (Analysis.solvedByTag (analyzeSubmissions retagged_pair')) = None) /\
  (Permutation native_example native_example' /\
   consistent native_meta native_example /\
   no_ties (Analysis.solvedByTag (analyzeSubmissions native_example)) /\
   Analysis.topTags (analyzeSubmissions native_example)
     = [("constructor", Native "constructor" 2); ("dp", Count 1)] /\
   Analysis.topTags (analyzeSubmissions native_example')
     = [("dp", Count 1); ("constructor", Native "constructor" 2)]) /\
  (Permutation accuracy_example accuracy_example' /\
   match get "dp" (Analysis.tagAccuracy (analyzeSubmissions accuracy_example)),
         get "dp" (Analysis.tagAccuracy (analyzeSubmissions accuracy_example'))
   with
   | Some x, Some y => (y <? x)%float = true
   | _, _ => False
   end).
Proof.
  split; [|split; [|split]].
  - split; [apply perm_swap|].
    split; [reflexivity|]. split; [reflexivity|].
    split; [discriminate|].
    intros H. apply (f_equal Analysis.topTags) in H. discriminate.
  - split; [apply perm_swap|]. split; reflexivity.
  - split.
    { unfold native_example, native_example'.
      apply Permutation_sym, (Permutation_cons_app [_; _] []). reflexivity. }
    split; [intros s [<-|[<-|[<-|[ ]]]]; reflexivity|].
    split; [|split; reflexivity].
    assert (E : Analysis.solvedByTag (analyzeSubmissions native_example) =
                [("constructor", Native "constructor" 2); ("dp", Count 1)])
      by reflexivity.
    rewrite E. intros k k' c H H'.
    apply get_Some_In in H, H'. simpl in H, H'.
    destruct H as [H|[H|[ ]]], H' as [H'|[H'|[ ]]];
      inversion H; inversion H'; subst; try reflexivity; discriminate.
  - split; [|vm_compute; reflexivity].
    unfold accuracy_example, accuracy_example'.
    apply Permutation_cons; [reflexivity|].
    apply (Permutation_cons_app [_; _; _] []). reflexivity.
Qed.

(** ** Facts about text *)

Lemma append_assoc (a b c : string) : ((a ++ b) ++ c = a ++ b ++ c)%string.
Proof. induction a as [|x a IH]; simpl; [reflexivity|now rewrite IH]. Qed.

Lemma cat_app l1 l2 : cat (l1 ++ l2) = (cat l1 ++ cat l2)%string.
Proof.
  induction l1 as [|p l1 IH]; simpl; [reflexivity|].
  now rewrite IH, append_assoc.
Qed.

Lemma contains_skip p s ps : contains s (cat ps) -> contains s (cat (p :: ps)).
Proof.
  intros [before [after H]]. exists (p ++ before)%string, after.
  simpl. now rewrite H, append_assoc.
Qed.

Lemma contains_cat_prefix m rest : contains (cat m) (cat (m ++ rest)).
Proof. exists EmptyString, (cat rest). now rewrite cat_app. Qed.

Lemma prefix_app s after : String.prefix s (s ++ after) = true.
Proof.
  induction s as [|c s IH]; simpl; [now destruct after|].
  destruct (ascii_dec c c); [exact IH|congruence].
Qed.

Lemma substringb_prefix s text : String.prefix s text = true -> substringb s text = true.
Proof. destruct text; simpl; now intros ->. Qed.

Lemma contains_substringb s text : contains s text -> substringb s text = true.
Proof.
  intros [before [after ->]].
  induction before as [|c before IH].
  - apply substringb_prefix. exact (prefix_app s after).
  - cbn [String.append substringb]. rewrite IH. apply orb_true_r.
Qed.

Lemma prefix_split s : forall text,
  String.prefix s text = true -> exists after, text = (s ++ after)%string.
Proof.
  induction s as [|c s IH]; intros text H.
  - exists text. reflexivity.
  - destruct text as [|d text]; [discriminate|]. simpl in H.
    destruct (ascii_dec c d) as [->|]; [|discriminate].
    destruct (IH _ H) as [after ->]. now exists after.
Qed.

Lemma contains_substringb_complete s text :
  substringb s text = true -> contains s text.
Proof.
  induction text as [|c text IH]; cbn [substringb]; intros H.
  - rewrite orb_false_r in H. apply prefix_split in H.
    destruct H as [after H]. now exists EmptyString, after.
  - apply orb_true_iff in H. destruct H as [H|H].
    + apply prefix_split in H. destruct H as [after H].
      now exists EmptyString, after.
    + destruct (IH H) as [before [after ->]].
      now exists (String c before), after.
Qed.

Lemma forEach_text_ext {A : Type} (f g : nat -> A -> string) l : forall i,
  (forall j x, In x l -> f j x = g j x) ->
  forEach_text f i l = forEach_text g i l.
Proof.
  induction l as [|x l IH]; intros i H; simpl; [reflexivity|].
  rewrite (H i x) by now left. f_equal. apply IH. intros; apply H; now right.
Qed.

(** Finds a run of consecutive pieces in a text made of pieces. *)
Ltac find_pieces m :=
  repeat first [ apply (contains_cat_prefix m) | apply contains_skip ].

(** ** Properties of the synthesizers *)

Lemma percentage_0_0 : toFixed 1 (percentage 0 0) = "NaN".
Proof. reflexivity. Qed.

(** C1. With [totalSubmissions = 0] and [totalAccepted = 0] the quotient is
    computed all the same by [generateCodeforcesPrompt] and by
    [generateFallbackRecommendations], and the text reads "NaN%"; only
    [generateCodeforcesFallback] tests the denominator and prints "0%".
    The language percentages of the prompt divide by [totalSubmissions]
    unguarded as well: a count of 3 over no submission prints "Infinity%". *)
Theorem C1_zero_denominator_not_guarded
  (inherited_text : string -> string)
  (handle : string) (userData : UserData.t) (analysis : Analysis.t) :
  Analysis.totalSubmissions analysis = 0 ->
  Analysis.totalAccepted analysis = 0 ->
  contains ("- Acceptance Rate: NaN%" ++ nl)
    (generateCodeforcesPrompt inherited_text handle userData analysis) /\
  contains ("- **Acceptance Rate**: NaN%" ++ nl)
    (generateFallbackRecommendations inherited_text handle userData analysis) /\
  contains ("- **Acceptance Rate**: 0%" ++ nl)
    (generateCodeforcesFallback inherited_text handle userData analysis) /\
  contains ("1. C++: Infinity% of submissions" ++ nl)
    (generateCodeforcesPrompt inherited_text "alice" no_profile skewed_analysis).
Proof.
  intros H0 H1. split; [|split; [|split]].
  - unfold generateCodeforcesPrompt. rewrite H0, H1, percentage_0_0.
    change ("- Acceptance Rate: NaN%" ++ nl)%string
      with (cat ["- Acceptance Rate: "; "NaN"; "%"; nl]).
    cbv zeta. find_pieces ["- Acceptance Rate: "; "NaN"; "%"; nl].
  - unfold generateFallbackRecommendations. rewrite H0, H1, percentage_0_0.
    change ("- **Acceptance Rate**: NaN%" ++ nl)%string
      with (cat ["- **Acceptance Rate**: "; "NaN"; "%"; nl]).
    cbv zeta. find_pieces ["- **Acceptance Rate**: "; "NaN"; "%"; nl].
  - unfold generateCodeforcesFallback. rewrite H0.
    change (0 >? 0) with false. cbv iota.
    change ("- **Acceptance Rate**: 0%" ++ nl)%string
      with (cat ["- **Acceptance Rate**: "; num 0; "%"; nl]).
    cbv zeta. find_pieces ["- **Acceptance Rate**: "; num 0; "%"; nl].
  - apply contains_substringb_complete. reflexivity.
Qed.

Lemma or_number_truthy r d : r <> 0 -> or_number (Some r) d = r.
Proof.
  intros Hr. unfold or_number. destruct (Z.eqb_spec r 0); [contradiction|reflexivity].
Qed.

Lemma first_or_nonempty t rest d : t <> EmptyString -> first_or (t :: rest) d = t.
Proof.
  intros Ht. unfold first_or.
  destruct (String.eqb_spec t ""); [contradiction|reflexivity].
Qed.

(** C7 (amended). For a profile whose rating [r] is present and not zero,
    and an analysis whose first weak tag [t] is not the empty string, both
    fallback synthesizers name the band from [max(800, r - 100)] to
    [r + 100] as the target rating and [t] as the immediate focus. *)
Theorem C7_fallback_band_and_focus
  (inherited_text : string -> string)
  (handle : string) (userData : UserData.t) (analysis : Analysis.t)
  (r : Z) (t : string) (rest : list string) :
  UserData.rating userData = Some r -> r <> 0 ->
  Analysis.weakTags analysis = t :: rest -> t <> EmptyString ->
  let band :=
    ("1. **Target Rating**: Practice problems rated "
     ++ num (Z.max 800 (r - 100)) ++ "-" ++ num (r + 100) ++ nl)%string in
  let focus := ("- **Immediate Focus**: " ++ t ++ " problems" ++ nl)%string in
  contains band
    (generateCodeforcesFallback inherited_text handle userData analysis) /\
  contains focus
    (generateCodeforcesFallback inherited_text handle userData analysis) /\
  contains band
    (generateFallbackRecommendations inherited_text handle userData analysis) /\
  contains focus
    (generateFallbackRecommendations inherited_text handle userData analysis).
Proof.
  intros Hr Hr0 Hw Ht. cbv zeta.
  change ("1. **Target Rating**: Practice problems rated "
          ++ num (Z.max 800 (r - 100)) ++ "-" ++ num (r + 100) ++ nl)%string
    with (cat ["1. **Target Rating**: Practice problems rated ";
               num (Z.max 800 (r - 100)); "-"; num (r + 100); nl]).
  change ("- **Immediate Focus**: " ++ t ++ " problems" ++ nl)%string
    with (cat ["- **Immediate Focus**: "; t; " problems"; nl]).
  unfold generateCodeforcesFallback, generateFallbackRecommendations.
  rewrite Hr, Hw, (or_number_truthy r 1200 Hr0).
  rewrite !(first_or_nonempty t rest _ Ht). cbv zeta. cbn [fst snd].
  repeat split.
  - find_pieces ["1. **Target Rating**: Practice problems rated ";
                 num (Z.max 800 (r - 100)); "-"; num (r + 100); nl].
  - find_pieces ["- **Immediate Focus**: "; t; " problems"; nl].
  - find_pieces ["1. **Target Rating**: Practice problems rated ";
                 num (Z.max 800 (r - 100)); "-"; num (r + 100); nl].
  - find_pieces ["- **Immediate Focus**: "; t; " problems"; nl].
Qed.

(** C7, as stated, fails for a rating that is present and zero: the band
    named is the one of the default rating 1200, not [800, 100].  It also
    fails for a first weak tag that is the empty string: the focus named is
    the default one. *)
Lemma C7_counterexample :
  let out :=
    generateCodeforcesFallback v8_text "alice"
      (UserData.mk (Some 0) None None None) (analysisWithWeakTag "graphs") in
  let out' :=
    generateCodeforcesFallback v8_text "alice" alice (analysisWithWeakTag "") in
  ~ contains ("Practice problems rated " ++ num (Z.max 800 (0 - 100)) ++ "-"
              ++ num (0 + 100) ++ nl) out /\
  contains ("Practice problems rated 1100-1300" ++ nl) out /\
  Analysis.weakTags (analysisWithWeakTag "") = [""] /\
  contains ("- **Immediate Focus**: Graph Theory problems" ++ nl) out'.
Proof.
  split; [|split; [|split]].
  - intros H. apply contains_substringb in H. vm_compute in H. discriminate.
  - apply contains_substringb_complete. reflexivity.
  - reflexivity.
  - apply contains_substringb_complete. reflexivity.
Qed.

(** ** The theorems at sample inputs *)

Lemma C1_witness :
  Analysis.totalSubmissions (analyzeSubmissions []) = 0 /\
  Analysis.totalAccepted (analyzeSubmissions []) = 0 /\
  contains ("- Acceptance Rate: NaN%" ++ nl)
    (generateCodeforcesPrompt v8_text "alice" no_profile (analyzeSubmissions [])).
Proof.
  split; [reflexivity|]. split; [reflexivity|].
  apply (C1_zero_denominator_not_guarded v8_text "alice" no_profile
           (analyzeSubmissions []));
    reflexivity.
Defined.

Lemma order_example_Permutation : Permutation order_example order_example'.
Proof.
  change order_example' with (rev order_example). apply Permutation_rev.
Qed.

Lemma order_example_consistent : consistent order_meta order_example.
Proof. intros s [<-|[<-|[<-|[]]]]; reflexivity. Qed.

Lemma order_example_no_ties :
  no_ties (Analysis.solvedByTag (analyzeSubmissions order_example)) /\
  no_ties (Analysis.languages (analyzeSubmissions order_example)).
Proof.
  split; intros k k' c; vm_compute analyzeSubmissions;
    cbn [Analysis.solvedByTag Analysis.languages get];
    repeat match goal with
           | |- context [String.eqb ?a ?b] => destruct (String.eqb_spec a b)
           end; subst; intros; congruence.
Qed.

Lemma order_example_plain :
  plain (solved_tags order_example) /\
  plain (map Submission.programmingLanguage order_example).
Proof. split; unfold plain; vm_compute; repeat constructor. Qed.

Lemma C2_witness :
  Permutation order_example order_example' /\
  Analysis.ratingDistribution (analyzeSubmissions order_example) =
    Analysis.ratingDistribution (analyzeSubmissions order_example') /\
  Analysis.topTags (analyzeSubmissions order_example) =
    Analysis.topTags (analyzeSubmissions order_example') /\
  Analysis.topLanguages (analyzeSubmissions order_example) =
    Analysis.topLanguages (analyzeSubmissions order_example').
Proof.
  split; [exact order_example_Permutation|].
  pose proof (C2_order_independence order_meta order_example order_example'
                order_example_Permutation) as H.
  cbv zeta in H.
  destruct H as (_ & _ & _ & _ & _ & _ & _ & _ & _ & Hlangs & Hmeta).
  destruct (Hmeta order_example_consistent) as (_ & _ & _ & Hrd & _ & _ & Htags).
  destruct (Htags (proj1 order_example_plain)) as [Hsame Hno].
  destruct (Hlangs (proj2 order_example_plain)) as [Hsame' Hno'].
  split; [exact Hrd|]. split.
  - exact (proj1 (Hsame (Hno (proj1 order_example_no_ties)))).
  - exact (Hsame' (Hno' (proj2 order_example_no_ties))).
Defined.


Lemma C4_witness :
  plain (flat_map submission_tags (first_accepted shuffle_example)) /\
  (forall t, In t (first_seen (flat_map submission_tags
                                 (first_accepted shuffle_example))) ->
             array_index t = None) /\
  map fst (Object_entries (Analysis.solvedByTag (analyzeSubmissions shuffle_example)))
  = first_seen (flat_map submission_tags (first_accepted shuffle_example)).
Proof.
  assert (Hp : plain (flat_map submission_tags (first_accepted shuffle_example))).
  { unfold plain. vm_compute. repeat constructor. }
  assert (Hno : forall t, In t (first_seen (flat_map submission_tags
                                              (first_accepted shuffle_example))) ->
                          array_index t = None).
  { intros t [<-|[<-|[]]]; reflexivity. }
  split; [exact Hp|]. split; [exact Hno|].
  pose proof (C4_topTags_weakTags shuffle_example Hp) as H. cbv zeta in H.
  destruct H as (_ & _ & _ & _ & _ & _ & Hseen). exact (Hseen Hno).
Defined.

Lemma C6_witness :
  (forall s, In s order_example -> accepted s = true -> rated s = true) /\
  sumZ (map snd (Analysis.solvedByRating (analyzeSubmissions order_example))) =
    Analysis.totalProblemsSolved (analyzeSubmissions order_example).
Proof.
  assert (Hall : forall s, In s order_example -> accepted s = true -> rated s = true).
  { intros s [<-|[<-|[<-|[]]]] _; reflexivity. }
  split; [exact Hall|].
  exact (proj2 (C6_solvedByRating_sum order_example) Hall).
Defined.

Lemma C7_witness :
  UserData.rating alice = Some 1400 /\ 1400 <> 0 /\
  Analysis.weakTags (analysisWithWeakTag "graphs") = ["graphs"] /\
  "graphs" <> EmptyString /\
  contains ("1. **Target Rating**: Practice problems rated 1300-1500" ++ nl)
    (generateCodeforcesFallback v8_text "alice" alice
       (analysisWithWeakTag "graphs")) /\
  contains ("- **Immediate Focus**: graphs problems" ++ nl)
    (generateCodeforcesFallback v8_text "alice" alice
       (analysisWithWeakTag "graphs")).
Proof.
  split; [reflexivity|]. split; [discriminate|].
  split; [reflexivity|]. split; [discriminate|].
  pose proof (C7_fallback_band_and_focus v8_text "alice" alice
                (analysisWithWeakTag "graphs") 1400 "graphs" []
                eq_refl ltac:(discriminate) eq_refl ltac:(discriminate)) as H.
  cbv zeta in H. destruct H as (Hband & Hfocus & _). split; assumption.
Defined.

Lemma C9_witness :
  In retry_wrong [retry_wrong] /\
  exists st st',
    Map_get (problemKey retry_wrong) (Vars.problemStats (forEach [retry_wrong]))
      = Some st /\
    1 <= Stats.attempts st /\
    Map_get (problemKey retry_wrong)
      (Vars.problemStats (forEach ([retry_wrong] ++ [retry_ok]))) = Some st' /\
    (Stats.solved st = true -> Stats.solved st' = true) /\
    Stats.attempts st <= Stats.attempts st'.
Proof.
  split; [now left|].
  apply (C9_attempt_state_invariant [retry_wrong] [retry_ok] retry_wrong).
  now left.
Defined.

(** ** Further properties of the analyzer *)

Lemma length_filter_map {A B : Type} (f : A -> B) (p : B -> bool) l :
  List.length (filter p (map f l)) = List.length (filter (fun x => p (f x)) l).
Proof.
  induction l as [|x l IH]; [reflexivity|]. simpl.
  destruct (p (f x)); simpl; now rewrite IH.
Qed.

Lemma plain_filter keys :
  plain keys -> filter (fun k => negb (inherited k)) keys = keys.
Proof.
  induction 1 as [|k keys Hk _ IH]; [reflexivity|]. simpl.
  now rewrite Hk, IH.
Qed.

Lemma first_by_length {A : Type} (key : A -> string) l :
  (List.length (first_by key l) <= List.length l)%nat.
Proof.
  induction l as [|a l IH] using rev_ind; [reflexivity|].
  rewrite first_by_snoc, !length_app.
  destruct (existsb _ l); simpl; lia.
Qed.

Lemma filter_length_le {A : Type} (f : A -> bool) l :
  (List.length (filter f l) <= List.length l)%nat.
Proof. induction l as [|x l IH]; simpl; [lia|]. destruct (f x); simpl; lia. Qed.

(** X1. The count of a language that is not the name of a member
    inherited from [Object.prototype] is the number of submissions written
    in it, and likewise for a verdict.  The numbers that [languages] holds
    add up to the number of submissions whose language is no such name, so
    they add up to [totalSubmissions] when no language is one; likewise for
    [verdicts].  Nothing is ever stored under [__proto__]. *)
Theorem X1_languages_partition (submissions : list Submission.t) :
  let a := analyzeSubmissions submissions in
  let named (f : Submission.t -> string) :=
    filter (fun s => negb (inherited (f s))) submissions in
  (forall k, inherited k = false ->
     get0 k (Analysis.languages a) =
     Count (count_by Submission.programmingLanguage k submissions)) /\
  (forall k, inherited k = false ->
     get0 k (Analysis.verdicts a) =
     Count (count_by Submission.verdict k submissions)) /\
  total_count (Analysis.languages a) =
    Z.of_nat (List.length (named Submission.programmingLanguage)) /\
  total_count (Analysis.verdicts a) =
    Z.of_nat (List.length (named Submission.verdict)) /\
  (plain (map Submission.programmingLanguage submissions) ->
   total_count (Analysis.languages a) = Analysis.totalSubmissions a) /\
  (plain (map Submission.verdict submissions) ->
   total_count (Analysis.verdicts a) = Analysis.totalSubmissions a) /\
  get "__proto__" (Analysis.languages a) = None /\
  get "__proto__" (Analysis.verdicts a) = None.
Proof.
  cbv zeta. unfold analyzeSubmissions;
    cbn [Analysis.languages Analysis.verdicts Analysis.totalSubmissions].
  split; [intros k; apply languages_spec|].
  split; [intros k; apply verdicts_spec|].
  rewrite languages_tally, verdicts_tally, !total_count_tally_of.
  split; [now rewrite length_filter_map|].
  split; [now rewrite length_filter_map|].
  split; [intros H; now rewrite (plain_filter _ H), length_map|].
  split; [intros H; now rewrite (plain_filter _ H), length_map|].
  split; now rewrite get_tally_of.
Qed.

(** X2. [totalAccepted] is the count that [verdicts] holds for "OK", and
    the counters are ordered: solved problems, accepted submissions, all
    submissions. *)
Theorem X2_counters_ordered (submissions : list Submission.t) :
  let a := analyzeSubmissions submissions in
  get0 "OK" (Analysis.verdicts a) = Count (Analysis.totalAccepted a) /\
  0 <= Analysis.totalProblemsSolved a /\
  Analysis.totalProblemsSolved a <= Analysis.totalAccepted a /\
  Analysis.totalAccepted a <= Analysis.totalSubmissions a.
Proof.
  cbv zeta. rewrite totalProblemsSolved_spec.
  unfold analyzeSubmissions;
    cbn [Analysis.verdicts Analysis.totalAccepted Analysis.totalSubmissions].
  rewrite (verdicts_spec "OK" _ eq_refl), totalAccepted_spec.
  split; [reflexivity|]. split; [lia|]. split.
  - apply inj_le. apply first_by_length.
  - apply inj_le. apply filter_length_le.
Qed.

Lemma In_firstn {A : Type} (x : A) n l : In x (firstn n l) -> In x l.
Proof. intros H. rewrite <- (firstn_skipn n l). apply in_or_app. now left. Qed.

Lemma set_new {V : Type} k (v : V) (o : Obj V) :
  get k o = None -> set k v o = o ++ [(k, v)].
Proof.
  induction o as [|[k1 v1] o IH]; simpl; [reflexivity|].
  destruct (String.eqb_spec k k1); [discriminate|].
  intros H. now rewrite IH.
Qed.

Lemma fold_set_app {V : Type} (m : list (string * V)) : forall acc,
  NoDup (map fst (acc ++ m)) ->
  fold_left (fun o e => set (fst e) (snd e) o) m acc = acc ++ m.
Proof.
  induction m as [|[k v] m IH]; intros acc Hnd; simpl.
  - now rewrite app_nil_r.
  - rewrite set_new.
    + rewrite IH; rewrite <- app_assoc; [reflexivity|exact Hnd].
    + apply get_None_keys. rewrite map_app in Hnd. simpl in Hnd.
      apply NoDup_remove_2 in Hnd. intros Hin. apply Hnd.
      apply in_or_app. now left.
Qed.

(** A [Map] whose keys are strings is turned into the object with the same
    entries, in the same order. *)
Lemma Object_fromEntries_id {V : Type} (m : list (string * V)) :
  NoDup (map fst m) -> Object_fromEntries m = m.
Proof. intros Hnd. unfold Object_fromEntries. now rewrite fold_set_app. Qed.

Lemma attemptsPerProblem_count k l :
  match get k (Vars.attemptsPerProblem (forEach l)) with
  | Some c => c
  | None => 0
  end = attempts_of k l.
Proof.
  pose proof (attemptsPerProblem_spec k l) as H.
  unfold Map_get in H. rewrite H.
  destruct (stats_of k l) as [st|] eqn:E; simpl.
  - now apply attempts_of_stats.
  - symmetry. now apply stats_of_None.
Qed.

Lemma attemptsPerProblem_sum l :
  sumZ (map snd (Vars.attemptsPerProblem (forEach l))) = Z.of_nat (List.length l).
Proof.
  induction l as [|s l IH] using rev_ind; [reflexivity|].
  rewrite forEach_snoc, (proj1 (proj2 (forEach_body_stats l s))).
  cbv zeta. unfold Map_set. rewrite sumZ_set, IH, attemptsPerProblem_count.
  rewrite loop_attempts, length_app. simpl List.length. lia.
Qed.

Lemma attempts_of_le k l : attempts_of k l <= Z.of_nat (List.length l).
Proof. unfold attempts_of, submissions_of. apply inj_le, filter_length_le. Qed.

Lemma attempts_of_absent k l :
  ~ In k (map problemKey l) -> attempts_of k l = 0.
Proof.
  intros H. unfold attempts_of, submissions_of.
  assert (E : filter (same_problem k) l = []).
  { induction l as [|s l IH]; [reflexivity|]. simpl.
    destruct (same_problem k s) eqn:Es.
    - exfalso. apply H. left. now apply has_key_true in Es.
    - apply IH. intros Hin. apply H. now right. }
  now rewrite E.
Qed.

(** X3. [maxAttempts] is the largest number of submissions that one problem
    received (0 without submissions, at least 1 otherwise, at most
    [totalSubmissions]).  [attemptsPerProblem] holds for every problem of the
    list the number of its submissions and nothing else, and these numbers
    add up to [totalSubmissions]. *)
Theorem X3_attempts_per_problem (submissions : list Submission.t) :
  let a := analyzeSubmissions submissions in
  (forall s, In s submissions ->
     attempts_of (problemKey s) submissions <= Analysis.maxAttempts a) /\
  ((submissions = [] /\ Analysis.maxAttempts a = 0) \/
   exists s, In s submissions /\
             attempts_of (problemKey s) submissions = Analysis.maxAttempts a /\
             1 <= Analysis.maxAttempts a) /\
  Analysis.maxAttempts a <= Analysis.totalSubmissions a /\
  (forall s, In s submissions ->
     get (problemKey s) (Analysis.attemptsPerProblem a) =
     Some (attempts_of (problemKey s) submissions)) /\
  (forall k, ~ In k (map problemKey submissions) ->
     get k (Analysis.attemptsPerProblem a) = None) /\
  sumZ (map snd (Analysis.attemptsPerProblem a)) = Analysis.totalSubmissions a.
Proof.
  cbv zeta. unfold analyzeSubmissions;
    cbn [Analysis.maxAttempts Analysis.attemptsPerProblem Analysis.totalSubmissions].
  rewrite Object_fromEntries_id by apply attemptsPerProblem_NoDup.
  destruct (maxAttempts_spec submissions) as [Hub Hatt].
  split; [exact Hub|]. split.
  { destruct Hatt as [H|[s [Hs Hm]]]; [now left|right].
    exists s. split; [exact Hs|]. split; [exact Hm|].
    rewrite <- Hm. now apply attempts_of_In. }
  split.
  { destruct Hatt as [[-> ->]|[s [Hs <-]]]; [simpl; lia|apply attempts_of_le]. }
  split.
  { intros s Hs. pose proof (attemptsPerProblem_spec (problemKey s) submissions) as H.
    unfold Map_get in H. rewrite H.
    pose proof (attempts_of_In s submissions Hs) as H1.
    destruct (stats_of (problemKey s) submissions) as [st|] eqn:E; simpl.
    - f_equal. now apply attempts_of_stats.
    - apply stats_of_None in E. lia. }
  split; [|apply attemptsPerProblem_sum].
  intros k Hk. pose proof (attemptsPerProblem_spec k submissions) as H.
  unfold Map_get in H. rewrite H.
  apply attempts_of_absent in Hk. apply stats_of_None in Hk. now rewrite Hk.
Qed.

(** X4. The record that [problemStats] holds for a problem: none when the
    problem has no submission; otherwise [solved] tells whether one of its
    submissions was accepted, [attempts] is their number, [tags] and
    [rating] are those of the submission that arrived first, and
    [lastAttempt] is the largest of their timestamps. *)
Theorem X4_problem_stats (submissions : list Submission.t) (k : string) :
  let a := analyzeSubmissions submissions in
  (submissions_of k submissions = [] ->
   get k (Analysis.problemStats a) = None) /\
  (forall s0 rest, submissions_of k submissions = s0 :: rest ->
     exists st,
       get k (Analysis.problemStats a) = Some st /\
       Stats.solved st = existsb accepted (s0 :: rest) /\
       Stats.attempts st = Z.of_nat (List.length (s0 :: rest)) /\
       Stats.tags st = submission_tags s0 /\
       Stats.rating st = submission_rating s0 /\
       is_max (Stats.lastAttempt st)
         (map Submission.creationTimeSeconds (s0 :: rest))).
Proof.
  cbv zeta. unfold analyzeSubmissions; cbn [Analysis.problemStats].
  rewrite Object_fromEntries_id by apply problemStats_NoDup.
  pose proof (problemStats_spec k submissions) as H. unfold Map_get in H.
  rewrite H. unfold stats_of. split.
  - now intros ->.
  - intros s0 rest ->. eexists. split; [reflexivity|].
    cbn [Stats.solved Stats.attempts Stats.tags Stats.rating Stats.lastAttempt].
    repeat split; try reflexivity; apply fold_max_is_max.
Qed.

Lemma NoDup_map_in {A B : Type} (f : A -> B) l :
  (forall x y, In x l -> In y l -> f x = f y -> x = y) ->
  NoDup l -> NoDup (map f l).
Proof.
  induction l as [|a l IH]; intros Hinj Hnd; simpl; [constructor|].
  inversion Hnd as [|? ? Hnot Hnd']; subst. constructor.
  - intros Hin. apply in_map_iff in Hin. destruct Hin as [y [E Hy]].
    apply Hnot. rewrite (Hinj a y); [exact Hy|now left|now right|now symmetry].
  - apply IH; [|exact Hnd']. intros x y Hx Hy. apply Hinj; now right.
Qed.

Lemma sorted_strict {A : Type} (key : A -> Z) l :
  StronglySorted (fun a b => key a <= key b) l -> NoDup (map key l) ->
  StronglySorted (fun a b => key a < key b) l.
Proof.
  induction 1 as [|x l Hs IH Hall]; intros Hnd; [constructor|].
  simpl in Hnd. inversion Hnd as [|? ? Hnot Hnd']; subst.
  constructor; [now apply IH|].
  rewrite Forall_forall in *. intros y Hy. specialize (Hall y Hy).
  assert (key x <> key y) by (intros E; apply Hnot; rewrite E; now apply in_map).
  lia.
Qed.

Lemma ratingDistribution_In l e :
  In e (Analysis.ratingDistribution (analyzeSubmissions l)) <->
  In e (Vars.solvedByRating (forEach l)).
Proof.
  unfold analyzeSubmissions; cbn [Analysis.ratingDistribution].
  split; intros H.
  - eapply Permutation_in; [|exact H].
    rewrite Array_sort_Permutation. apply Object_entries_Permutation.
  - eapply Permutation_in; [|exact H]. symmetry.
    rewrite Array_sort_Permutation. apply Object_entries_Permutation.
Qed.

Lemma ratingDistribution_key l e :
  In e (Analysis.ratingDistribution (analyzeSubmissions l)) ->
  rating_of e <> 0 /\ fst e = Number_toString (rating_of e).
Proof.
  intros H. apply ratingDistribution_In in H.
  pose proof (solvedByRating_keys l) as F. rewrite Forall_forall in F.
  destruct (F (fst e) (in_map fst _ _ H)) as [r [Hr E]].
  unfold rating_of. rewrite E, parseInt_Number_toString. now split.
Qed.

Lemma ratingDistribution_sorted l :
  StronglySorted (fun x y => rating_of x < rating_of y)
    (Analysis.ratingDistribution (analyzeSubmissions l)).
Proof.
  assert (Hk : forall e, In e (Object_entries (Vars.solvedByRating (forEach l))) ->
                         rating_key (fst e)).
  { intros e He. pose proof (solvedByRating_keys l) as F.
    rewrite Forall_forall in F. apply F, in_map.
    eapply Permutation_in; [apply Object_entries_Permutation|exact He]. }
  apply sorted_strict.
  - unfold analyzeSubmissions; cbn [Analysis.ratingDistribution].
    rewrite (Array_sort_ext by_rating_asc (fun a b => rating_of a - rating_of b))
      by (intros; apply by_rating_asc_key; now apply Hk).
    now apply Array_sort_sorted.
  - eapply Permutation_NoDup.
    + apply Permutation_map. symmetry.
      unfold analyzeSubmissions; cbn [Analysis.ratingDistribution].
      rewrite Array_sort_Permutation. apply Object_entries_Permutation.
    + apply NoDup_map_in;
        [|eapply NoDup_map_inv; apply solvedByRating_NoDup].
      intros [kx vx] [ky vy] Hx Hy E.
      pose proof (solvedByRating_keys l) as F. rewrite Forall_forall in F.
      destruct (F kx (in_map fst _ _ Hx)) as [rx [_ Ex]].
      destruct (F ky (in_map fst _ _ Hy)) as [ry [_ Ey]].
      unfold rating_of in E. simpl in E.
      rewrite Ex, Ey, !parseInt_Number_toString in E. subst ry.
      assert (kx = ky) by congruence. subst ky.
      apply (In_get _ _ _ (solvedByRating_NoDup l)) in Hx.
      apply (In_get _ _ _ (solvedByRating_NoDup l)) in Hy. congruence.
Qed.

Lemma Math_max_Some x xs :
  Math_max (Some x) (map Some xs) = Some (fold_left Z.max xs x).
Proof.
  unfold Math_max. revert x. induction xs as [|y xs IH]; intros x; simpl;
    [reflexivity|apply IH].
Qed.

Lemma rating_count_Some r (o : Obj Z) c :
  get (Number_toString r) o = Some c -> rating_count r o = c.
Proof. unfold rating_count. now intros ->. Qed.

Lemma highestSolvedRating_spec l :
  exists m,
    Analysis.highestSolvedRating (analyzeSubmissions l) = Some m /\
    ((Analysis.ratingDistribution (analyzeSubmissions l) = [] /\ m = 0) \/
     is_max m (map rating_of (Analysis.ratingDistribution (analyzeSubmissions l)))).
Proof.
  pose proof (ratingDistribution_key l) as K.
  unfold analyzeSubmissions in *;
    cbn [Analysis.highestSolvedRating Analysis.ratingDistribution] in *.
  set (rd := Array_sort by_rating_asc
               (Object_entries (Vars.solvedByRating (forEach l)))) in *.
  assert (Hmap : map (fun e => parseInt (fst e)) rd = map Some (map rating_of rd)).
  { rewrite map_map. apply map_ext_in. intros e He.
    destruct (K e He) as [_ Hk]. rewrite Hk at 1. apply parseInt_Number_toString. }
  rewrite Hmap. destruct rd as [|e es].
  - exists 0. split; [reflexivity|now left].
  - cbn [map]. rewrite Math_max_Some. eexists. split; [reflexivity|right].
    apply fold_max_is_max.
Qed.

(** X5. [ratingDistribution] lists the pairs of [solvedByRating] by strictly
    increasing rating: one pair for every non-zero rating carried by a
    solved problem, whose key is the numeral of the rating and whose count
    is the number of solved problems of that rating.  [highestSolvedRating]
    is the largest of these ratings, or 0 when there is none. *)
Theorem X5_rating_distribution (submissions : list Submission.t) :
  let a := analyzeSubmissions submissions in
  let rd := Analysis.ratingDistribution a in
  StronglySorted (fun x y => rating_of x < rating_of y) rd /\
  (forall k c, In (k, c) rd <-> get k (Analysis.solvedByRating a) = Some c) /\
  (forall e, In e rd ->
     rating_of e <> 0 /\ fst e = Number_toString (rating_of e) /\
     1 <= snd e /\
     snd e = Z.of_nat (List.length (filter (has_rating (rating_of e))
                                      (first_accepted submissions)))) /\
  (forall r, r <> 0 ->
     (exists c, In (Number_toString r, c) rd) <->
     (exists s, In s (first_accepted submissions) /\ submission_rating s = Some r)) /\
  exists m,
    Analysis.highestSolvedRating a = Some m /\
    ((rd = [] /\ m = 0) \/ is_max m (map rating_of rd)).
Proof.
  cbv zeta.
  assert (Hget : forall k c,
             In (k, c) (Analysis.ratingDistribution (analyzeSubmissions submissions)) <->
             get k (Vars.solvedByRating (forEach submissions)) = Some c).
  { intros k c. rewrite ratingDistribution_In. split.
    - apply In_get, solvedByRating_NoDup.
    - apply get_Some_In. }
  assert (Hcount : forall r c, r <> 0 ->
             get (Number_toString r) (Vars.solvedByRating (forEach submissions)) = Some c ->
             c = Z.of_nat (List.length (filter (has_rating r)
                                          (first_accepted submissions)))).
  { intros r c Hr E. rewrite <- (solvedByRating_spec r submissions Hr).
    symmetry. now apply rating_count_Some. }
  split; [apply ratingDistribution_sorted|].
  split; [exact Hget|]. split.
  { intros [k c] He. destruct (ratingDistribution_key _ _ He) as [Hr Hk].
    split; [exact Hr|]. split; [exact Hk|]. simpl in Hk. simpl snd.
    apply Hget in He. split.
    - exact (solvedByRating_positive submissions _ _ He).
    - apply Hcount; [exact Hr|]. now rewrite <- Hk. }
  split.
  { intros r Hr. split.
    - intros [c Hc]. apply Hget in Hc.
      pose proof (solvedByRating_positive submissions _ _ Hc) as Hpos.
      rewrite (Hcount r c Hr Hc) in Hpos.
      destruct (filter (has_rating r) (first_accepted submissions)) as [|s ss] eqn:E;
        [simpl in Hpos; lia|].
      assert (Hs : In s (filter (has_rating r) (first_accepted submissions)))
        by (rewrite E; now left).
      apply filter_In in Hs. destruct Hs as [Hs Hhas]. exists s. split; [exact Hs|].
      unfold has_rating in Hhas. destruct (submission_rating s) as [r'|]; [|discriminate].
      apply Z.eqb_eq in Hhas. now subst.
    - intros [s [Hs Hrs]].
      assert (Hin : In s (filter (has_rating r) (first_accepted submissions))).
      { apply filter_In. split; [exact Hs|]. unfold has_rating.
        rewrite Hrs. apply Z.eqb_refl. }
      pose proof (solvedByRating_spec r submissions Hr) as Hspec.
      destruct (get (Number_toString r) (Vars.solvedByRating (forEach submissions)))
        as [c|] eqn:E.
      + exists c. now apply Hget.
      + unfold rating_count in Hspec. rewrite E in Hspec.
        destruct (filter (has_rating r) (first_accepted submissions));
          [contradiction|simpl in Hspec; lia]. }
  apply highestSolvedRating_spec.
Qed.

Lemma languages_keys l :
  map fst (Vars.languages (forEach l)) =
  first_seen (filter (fun k => negb (String.eqb k "__proto__"))
                (map Submission.programmingLanguage l)).
Proof. rewrite languages_tally. apply tally_of_keys. Qed.

Lemma languages_entries l k c :
  plain (map Submission.programmingLanguage l) ->
  In (k, c) (Object_entries (Vars.languages (forEach l))) ->
  c = Count (count_by Submission.programmingLanguage k l) /\
  1 <= count_by Submission.programmingLanguage k l.
Proof.
  intros Hp Hin.
  assert (Hin' : In (k, c) (tally_of (map Submission.programmingLanguage l))).
  { rewrite <- languages_tally.
    eapply Permutation_in; [apply Object_entries_Permutation|exact Hin]. }
  destruct (plain_tally_of_entries _ _ Hp Hin') as [E Hk]. simpl in E, Hk.
  rewrite count_occ_count_by in E. split; [exact E|].
  rewrite <- count_occ_count_by.
  apply (count_occ_In string_dec) in Hk. lia.
Qed.

Lemma topLanguages_ordered l :
  plain (map Submission.programmingLanguage l) ->
  ordered_by count_desc
    (Object_entries (Vars.languages (forEach l)))
    (Array_sort by_count_desc (Object_entries (Vars.languages (forEach l)))).
Proof.
  intros Hp. rewrite languages_tally.
  now apply numeric_sorted, plain_numeric.
Qed.

(** X6. The languages are entered in [languages] in the order of their
    first submission, except [__proto__], which is never entered.  When no
    language is the name of a member inherited from [Object.prototype],
    every value of [languages] is the number of submissions in the
    language, and [topLanguages] is the first 5 of the language/count pairs
    ordered by count descending, ties in the enumeration order of the
    mapping, which is the order of first submission when no language name
    is an array-index numeral. *)
Theorem X6_topLanguages (submissions : list Submission.t) :
  let a := analyzeSubmissions submissions in
  let entries := Object_entries (Analysis.languages a) in
  let languages := map Submission.programmingLanguage submissions in
  (forall k c, In (k, c) entries <-> get k (Analysis.languages a) = Some c) /\
  map fst (Analysis.languages a) =
    first_seen (filter (fun k => negb (String.eqb k "__proto__")) languages) /\
  (plain languages ->
   (forall k c, In (k, c) entries ->
      c = Count (count_by Submission.programmingLanguage k submissions)) /\
   (exists top,
       ordered_by count_desc entries top /\
       (forall l, ordered_by count_desc entries l -> l = top) /\
       Analysis.topLanguages a = firstn 5 top) /\
   map fst (Analysis.languages a) = first_seen languages /\
   ((forall k, In k (first_seen languages) -> array_index k = None) ->
    map fst entries = first_seen languages)).
Proof.
  cbv zeta. unfold analyzeSubmissions;
    cbn [Analysis.languages Analysis.topLanguages].
  split.
  { intros k c. apply Object_entries_get. apply languages_NoDup. }
  split; [apply languages_keys|].
  intros Hp.
  assert (Hk : map fst (Vars.languages (forEach submissions)) =
               first_seen (map Submission.programmingLanguage submissions)).
  { rewrite languages_tally. now apply plain_tally_of_keys. }
  split.
  { intros k c Hin. now apply (languages_entries submissions k c Hp). }
  split.
  { eexists. split; [now apply topLanguages_ordered|]. split; [|reflexivity].
    intros l Hl.
    eapply ordered_by_unique; [exact Hl|now apply topLanguages_ordered]. }
  split; [exact Hk|].
  intros Hno. rewrite Object_entries_no_index; [exact Hk|].
  intros e He. apply Hno. rewrite <- Hk. now apply in_map.
Qed.

Lemma sorted_head_min {A : Type} (key : A -> Z) (x : A) l l' :
  StronglySorted (fun a b => key a <= key b) (x :: l) ->
  Permutation (x :: l) l' ->
  forall y, In y l' -> key x <= key y.
Proof.
  intros Hs Hp y Hy. inversion Hs as [|? ? _ Hall]; subst.
  rewrite Forall_forall in Hall.
  apply Permutation_sym in Hp.
  destruct (Permutation_in _ Hp Hy) as [<-|Hin]; [lia|now apply Hall].
Qed.

Lemma firstn_head {A : Type} n (x : A) l l' :
  firstn n l = x :: l' -> exists l'', l = x :: l''.
Proof.
  destruct n, l as [|y l]; simpl; try discriminate.
  intros [= -> _]. now eexists.
Qed.

(** The head of an ordering by count has the least key of all entries. *)
Lemma sorted_first_least (cmp : string * tally -> string * tally -> Z)
  (key : string * tally -> Z) (o : Obj tally) n e rest :
  ordered_by key (Object_entries o) (Array_sort cmp (Object_entries o)) ->
  firstn n (Array_sort cmp (Object_entries o)) = e :: rest ->
  forall k v, get k o = Some v -> key e <= key (k, v).
Proof.
  intros [Hs _] E k v G.
  destruct (firstn_head _ _ _ _ E) as [l'' El]. rewrite El in Hs.
  apply (sorted_head_min key e l'' o Hs); [|now apply get_Some_In].
  rewrite <- El, Array_sort_Permutation. apply Object_entries_Permutation.
Qed.

(** X7. The derived sequences are bounded ([topTags] by 10, [weakTags] and
    [topLanguages] by 5) and name keys of their mappings, once each.  When
    no tag of a solved problem is the name of a member inherited from
    [Object.prototype], every weak tag has a count of at least 1 in
    [solvedByTag], the first weak tag has the smallest count of all tags
    and the first top tag the largest; when no language is such a name, the
    first top language has the largest count of all languages. *)
Theorem X7_derived_sequences (submissions : list Submission.t) :
  let a := analyzeSubmissions submissions in
  (List.length (Analysis.topTags a) <= 10)%nat /\
  (List.length (Analysis.weakTags a) <= 5)%nat /\
  (List.length (Analysis.topLanguages a) <= 5)%nat /\
  NoDup (map fst (Analysis.topTags a)) /\
  NoDup (Analysis.weakTags a) /\
  NoDup (map fst (Analysis.topLanguages a)) /\
  (forall t c, In (t, c) (Analysis.topTags a) ->
               get t (Analysis.solvedByTag a) = Some c) /\
  (forall t, In t (Analysis.weakTags a) ->
             exists c, get t (Analysis.solvedByTag a) = Some c) /\
  (forall k c, In (k, c) (Analysis.topLanguages a) ->
               get k (Analysis.languages a) = Some c) /\
  (plain (solved_tags submissions) ->
   (forall t, In t (Analysis.weakTags a) ->
      exists n, get t (Analysis.solvedByTag a) = Some (Count n) /\ 1 <= n) /\
   (forall t rest, Analysis.weakTags a = t :: rest ->
      forall t' n', get t' (Analysis.solvedByTag a) = Some (Count n') ->
      exists n, get0 t (Analysis.solvedByTag a) = Count n /\ n <= n') /\
   (forall t c rest, Analysis.topTags a = (t, c) :: rest ->
      forall t' n', get t' (Analysis.solvedByTag a) = Some (Count n') ->
      exists n, c = Count n /\ n' <= n)) /\
  (plain (map Submission.programmingLanguage submissions) ->
   forall k c rest, Analysis.topLanguages a = (k, c) :: rest ->
     forall k' n', get k' (Analysis.languages a) = Some (Count n') ->
     exists n, c = Count n /\ n' <= n).
Proof.
  cbv zeta. unfold analyzeSubmissions;
    cbn [Analysis.topTags Analysis.weakTags Analysis.topLanguages
         Analysis.solvedByTag Analysis.languages].
  unfold slice0.
  set (tags := Vars.solvedByTag (forEach submissions)).
  set (langs := Vars.languages (forEach submissions)).
  assert (Htags : NoDup (map fst tags)) by apply solvedByTag_NoDup.
  assert (Hlangs : NoDup (map fst langs)) by apply languages_NoDup.
  assert (Hsorted : forall (cmp : string * tally -> string * tally -> Z)
                           (o : Obj tally),
             Permutation (Array_sort cmp (Object_entries o)) o).
  { intros cmp o. rewrite Array_sort_Permutation. apply Object_entries_Permutation. }
  assert (Hnd : forall (cmp : string * tally -> string * tally -> Z)
                       (o : Obj tally) n,
             NoDup (map fst o) ->
             NoDup (map fst (firstn n (Array_sort cmp (Object_entries o))))).
  { intros cmp o n Ho.
    assert (H : NoDup (map fst (Array_sort cmp (Object_entries o)))).
    { eapply Permutation_NoDup; [|exact Ho].
      apply Permutation_map. symmetry. apply Hsorted. }
    rewrite <- (firstn_skipn n (Array_sort cmp (Object_entries o))), map_app in H.
    now apply NoDup_app_remove_r in H. }
  assert (Hin : forall (cmp : string * tally -> string * tally -> Z)
                       (o : Obj tally) n k c,
             NoDup (map fst o) ->
             In (k, c) (firstn n (Array_sort cmp (Object_entries o))) ->
             get k o = Some c).
  { intros cmp o n k c Ho H. apply In_firstn in H.
    apply In_get; [exact Ho|]. eapply Permutation_in; [apply Hsorted|exact H]. }
  assert (Hweak : forall t,
             In t (map fst (firstn 5 (Array_sort by_count_asc
                                        (Object_entries tags)))) ->
             exists c, get t tags = Some c).
  { intros t Ht. apply in_map_iff in Ht. destruct Ht as [[t' c] [E Ht]].
    simpl in E. subst t'. exists c. exact (Hin _ _ _ _ _ Htags Ht). }
  split; [apply firstn_le_length|].
  split; [rewrite length_map; apply firstn_le_length|].
  split; [apply firstn_le_length|].
  split; [now apply Hnd|]. split; [now apply Hnd|]. split; [now apply Hnd|].
  split; [intros t c; now apply Hin|].
  split; [exact Hweak|].
  split; [intros k c; now apply Hin|].
  split.
  { intros Hp.
    assert (Hcount : forall t c, get t tags = Some c ->
               c = Count (tag_total t (first_accepted submissions)) /\
               1 <= tag_total t (first_accepted submissions)).
    { intros t c G. apply (solvedByTag_entries submissions t c Hp).
      now apply Object_entries_get. }
    split.
    { intros t Ht. destruct (Hweak t Ht) as [c G].
      destruct (Hcount t c G) as [-> Hpos]. eexists. split; [exact G|exact Hpos]. }
    split.
    { intros t rest E t' n' G.
      destruct (firstn 5 (Array_sort by_count_asc (Object_entries tags)))
        as [|[t0 c0] l0] eqn:E5; [discriminate|].
      simpl in E. inversion E; subst t0.
      assert (G0 : get t tags = Some c0).
      { apply (Hin by_count_asc tags 5%nat); [exact Htags|]. rewrite E5. now left. }
      destruct (Hcount t c0 G0) as [-> _].
      eexists. split; [unfold get0; now rewrite G0|].
      exact (sorted_first_least by_count_asc count_asc tags 5%nat _ _
               (weakTags_ordered submissions Hp) E5 t' (Count n') G). }
    intros t c rest E t' n' G.
    assert (G0 : get t tags = Some c).
    { apply (Hin by_count_desc tags 10%nat); [exact Htags|]. rewrite E. now left. }
    destruct (Hcount t c G0) as [-> _].
    eexists. split; [reflexivity|].
    pose proof (sorted_first_least by_count_desc count_desc tags 10%nat _ _
                  (topTags_ordered submissions Hp) E t' (Count n') G) as Hmin.
    unfold count_desc, weight in Hmin. simpl in Hmin. lia. }
  intros Hp k c rest E k' n' G.
  assert (G0 : get k langs = Some c).
  { apply (Hin by_count_desc langs 5%nat); [exact Hlangs|]. rewrite E. now left. }
  assert (Hc : c = Count (count_by Submission.programmingLanguage k submissions)).
  { apply (languages_entries submissions k c Hp). now apply Object_entries_get. }
  subst c. eexists. split; [reflexivity|].
  pose proof (sorted_first_least by_count_desc count_desc langs 5%nat _ _
                (topLanguages_ordered submissions Hp) E k' (Count n') G) as Hmin.
  unfold count_desc, weight in Hmin. simpl in Hmin. lia.
Qed.

(** ** The analysis in the prompts *)

Lemma contains_piece p s ps : contains s p -> contains s (cat (p :: ps)).
Proof.
  intros [before [after ->]]. exists before, (after ++ cat ps)%string.
  simpl. now rewrite !append_assoc.
Qed.

Lemma contains_refl s : contains s s.
Proof.
  exists EmptyString, EmptyString. simpl.
  induction s as [|c s IH]; simpl; [reflexivity|now rewrite <- IH].
Qed.

Lemma contains_append_r s a b : contains s b -> contains s (a ++ b)%string.
Proof.
  intros [before [after ->]]. exists (a ++ before)%string, after.
  now rewrite append_assoc.
Qed.

Lemma contains_append_l s a b : contains s a -> contains s (a ++ b)%string.
Proof.
  intros [before [after ->]]. exists before, (after ++ b)%string.
  now rewrite !append_assoc.
Qed.

(** The line of the [i]-th member is part of the text of the loop. *)
Lemma forEach_text_nth {A : Type} (line : nat -> A -> string) l : forall start i x,
  nth_error l i = Some x ->
  contains (line (start + i)%nat x) (forEach_text line start l).
Proof.
  induction l as [|y l IH]; intros start i x H; [now destruct i|].
  destruct i as [|i]; simpl in H.
  - injection H as ->. rewrite Nat.add_0_r. simpl.
    apply contains_append_l, contains_refl.
  - simpl. apply contains_append_r.
    replace (start + S i)%nat with (S start + i)%nat by lia.
    now apply IH.
Qed.

(** The loop that prints a numbered line per member prints the numbered
    lines. *)
Lemma forEach_text_numbered {A : Type} (line : Z -> A -> string) l : forall start,
  forEach_text (fun index x => line (Z.of_nat index + 1) x) start l =
  cat (map (fun p => line (Z.of_nat (fst p) + 1) (snd p))
         (combine (seq start (List.length l)) l)).
Proof.
  induction l as [|x l IH]; intros start; simpl; [reflexivity|].
  now rewrite IH.
Qed.

(** Every weak tag is a tag of a solved problem. *)
Lemma weakTags_solved submissions t :
  In t (Analysis.weakTags (analyzeSubmissions submissions)) ->
  In t (solved_tags submissions).
Proof.
  unfold analyzeSubmissions; cbn [Analysis.weakTags Analysis.solvedByTag].
  unfold slice0. intros Ht.
  apply in_map_iff in Ht. destruct Ht as [[t' c] [E Ht]].
  simpl in E. subst t'. apply In_firstn in Ht.
  assert (G : In (t, c) (Vars.solvedByTag (forEach submissions))).
  { eapply Permutation_in; [|exact Ht].
    rewrite Array_sort_Permutation. apply Object_entries_Permutation. }
  apply (in_map fst) in G. rewrite solvedByTag_tally, tally_of_keys in G.
  simpl in G. apply first_seen_In, filter_In in G. tauto.
Qed.

(** Under tags that name no inherited member, what the documents look up
    for a weak tag is the number of its occurrences on solved problems,
    which is at least 1. *)
Lemma weakTags_counted submissions t :
  plain (solved_tags submissions) ->
  In t (Analysis.weakTags (analyzeSubmissions submissions)) ->
  get0 t (Analysis.solvedByTag (analyzeSubmissions submissions)) =
    Count (tag_total t (first_accepted submissions)) /\
  1 <= tag_total t (first_accepted submissions).
Proof.
  intros Hp Ht. apply weakTags_solved in Ht.
  unfold plain in Hp. rewrite Forall_forall in Hp.
  unfold analyzeSubmissions; cbn [Analysis.solvedByTag].
  split; [now apply solvedByTag_spec, Hp|].
  rewrite <- count_occ_tag_total. fold (solved_tags submissions).
  apply (count_occ_In string_dec) in Ht. lia.
Qed.

(** The lines that the documents print for weak tags are the numbered
    lines that give the counts on solved problems. *)
Lemma weak_lines_numbered (inherited_text : string -> string) submissions
  (before only : string) (l : list string) :
  plain (solved_tags submissions) ->
  (forall t, In t l -> In t (Analysis.weakTags (analyzeSubmissions submissions))) ->
  forEach_text
    (fun index tag =>
       cat [num (Z.of_nat index + 1); before; tag; only;
            tally_text inherited_text
              (get0 tag (Analysis.solvedByTag (analyzeSubmissions submissions)));
            " problems solved"; nl])
    0 l =
  numbered_lines
    (fun n t => cat [num n; before; t; only;
                     num (tag_total t (first_accepted submissions));
                     " problems solved"; nl])
    l.
Proof.
  intros Hp Hl. unfold numbered_lines.
  rewrite <- (forEach_text_numbered
                (fun n t => cat [num n; before; t; only;
                                 num (tag_total t (first_accepted submissions));
                                 " problems solved"; nl])).
  apply forEach_text_ext. intros j t Ht.
  destruct (weakTags_counted submissions t Hp (Hl t Ht)) as [E _].
  now rewrite E.
Qed.

Ltac find_piece H :=
  repeat first [ apply contains_piece; exact H | apply contains_skip ].

(** Two solved problems tagged [constructor] and one tagged [dp].  The
    mapping holds under [constructor] the text of the inherited function
    followed by two digits, which under V8 the prompt of the chat page
    prints as the count; [tagAccuracy] has no entry for the tag. *)
Example scenario_inherited_tag :
  let a := analyzeSubmissions native_example in
  get "constructor" (Analysis.solvedByTag a) = Some (Native "constructor" 2) /\
  tally_text v8_text (Native "constructor" 2) =
    "function Object() { [native code] }11" /\
  contains
    ("1. constructor: function Object() { [native code] }11 problems solved"
     ++ nl)
    (generateAIRecommendationPrompt v8_text "alice" alice a) /\
  map fst (Analysis.tagAccuracy a) = ["dp"].
Proof.
  cbv zeta. split; [reflexivity|]. split; [reflexivity|].
  split; [|reflexivity].
  apply contains_substringb_complete. reflexivity.
Qed.

(** X8. The analysis of a submission list in the two prompts, when no tag
    of a solved problem is the name of a member inherited from
    [Object.prototype].  The section of weakest tags consists of one line
    per weak tag, in the order of [weakTags] and numbered from 1, that
    gives the number of times the tag occurs on the solved problems, which
    is at least 1: in the prompt of the chat page, and in the prompt of the
    backend when there is a weak tag.  When there is none, the section of
    the chat page's prompt is empty, where the backend's prompt prints a
    placeholder. *)
Theorem X8_weak_tags_in_prompts (inherited_text : string -> string)
  (handle : string) (userData : UserData.t) (submissions : list Submission.t) :
  plain (solved_tags submissions) ->
  let a := analyzeSubmissions submissions in
  let count t := tag_total t (first_accepted submissions) in
  (forall t, In t (Analysis.weakTags a) -> 1 <= count t) /\
  contains
    (cat ["Areas for Improvement (Weakest Tags):"; nl;
          numbered_lines
            (fun n t => cat [num n; ". "; t; ": "; num (count t);
                             " problems solved"; nl])
            (Analysis.weakTags a);
          nl; "Rating Distribution Analysis:"; nl])
    (generateAIRecommendationPrompt inherited_text handle userData a) /\
  (Analysis.weakTags a <> [] ->
   contains
     (cat ["Areas for Improvement (Weakest Tags):"; nl;
           numbered_lines
             (fun n t => cat [num n; ". "; t; ": Only "; num (count t);
                              " problems solved"; nl])
             (Analysis.weakTags a);
           nl; "Rating Distribution Analysis:"; nl])
     (generateCodeforcesPrompt inherited_text handle userData a)) /\
  (Analysis.weakTags a = [] ->
   contains
     (cat ["Areas for Improvement (Weakest Tags):"; nl;
           "No weakness data available"; nl; nl;
           "Rating Distribution Analysis:"; nl])
     (generateCodeforcesPrompt inherited_text handle userData a)).
Proof.
  intros Hp. cbv zeta.
  set (a := analyzeSubmissions submissions).
  assert (Hsec : forall only,
             forEach_text
               (fun index tag =>
                  cat [num (Z.of_nat index + 1); ". "; tag; only;
                       tally_text inherited_text
                         (get0 tag (Analysis.solvedByTag a));
                       " problems solved"; nl])
               0 (Analysis.weakTags a) =
             numbered_lines
               (fun n t => cat [num n; ". "; t; only;
                                num (tag_total t (first_accepted submissions));
                                " problems solved"; nl])
               (Analysis.weakTags a)).
  { intros only.
    exact (weak_lines_numbered inherited_text submissions ". " only
             (Analysis.weakTags a) Hp (fun t H => H)). }
  split.
  { intros t Ht. exact (proj2 (weakTags_counted submissions t Hp Ht)). }
  split.
  { unfold generateAIRecommendationPrompt. cbv zeta.
    rewrite (Hsec ": ").
    find_pieces ["Areas for Improvement (Weakest Tags):"; nl;
                 numbered_lines
                   (fun n t => cat [num n; ". "; t; ": ";
                                    num (tag_total t (first_accepted submissions));
                                    " problems solved"; nl])
                   (Analysis.weakTags a);
                 nl; "Rating Distribution Analysis:"; nl]. }
  split.
  { intros Hne. unfold generateCodeforcesPrompt. cbv zeta.
    pose proof (Hsec ": Only ") as Hs.
    destruct (Analysis.weakTags a) as [|t0 w] eqn:E; [contradiction|].
    rewrite Hs.
    find_pieces ["Areas for Improvement (Weakest Tags):"; nl;
                 numbered_lines
                   (fun n t => cat [num n; ". "; t; ": Only ";
                                    num (tag_total t (first_accepted submissions));
                                    " problems solved"; nl])
                   (t0 :: w);
                 nl; "Rating Distribution Analysis:"; nl]. }
  intros E. unfold generateCodeforcesPrompt. cbv zeta. rewrite E.
  change (cat ["Areas for Improvement (Weakest Tags):"; nl;
               "No weakness data available"; nl; nl;
               "Rating Distribution Analysis:"; nl])
    with (cat ["Areas for Improvement (Weakest Tags):"; nl;
               cat ["No weakness data available"; nl]; nl;
               "Rating Distribution Analysis:"; nl]).
  find_pieces ["Areas for Improvement (Weakest Tags):"; nl;
               cat ["No weakness data available"; nl]; nl;
               "Rating Distribution Analysis:"; nl].
Qed.


(** ** Properties of the Codeforces client *)

Lemma in_ratingRange_spec ratingRange p :
  in_ratingRange ratingRange p = true <->
  exists r, Problem.rating p = Some r /\ r <> 0 /\
            fst ratingRange <= r <= snd ratingRange.
Proof.
  unfold in_ratingRange. destruct (Problem.rating p) as [r|].
  - rewrite !andb_true_iff, negb_true_iff, Z.eqb_neq, !Z.leb_le. split.
    + intros [[H0 H1] H2]. exists r. repeat split; assumption.
    + intros [r' [[= <-] [H0 [H1 H2]]]]. repeat split; assumption.
  - split; [discriminate|]. intros [r [H _]]. discriminate H.
Qed.

Lemma by_problem_rating_key l :
  (forall p, In p l -> exists r, Problem.rating p = Some r) ->
  Array_sort by_problem_rating l =
  Array_sort (fun a b => problem_rating a - problem_rating b) l.
Proof.
  intros H. apply Array_sort_ext. intros x y Hx Hy.
  destruct (H x Hx) as [rx Ex], (H y Hy) as [ry Ey].
  unfold by_problem_rating, problem_rating. now rewrite Ex, Ey.
Qed.

Lemma sorted_app_le {A : Type} (key : A -> Z) l1 l2 :
  StronglySorted (fun a b => key a <= key b) (l1 ++ l2) ->
  forall x y, In x l1 -> In y l2 -> key x <= key y.
Proof.
  induction l1 as [|a l1 IH]; simpl; intros Hs x y Hx Hy; [contradiction|].
  inversion Hs as [|? ? Hs' Hall]; subst.
  destruct Hx as [<-|Hx]; [|now apply IH].
  rewrite Forall_forall in Hall. apply Hall, in_or_app. now right.
Qed.

Lemma sorted_app_l {A : Type} (R : A -> A -> Prop) l1 l2 :
  StronglySorted R (l1 ++ l2) -> StronglySorted R l1.
Proof.
  induction l1 as [|a l1 IH]; simpl; intros Hs; [constructor|].
  inversion Hs as [|? ? Hs' Hall]; subst. constructor; [now apply IH|].
  rewrite Forall_forall in *. intros x Hx. apply Hall, in_or_app. now left.
Qed.

Lemma firstn_short {A : Type} n (l : list A) x :
  In x l -> ~ In x (firstn n l) -> List.length (firstn n l) = n.
Proof.
  intros Hx Hn. destruct (Nat.le_gt_cases n (List.length l)) as [Hle|Hgt].
  - now apply firstn_length_le.
  - rewrite firstn_all2 in Hn by lia. contradiction.
Qed.

(** What [filteredProblems] selects from a listing. *)
Lemma filteredProblems_spec ratingRange problems :
  exists sorted,
    ordered_by problem_rating (filter (in_ratingRange ratingRange) problems) sorted /\
    filteredProblems ratingRange problems = firstn 10 sorted /\
    Permutation sorted (filter (in_ratingRange ratingRange) problems).
Proof.
  unfold filteredProblems, slice0.
  rewrite by_problem_rating_key.
  - eexists. split; [|split; [reflexivity|apply Array_sort_Permutation]].
    apply Array_sort_ordered_by. reflexivity.
  - intros p Hp. apply filter_In in Hp. destruct Hp as [_ Hp].
    apply in_ratingRange_spec in Hp. destruct Hp as [r [Hr _]]. now exists r.
Qed.

(** X9. A successful answer of [getRecommendedProblems] is taken from one
    listing that the platform returned with status OK, for the tags or for
    the whole problem set: at most 10 problems of the listing, each with a
    rating within 200 of the target rating (the user's rating, 1200 when it
    is absent or 0) and not below 800, by rating ascending, problems of one
    rating in the order of the listing.  They are the lowest-rated ones: a
    problem of the listing in the range that is left out is rated no lower
    than any problem returned, and then 10 problems are returned. *)
Theorem X9_recommended_problems
  (fetch : string -> Fetch.t (list Problem.t)) (weakTags : list string)
  (rating : option Z) (data : list Problem.t) :
  getRecommendedProblems fetch weakTags rating = Success data ->
  let targetRating := or_number rating 1200 in
  let lo := Z.max 800 (targetRating - 200) in
  let hi := targetRating + 200 in
  exists url comment listing sorted,
    (url = problemset_problems_tags (slice0 3 weakTags) \/
     url = problemset_problems) /\
    fetch url = Fetch.Json "OK" comment listing /\
    ordered_by problem_rating (filter (in_ratingRange (lo, hi)) listing) sorted /\
    data = firstn 10 sorted /\
    (List.length data <= 10)%nat /\
    StronglySorted (fun a b => problem_rating a <= problem_rating b) data /\
    (forall p, In p data ->
       In p listing /\
       exists r, Problem.rating p = Some r /\ lo <= r <= hi) /\
    (forall p r, In p listing -> Problem.rating p = Some r -> lo <= r <= hi ->
       ~ In p data ->
       List.length data = 10%nat /\
       forall q, In q data -> problem_rating q <= r).
Proof.
  intros H. cbv zeta.
  set (range := (Z.max 800 (or_number rating 1200 - 200), or_number rating 1200 + 200)).
  assert (Hsel : exists url comment listing,
             (url = problemset_problems_tags (slice0 3 weakTags) \/
              url = problemset_problems) /\
             fetch url = Fetch.Json "OK" comment listing /\
             data = filteredProblems range listing).
  { unfold getRecommendedProblems in H. cbv zeta in H. fold range in H.
    destruct (fetch (problemset_problems_tags (slice0 3 weakTags)))
      as [m| |status comment problems] eqn:Etag.
    - discriminate H.
    - destruct (fetch problemset_problems) as [m| |status comment problems] eqn:Egen;
        try discriminate H.
      destruct (String.eqb_spec status "OK") as [->|]; [|discriminate H].
      injection H as <-. exists problemset_problems, comment, problems. auto.
    - destruct (String.eqb_spec status "OK") as [->|].
      + injection H as <-.
        exists (problemset_problems_tags (slice0 3 weakTags)), comment, problems. auto.
      + destruct (fetch problemset_problems) as [m| |status' comment' problems'] eqn:Egen;
          try discriminate H.
        destruct (String.eqb_spec status' "OK") as [->|]; [|discriminate H].
        injection H as <-. exists problemset_problems, comment', problems'. auto. }
  destruct Hsel as (url & comment & listing & Hurl & Hfetch & ->).
  destruct (filteredProblems_spec range listing) as (sorted & Hord & Hsel & Hperm).
  exists url, comment, listing, sorted.
  split; [exact Hurl|]. split; [exact Hfetch|]. split; [exact Hord|].
  split; [exact Hsel|]. rewrite Hsel.
  assert (Hs : StronglySorted (fun a b => problem_rating a <= problem_rating b) sorted)
    by apply Hord.
  split; [apply firstn_le_length|].
  split.
  { rewrite <- (firstn_skipn 10 sorted) in Hs. now apply sorted_app_l in Hs. }
  split.
  { intros p Hp. apply In_firstn in Hp.
    apply (Permutation_in _ Hperm), filter_In in Hp. destruct Hp as [Hin Hr].
    split; [exact Hin|]. apply in_ratingRange_spec in Hr.
    destruct Hr as (r & Hr & _ & Hlo). exists r. split; [exact Hr|exact Hlo]. }
  intros p r Hin Hr Hlo Hout.
  assert (Hp : In p sorted).
  { apply (Permutation_in _ (Permutation_sym Hperm)), filter_In.
    split; [exact Hin|]. apply in_ratingRange_spec. exists r.
    split; [exact Hr|]. split; [|exact Hlo]. unfold range in Hlo. simpl in Hlo. lia. }
  split; [exact (firstn_short 10 sorted p Hp Hout)|].
  intros q Hq.
  replace r with (problem_rating p) by (unfold problem_rating; now rewrite Hr).
  rewrite <- (firstn_skipn 10 sorted) in Hs, Hp.
  apply in_app_or in Hp. destruct Hp as [Hp|Hp]; [contradiction|].
  exact (sorted_app_le problem_rating _ _ Hs q p Hq Hp).
Qed.

(** X10. The listing for the tags decides as soon as it can be read: when
    [getProblemsByTags] succeeds for the first three weak tags,
    [getRecommendedProblems] answers with its selection from that listing,
    also when the selection is empty, and a rejected request is the answer;
    in both cases the whole problem set is not asked for.  Weak tags after
    the third play no part.  A failure is the message of a rejected request
    or ["No problems found"]. *)
Theorem X10_tag_listing_first
  (fetch : string -> Fetch.t (list Problem.t)) (weakTags : list string)
  (rating : option Z) :
  let targetRating := or_number rating 1200 in
  let ratingRange := (Z.max 800 (targetRating - 200), targetRating + 200) in
  let tags := problemset_problems_tags (slice0 3 weakTags) in
  (forall problems,
     getProblemsByTags fetch (slice0 3 weakTags) = Success problems ->
     getRecommendedProblems fetch weakTags rating =
     Success (filteredProblems ratingRange problems)) /\
  (forall message,
     fetch tags = Fetch.Rejects message ->
     getRecommendedProblems fetch weakTags rating = Failure message) /\
  (forall fetch',
     fetch' tags = fetch tags ->
     (exists problems,
        getProblemsByTags fetch (slice0 3 weakTags) = Success problems) \/
     (exists message, fetch tags = Fetch.Rejects message) ->
     getRecommendedProblems fetch' weakTags rating =
     getRecommendedProblems fetch weakTags rating) /\
  (forall weakTags',
     slice0 3 weakTags' = slice0 3 weakTags ->
     getRecommendedProblems fetch weakTags' rating =
     getRecommendedProblems fetch weakTags rating) /\
  (forall error,
     getRecommendedProblems fetch weakTags rating = Failure error ->
     error = "No problems found" \/
     fetch tags = Fetch.Rejects error \/
     fetch problemset_problems = Fetch.Rejects error).
Proof.
  cbv zeta. unfold getRecommendedProblems, getProblemsByTags. cbv zeta.
  split.
  { intros problems H.
    destruct (fetch (problemset_problems_tags (slice0 3 weakTags)))
      as [m| |status comment ps]; try discriminate H.
    destruct (String.eqb status "OK"); [|discriminate H].
    now injection H as ->. }
  split.
  { intros message ->. reflexivity. }
  split.
  { intros fetch' -> [[problems H]|[message H]].
    - destruct (fetch (problemset_problems_tags (slice0 3 weakTags)))
        as [m| |status comment ps]; try discriminate H.
      destruct (String.eqb status "OK"); [reflexivity|discriminate H].
    - now rewrite H. }
  split.
  { intros weakTags' ->. reflexivity. }
  intros error H.
  destruct (fetch (problemset_problems_tags (slice0 3 weakTags)))
    as [m| |status comment ps].
  - injection H as ->. auto.
  - destruct (fetch problemset_problems) as [m| |status comment ps].
    + injection H as ->. auto.
    + injection H as <-. auto.
    + destruct (String.eqb status "OK"); [discriminate H|]. injection H as <-. auto.
  - destruct (String.eqb status "OK"); [discriminate H|].
    destruct (fetch problemset_problems) as [m| |status' comment' ps'].
    + injection H as ->. auto.
    + injection H as <-. auto.
    + destruct (String.eqb status' "OK"); [discriminate H|]. injection H as <-. auto.
Qed.


(** ** Properties of the conversation history *)

Lemma id_eqb_eq a b : id_eqb a b = true <-> a = b.
Proof.
  destruct a as [x|], b as [y|]; simpl; try (split; congruence).
  rewrite String.eqb_eq. split; congruence.
Qed.

Lemma id_eqb_refl a : id_eqb a a = true.
Proof. now apply id_eqb_eq. Qed.

Lemma id_eqb_neq a b : id_eqb a b = false <-> a <> b.
Proof.
  rewrite <- id_eqb_eq. destruct (id_eqb a b); split; congruence.
Qed.

(** The history without the conversations of one identifier. *)
Lemma others_In id h c :
  In c (filter (fun c => negb (id_eqb (Conversation.id c) id)) h) <->
  In c h /\ Conversation.id c <> id.
Proof. now rewrite filter_In, negb_true_iff, id_eqb_neq. Qed.

Lemma others_ids id h :
  ~ In id (map Conversation.id
             (filter (fun c => negb (id_eqb (Conversation.id c) id)) h)).
Proof.
  intros H. apply in_map_iff in H. destruct H as [c [E H]].
  apply others_In in H. now destruct H.
Qed.

Lemma others_find id id' h :
  id' <> id ->
  find_conversation id'
    (filter (fun c => negb (id_eqb (Conversation.id c) id)) h) =
  find_conversation id' h.
Proof.
  intros Hne. unfold find_conversation.
  induction h as [|c h IH]; simpl; [reflexivity|].
  destruct (id_eqb (Conversation.id c) id) eqn:E; simpl.
  - apply id_eqb_eq in E.
    destruct (id_eqb (Conversation.id c) id') eqn:E'; [|exact IH].
    apply id_eqb_eq in E'. congruence.
  - destruct (id_eqb (Conversation.id c) id'); [reflexivity|exact IH].
Qed.

Lemma find_conversation_None id h :
  ~ In id (map Conversation.id h) -> find_conversation id h = None.
Proof.
  intros H. unfold find_conversation.
  destruct (find _ h) as [c|] eqn:E; [|reflexivity].
  apply find_some in E. destruct E as [Hin E]. apply id_eqb_eq in E.
  exfalso. apply H. rewrite <- E. now apply in_map.
Qed.

Lemma NoDup_map_filter {A B : Type} (f : A -> B) (p : A -> bool) l :
  NoDup (map f l) -> NoDup (map f (filter p l)).
Proof.
  induction l as [|x l IH]; simpl; intros H; [constructor|].
  inversion H as [|? ? Hx Hl]; subst.
  destruct (p x); simpl; [|now apply IH].
  constructor; [|now apply IH].
  intros Hin. apply Hx. apply in_map_iff in Hin. destruct Hin as [y [E Hy]].
  apply filter_In in Hy. rewrite <- E. apply in_map. now destruct Hy.
Qed.

Lemma NoDup_map_firstn {A B : Type} (f : A -> B) n l :
  NoDup (map f l) -> NoDup (map f (firstn n l)).
Proof.
  intros H. rewrite <- (firstn_skipn n l), map_app in H.
  now apply NoDup_app_remove_r in H.
Qed.

(** X11. [saveCurrentConversation] leaves a conversation of at most one
    message unsaved.  Otherwise the conversation is put first in the
    history, under the current identifier, with the title of its second
    message, followed by the first 49 of the other conversations in their
    order: the history holds at most 50 conversations, one of them under
    the current identifier, and identifiers that were distinct stay
    distinct.  Nothing else of the state changes.  The saved conversation
    is read back by [loadConversation], also after a new conversation has
    been started. *)
Theorem X11_save_conversation (now : string) (st : Chat.t) :
  let st' := saveCurrentConversation now st in
  let cur := Chat.currentConversationId st in
  let others :=
    filter (fun c => negb (id_eqb (Conversation.id c) cur))
      (Chat.conversationsHistory st) in
  ((List.length (Chat.conversation st) <= 1)%nat -> st' = st) /\
  (forall first second rest,
     Chat.conversation st = first :: second :: rest ->
     Chat.conversationsHistory st' =
       Conversation.mk cur (title_of (Message.content second))
         (Chat.conversation st) now :: firstn 49 others /\
     ~ In cur (map Conversation.id (firstn 49 others)) /\
     (List.length (Chat.conversationsHistory st') <= 50)%nat /\
     (NoDup (history_ids st) -> NoDup (history_ids st')) /\
     ((List.length (Chat.conversationsHistory st) < 50)%nat ->
      forall c, In c (Chat.conversationsHistory st) -> Conversation.id c <> cur ->
                In c (Chat.conversationsHistory st')) /\
     (forall now_ms now',
        Chat.conversation (loadConversation cur (startNewConversation now_ms now' st'))
        = Chat.conversation st /\
        Chat.currentConversationId
          (loadConversation cur (startNewConversation now_ms now' st')) = cur)) /\
  Chat.conversation st' = Chat.conversation st /\
  Chat.currentConversationId st' = cur /\
  Chat.codeforcesUser st' = Chat.codeforcesUser st /\
  Chat.codeforcesAnalysis st' = Chat.codeforcesAnalysis st /\
  Chat.showUserCard st' = Chat.showUserCard st /\
  Chat.pendingAnalysis st' = Chat.pendingAnalysis st.
Proof.
  cbv zeta. destruct st as [conv cur hist user analysis card pending].
  unfold saveCurrentConversation, history_ids;
    cbn [Chat.conversation Chat.currentConversationId Chat.conversationsHistory
         Chat.codeforcesUser Chat.codeforcesAnalysis Chat.showUserCard
         Chat.pendingAnalysis].
  split.
  { intros Hlen. destruct conv as [|m1 [|m2 conv]]; try reflexivity.
    simpl in Hlen. lia. }
  split.
  2:{ destruct conv as [|m1 [|m2 conv]]; repeat split; reflexivity. }
  intros first second rest ->. cbn [Chat.conversationsHistory]. unfold slice0.
  set (others := filter (fun c => negb (id_eqb (Conversation.id c) cur)) hist).
  assert (Hcons : forall (c : Conversation.t) l, firstn 50 (c :: l) = c :: firstn 49 l)
    by reflexivity.
  rewrite !Hcons. clear Hcons.
  assert (Hcur : ~ In cur (map Conversation.id (firstn 49 others))).
  { intros H. apply (others_ids cur hist). fold others.
    apply in_map_iff in H. destruct H as [c [E H]]. apply In_firstn in H.
    rewrite <- E. now apply in_map. }
  split; [reflexivity|]. split; [exact Hcur|].
  split.
  { cbn [List.length]. pose proof (firstn_le_length 49 others). lia. }
  split.
  { intros Hnd. cbn [map Conversation.id]. constructor; [exact Hcur|].
    apply NoDup_map_firstn. unfold others. now apply NoDup_map_filter. }
  split.
  { intros Hlen c Hin Hne. right.
    rewrite firstn_all2.
    - apply others_In. now split.
    - pose proof (filter_length_le (fun c => negb (id_eqb (Conversation.id c) cur)) hist).
      fold others in H. lia. }
  intros now_ms now'. unfold loadConversation, startNewConversation, find_conversation;
    cbn [Chat.conversationsHistory find Conversation.id].
  rewrite id_eqb_refl. split; reflexivity.
Qed.

(** X12. The title of a saved conversation is never empty and has at most
    53 code units: the text of the message when it has 1 to 50 code units,
    its first 50 code units followed by three dots when it has more, and
    [New Conversation] when the message is empty. *)
Theorem X12_conversation_title (content : Utf16) :
  title_of content <> [] /\
  (List.length (title_of content) <= 53)%nat /\
  (content = [] -> title_of content = utf16 "New Conversation") /\
  (content <> [] -> (List.length content <= 50)%nat -> title_of content = content) /\
  ((50 < List.length content)%nat ->
   title_of content = firstn 50 content ++ utf16 "..." /\
   List.length (title_of content) = 53%nat).
Proof.
  unfold title_of. cbv zeta.
  destruct (Nat.ltb_spec 50 (List.length content)) as [Hlt|Hle].
  - assert (E : firstn 50 content ++ utf16 "..." <> []).
    { intros H. apply app_eq_nil in H. destruct H as [_ H]. discriminate H. }
    assert (L : List.length (firstn 50 content ++ utf16 "...") = 53%nat).
    { rewrite length_app, firstn_length_le by lia. reflexivity. }
    destruct (firstn 50 content ++ utf16 "...") as [|u title] eqn:Et;
      [contradiction|].
    repeat split; try congruence; try lia.
    intros ->. simpl in Hlt. lia.
  - rewrite app_nil_r, firstn_all2 by exact Hle.
    destruct content as [|u content].
    + repeat split; try discriminate; try contradiction.
      * vm_compute. lia.
      * simpl. lia.
      * simpl in *. lia.
    + repeat split; try discriminate; try reflexivity; simpl in *; lia.
Qed.

(** X13. [handleDeleteConversation] removes every conversation of the given
    identifier and no other: the identifier is not found afterwards, the
    other conversations are found as before, and identifiers that were
    distinct stay distinct.  Deleting the current conversation starts a new
    one, which holds the welcome message only, has the card of the user
    cleared and is not saved by [saveCurrentConversation]; deleting another
    one leaves the rest of the state as it is. *)
Theorem X13_delete_conversation (now_ms : Z) (now now' : string)
  (conversationId : option string) (st : Chat.t) :
  let st' := handleDeleteConversation now_ms now conversationId st in
  (forall c, In c (Chat.conversationsHistory st') <->
             In c (Chat.conversationsHistory st) /\
             Conversation.id c <> conversationId) /\
  find_conversation conversationId (Chat.conversationsHistory st') = None /\
  loadConversation conversationId st' = st' /\
  (forall id, id <> conversationId ->
     find_conversation id (Chat.conversationsHistory st') =
     find_conversation id (Chat.conversationsHistory st)) /\
  (NoDup (history_ids st) -> NoDup (history_ids st')) /\
  (conversationId = Chat.currentConversationId st ->
     Chat.conversation st' = [welcome now] /\
     Chat.currentConversationId st' = Some (Number_toString now_ms) /\
     Chat.codeforcesUser st' = None /\
     Chat.codeforcesAnalysis st' = None /\
     Chat.showUserCard st' = false /\
     Chat.pendingAnalysis st' = None /\
     saveCurrentConversation now' st' = st') /\
  (conversationId <> Chat.currentConversationId st ->
     Chat.conversation st' = Chat.conversation st /\
     Chat.currentConversationId st' = Chat.currentConversationId st /\
     Chat.codeforcesUser st' = Chat.codeforcesUser st /\
     Chat.codeforcesAnalysis st' = Chat.codeforcesAnalysis st /\
     Chat.showUserCard st' = Chat.showUserCard st /\
     Chat.pendingAnalysis st' = Chat.pendingAnalysis st).
Proof.
  cbv zeta. destruct st as [conv cur hist user analysis card pending].
  cbn [Chat.conversation Chat.currentConversationId Chat.conversationsHistory
       Chat.codeforcesUser Chat.codeforcesAnalysis Chat.showUserCard
       Chat.pendingAnalysis].
  assert (Hhist : Chat.conversationsHistory
                    (handleDeleteConversation now_ms now conversationId
                       (Chat.mk conv cur hist user analysis card pending)) =
                  filter (fun c => negb (id_eqb (Conversation.id c) conversationId)) hist).
  { unfold handleDeleteConversation, startNewConversation;
      cbn [Chat.conversationsHistory Chat.currentConversationId].
    now destruct (id_eqb conversationId cur). }
  assert (Hnone : find_conversation conversationId
                    (filter (fun c => negb (id_eqb (Conversation.id c) conversationId)) hist)
                  = None)
    by apply find_conversation_None, others_ids.
  unfold history_ids. rewrite Hhist.
  split; [intros c; apply others_In|].
  split; [exact Hnone|].
  split; [unfold loadConversation; now rewrite Hhist, Hnone|].
  split; [intros id Hne; now apply others_find|].
  split; [apply NoDup_map_filter|].
  unfold handleDeleteConversation; cbn [Chat.currentConversationId].
  split.
  - intros ->. rewrite id_eqb_refl. repeat split; reflexivity.
  - intros Hne. apply id_eqb_neq in Hne. rewrite Hne. repeat split; reflexivity.
Qed.


(** ** Properties of the authentication *)

Lemma split_no_space s : no_space s = true -> split " " s = [s].
Proof.
  unfold no_space. induction s as [|c s IH]; simpl; [reflexivity|].
  intros H. apply andb_true_iff in H. destruct H as [Hc Hs].
  apply negb_true_iff in Hc. rewrite Hc, (IH Hs). reflexivity.
Qed.

Lemma split_app a b :
  no_space a = true -> split " " (a ++ String " " b) = a :: split " " b.
Proof.
  unfold no_space. induction a as [|c a IH]; simpl; [reflexivity|].
  intros H. apply andb_true_iff in H. destruct H as [Hc Ha].
  apply negb_true_iff in Hc. rewrite Hc, (IH Ha). reflexivity.
Qed.

Lemma eqb_app_space a b : String.eqb (a ++ String " " b) "" = false.
Proof. now destruct a. Qed.

Lemma eqb_empty_false t : t <> "" -> String.eqb t "" = false.
Proof. intros H. now apply String.eqb_neq. Qed.

(** The token of a header made of a word, a space and a text. *)
Lemma header_token_scheme scheme t :
  no_space scheme = true ->
  header_token (Some (scheme ++ String " " t)%string) = nth_error (split " " t) 0.
Proof.
  intros H. unfold header_token. rewrite eqb_app_space, split_app by exact H.
  reflexivity.
Qed.

Lemma falsy_Some t : t <> "" -> falsy (Some t) = false.
Proof. intros H. simpl. now apply eqb_empty_false. Qed.

(** X14. The header that the frontend writes for a stored token, [Bearer]
    and the token, gives the token back to the middlewares when the token
    is not empty and holds no space, as every signed token does; what
    follows a space would be dropped.  The first word of the header is not
    looked at, and a header that is the token alone carries no token.  With
    such a header a request passes a middleware exactly when the token
    library accepts the token under the secret of the process. *)
Theorem X14_bearer_token (env : Env.t) (t : string) :
  t <> EmptyString -> no_space t = true ->
  header_token (request_Authorization (Some t)) = Some t /\
  (forall scheme, no_space scheme = true ->
     header_token (Some (scheme ++ " " ++ t)%string) = Some t) /\
  (forall rest,
     header_token (Some ("Bearer " ++ t ++ " " ++ rest)%string) = Some t) /\
  header_token (Some t) = None /\
  (forall user,
     verifyToken env (request_Authorization (Some t)) = Next user <->
     Env.jwt_verify env t (secret env) = Jwt.Decoded user) /\
  (forall user,
     verifyToken_auth env (request_Authorization (Some t)) = Next user <->
     Env.jwt_verify env t (secret env) = Jwt.Decoded user).
Proof.
  intros Ht Hsp.
  assert (Hscheme : forall scheme, no_space scheme = true ->
            header_token (Some (scheme ++ " " ++ t)%string) = Some t).
  { intros scheme Hs. change (" " ++ t)%string with (String " " t).
    rewrite header_token_scheme by exact Hs. now rewrite split_no_space. }
  assert (Hreq : header_token (request_Authorization (Some t)) = Some t).
  { unfold request_Authorization. rewrite eqb_empty_false by exact Ht.
    exact (Hscheme "Bearer" eq_refl). }
  split; [exact Hreq|]. split; [exact Hscheme|].
  split.
  { intros rest. change ("Bearer " ++ t ++ " " ++ rest)%string
      with ("Bearer" ++ String " " (t ++ String " " rest))%string.
    rewrite header_token_scheme by reflexivity.
    now rewrite split_app. }
  split.
  { unfold header_token. rewrite eqb_empty_false by exact Ht.
    now rewrite split_no_space. }
  split.
  - intros user. unfold verifyToken. rewrite Hreq, falsy_Some by exact Ht.
    cbn [andb]. destruct (Env.jwt_verify env t (secret env)) as [d|name].
    + split; congruence.
    + split; [|discriminate].
      destruct (String.eqb name "TokenExpiredError"); [discriminate|].
      destruct (String.eqb name "JsonWebTokenError"); discriminate.
  - intros user. unfold verifyToken_auth. rewrite Hreq, falsy_Some by exact Ht.
    destruct (Env.jwt_verify env t (secret env)) as [d|name].
    + split; congruence.
    + split; discriminate.
Qed.

(** X15. The two middlewares.  A request passes [verifyToken] of the
    authentication routes exactly when its header carries a token that the
    token library accepts, and then [req.user] is the decoded content.
    [verifyToken] of the generative routes passes the same requests, and in
    development mode also every request without a token, as the demo user.
    It refuses with status 401 only; the other one answers 401 without a
    token and 403 for a token that is not accepted, so an expired token is
    answered with 403 by the one and with 401 and the code [TOKEN_EXPIRED]
    by the other. *)
Theorem X15_verifyToken (env : Env.t) (authorization : option string) :
  let token := header_token authorization in
  let verified user :=
    exists t, token = Some t /\ t <> EmptyString /\
              Env.jwt_verify env t (secret env) = Jwt.Decoded user in
  (forall user, verifyToken_auth env authorization = Next user <-> verified user) /\
  (forall user,
     verifyToken env authorization = Next user <->
     (falsy token = true /\ development env = true /\ user = demo_user) \/
     verified user) /\
  (development env = false ->
   forall user, verifyToken env authorization = Next user <->
                verifyToken_auth env authorization = Next user) /\
  (forall status body,
     verifyToken env authorization = Respond status body ->
     status = 401 /\ get "success" body = Some (Bool false)) /\
  (forall status body,
     verifyToken_auth env authorization = Respond status body ->
     get "success" body = Some (Bool false) /\
     ((status = 401 /\ falsy token = true) \/
      (status = 403 /\ falsy token = false))) /\
  (forall t, token = Some t -> t <> EmptyString ->
     Env.jwt_verify env t (secret env) = Jwt.Throws "TokenExpiredError" ->
     verifyToken_auth env authorization =
       Respond 403 [("success", Bool false);
                    ("error", str "Invalid or expired token")] /\
     verifyToken env authorization =
       Respond 401 [("success", Bool false); ("error", str "Token expired");
                    ("code", str "TOKEN_EXPIRED")]).
Proof.
  cbv zeta.
  assert (Hauth : forall user,
            verifyToken_auth env authorization = Next user <->
            exists t, header_token authorization = Some t /\ t <> EmptyString /\
                      Env.jwt_verify env t (secret env) = Jwt.Decoded user).
  { intros user. unfold verifyToken_auth.
    destruct (header_token authorization) as [t|].
    - simpl. destruct (String.eqb_spec t "") as [->|Hne].
      + split; [discriminate|]. intros [t [[= <-] [H _]]]. now elim H.
      + destruct (Env.jwt_verify env t (secret env)) as [d|name] eqn:E.
        * split.
          -- intros [= ->]. now exists t.
          -- intros [t' [[= <-] [_ H]]]. congruence.
        * split; [discriminate|]. intros [t' [[= <-] [_ H]]]. congruence.
    - split; [discriminate|]. intros [t [H _]]. discriminate H. }
  assert (Hgen : forall user,
            verifyToken env authorization = Next user <->
            (falsy (header_token authorization) = true /\
             development env = true /\ user = demo_user) \/
            exists t, header_token authorization = Some t /\ t <> EmptyString /\
                      Env.jwt_verify env t (secret env) = Jwt.Decoded user).
  { intros user. unfold verifyToken.
    destruct (header_token authorization) as [t|].
    - simpl. destruct (String.eqb_spec t "") as [->|Hne]; simpl.
      + destruct (development env).
        * split.
          -- intros [= <-]. left. auto.
          -- intros [[_ [_ ->]]|[t [[= <-] [H _]]]]; [reflexivity|now elim H].
        * split; [discriminate|].
          intros [[_ [H _]]|[t [[= <-] [H _]]]]; [discriminate H|now elim H].
      + destruct (Env.jwt_verify env t (secret env)) as [d|name] eqn:E.
        * split.
          -- intros [= ->]. right. now exists t.
          -- intros [[H _]|[t' [[= <-] [_ H]]]]; [discriminate H|congruence].
        * split.
          -- destruct (String.eqb name "TokenExpiredError"); [discriminate|].
             destruct (String.eqb name "JsonWebTokenError"); discriminate.
          -- intros [[H _]|[t' [[= <-] [_ H]]]]; [discriminate H|congruence].
    - simpl. destruct (development env).
      + split.
        * intros [= <-]. left. auto.
        * intros [[_ [_ ->]]|[t [H _]]]; [reflexivity|discriminate H].
      + split; [discriminate|].
        intros [[_ [H _]]|[t [H _]]]; discriminate H. }
  split; [exact Hauth|]. split; [exact Hgen|].
  split.
  { intros Hdev user. rewrite Hgen, Hauth, Hdev. split.
    - intros [[_ [H _]]|H]; [discriminate H|exact H].
    - intros H. now right. }
  split.
  { intros status body. unfold verifyToken.
    destruct (header_token authorization) as [t|]; simpl.
    - destruct (String.eqb t ""); simpl.
      + destruct (development env); [discriminate|]. intros [= <- <-]. auto.
      + destruct (Env.jwt_verify env t (secret env)) as [d|name]; [discriminate|].
        destruct (String.eqb name "TokenExpiredError"); [intros [= <- <-]; auto|].
        destruct (String.eqb name "JsonWebTokenError"); intros [= <- <-]; auto.
    - destruct (development env); [discriminate|]. intros [= <- <-]. auto. }
  split.
  { intros status body. unfold verifyToken_auth.
    destruct (header_token authorization) as [t|]; simpl.
    - destruct (String.eqb t ""); simpl.
      + intros [= <- <-]. auto.
      + destruct (Env.jwt_verify env t (secret env)) as [d|name]; [discriminate|].
        intros [= <- <-]. auto.
    - intros [= <- <-]. auto. }
  intros t Htok Hne Hexp. unfold verifyToken_auth, verifyToken.
  rewrite Htok, (falsy_Some t Hne), Hexp. split; reflexivity.
Qed.


(** ** Properties of the backend routes *)

Lemma utf16_step_units cp more units c :
  utf16_step (cp, more, units) c =
  (fst (utf16_step (cp, more, []) c),
   snd (utf16_step (cp, more, []) c) ++ units).
Proof.
  unfold utf16_step.
  destruct more as [|[|more]];
    repeat match goal with |- context [if ?b then _ else _] => destruct b end;
    simpl; rewrite ?app_nil_r; reflexivity.
Qed.

Lemma utf16_fold l : forall st units,
  snd (fold_left utf16_step l (st, units)) =
  snd (fold_left utf16_step l (st, [])) ++ units.
Proof.
  induction l as [|c l IH]; intros [cp more] units; cbn [fold_left];
    [reflexivity|].
  rewrite utf16_step_units.
  destruct (utf16_step (cp, more, []) c) as [st' new]. cbn [fst snd].
  rewrite (IH st' (new ++ units)), (IH st' new). now rewrite app_assoc.
Qed.

(** The code unit of a first character below 128. *)
Lemma utf16_ascii c s :
  (N_of_ascii c < 128)%N -> utf16 (String c s) = N_of_ascii c :: utf16 s.
Proof.
  intros H. unfold utf16. cbn [list_ascii_of_string fold_left].
  unfold utf16_step at 2. apply N.ltb_lt in H. rewrite H.
  rewrite (utf16_fold _ (0%N, O) [N_of_ascii c]), rev_app_distr. reflexivity.
Qed.

Lemma hd_utf16_cat c p ps :
  (N_of_ascii c < 128)%N ->
  hd_error (utf16 (cat (String c p :: ps))) = Some (N_of_ascii c).
Proof.
  intros H. change (cat (String c p :: ps)) with (String c (p ++ cat ps)).
  now rewrite utf16_ascii.
Qed.

Lemma generateMockResponse_hd timestamp userInput :
  hd_error (generateMockResponse timestamp userInput) = Some 42%N.
Proof. reflexivity. Qed.

Lemma generateCodeforcesFallback_hd text handle userData analysis :
  hd_error (utf16 (generateCodeforcesFallback text handle userData analysis)) =
  Some 35%N.
Proof.
  unfold generateCodeforcesFallback. cbv zeta.
  apply (hd_utf16_cat "#"). reflexivity.
Qed.

Lemma or_text_nonempty content d : d <> [] -> or_text content d <> [].
Proof. intros H. destruct content as [[|u c]|]; simpl; congruence. Qed.

Lemma callDeepSeekAPI_mock env fullPrompt systemPrompt :
  usable_key env = None ->
  callDeepSeekAPI env fullPrompt systemPrompt =
  AiResult.mk (generateMockResponse (Env.toLocaleString env) (utf16 fullPrompt))
    0 "mock".
Proof.
  unfold usable_key, callDeepSeekAPI.
  destruct (Env.DEEPSEEK_API_KEY env) as [k|]; [|reflexivity].
  destruct (falsy (Some k) || String.eqb k "your-deepseek-api-key-here");
    [reflexivity|discriminate].
Qed.

Lemma callDeepSeekAPI_key env fullPrompt systemPrompt key :
  usable_key env = Some key ->
  callDeepSeekAPI env fullPrompt systemPrompt =
  match Env.axios_post env (chat_request key fullPrompt systemPrompt) with
  | ApiReply.Replied content total_tokens =>
      AiResult.mk (or_text content (utf16 "No response from AI"))
        (or_number total_tokens 0) "ai"
  | ApiReply.Failed =>
      AiResult.mk (generateMockResponse (Env.toLocaleString env) (utf16 fullPrompt))
        0 "error-fallback"
  end.
Proof.
  unfold usable_key, callDeepSeekAPI.
  destruct (Env.DEEPSEEK_API_KEY env) as [k|]; [|discriminate].
  destruct (falsy (Some k) || String.eqb k "your-deepseek-api-key-here");
    [discriminate|].
  intros [= ->]. reflexivity.
Qed.

Lemma callDeepSeekAPI_modes env fullPrompt systemPrompt :
  let r := callDeepSeekAPI env fullPrompt systemPrompt in
  AiResult.mode r = "mock" \/ AiResult.mode r = "ai" \/
  AiResult.mode r = "error-fallback".
Proof.
  cbv zeta. destruct (usable_key env) as [key|] eqn:E.
  - rewrite (callDeepSeekAPI_key _ _ _ _ E).
    destruct (Env.axios_post env _); simpl; auto.
  - rewrite (callDeepSeekAPI_mock _ _ _ E). simpl. auto.
Qed.

Lemma callDeepSeekAPI_not_ai env fullPrompt systemPrompt :
  let r := callDeepSeekAPI env fullPrompt systemPrompt in
  AiResult.mode r <> "ai" ->
  AiResult.tokensUsed r = 0 /\
  AiResult.data r =
    generateMockResponse (Env.toLocaleString env) (utf16 fullPrompt).
Proof.
  cbv zeta. destruct (usable_key env) as [key|] eqn:E.
  - rewrite (callDeepSeekAPI_key _ _ _ _ E).
    destruct (Env.axios_post env _); simpl; [congruence|auto].
  - rewrite (callDeepSeekAPI_mock _ _ _ E). simpl. auto.
Qed.

Lemma generateMockResponse_nonempty timestamp userInput :
  generateMockResponse timestamp userInput <> [].
Proof.
  intros H. pose proof (generateMockResponse_hd timestamp userInput) as Hd.
  rewrite H in Hd. discriminate Hd.
Qed.

Lemma callDeepSeekAPI_data env fullPrompt systemPrompt :
  AiResult.data (callDeepSeekAPI env fullPrompt systemPrompt) <> [].
Proof.
  destruct (usable_key env) as [key|] eqn:E.
  - rewrite (callDeepSeekAPI_key _ _ _ _ E).
    destruct (Env.axios_post env _); simpl.
    + apply or_text_nonempty. discriminate.
    + apply generateMockResponse_nonempty.
  - rewrite (callDeepSeekAPI_mock _ _ _ E). apply generateMockResponse_nonempty.
Qed.

(** X16. [callDeepSeekAPI] answers in one of the modes [mock], [ai] and
    [error-fallback], never with an empty text.  The mode is [ai] exactly
    when the process has a key that is not the placeholder and the service
    replies; in the other modes no tokens are counted and the text is the
    mock response to the prompt.  Without such a key the service is not
    called. *)
Theorem X16_callDeepSeekAPI (env : Env.t) (fullPrompt systemPrompt : string) :
  let r := callDeepSeekAPI env fullPrompt systemPrompt in
  (AiResult.mode r = "mock" \/ AiResult.mode r = "ai" \/
   AiResult.mode r = "error-fallback") /\
  AiResult.data r <> [] /\
  (AiResult.mode r = "ai" <->
   exists key content total_tokens,
     usable_key env = Some key /\
     Env.axios_post env (chat_request key fullPrompt systemPrompt) =
       ApiReply.Replied content total_tokens) /\
  (AiResult.mode r <> "ai" ->
   AiResult.tokensUsed r = 0 /\
   AiResult.data r =
     generateMockResponse (Env.toLocaleString env) (utf16 fullPrompt)) /\
  (usable_key env = None ->
   AiResult.mode r = "mock" /\
   forall post, callDeepSeekAPI (with_post env post) fullPrompt systemPrompt = r) /\
  (forall key,
     usable_key env = Some key ->
     Env.axios_post env (chat_request key fullPrompt systemPrompt) = ApiReply.Failed ->
     AiResult.mode r = "error-fallback").
Proof.
  cbv zeta.
  split; [apply callDeepSeekAPI_modes|].
  split; [apply callDeepSeekAPI_data|].
  split.
  { destruct (usable_key env) as [key|] eqn:E.
    - rewrite (callDeepSeekAPI_key _ _ _ _ E).
      destruct (Env.axios_post env _) as [content total|] eqn:Ep; simpl.
      + split; [|reflexivity]. intros _. now exists key, content, total.
      + split; [discriminate|]. intros (k & c & t & [= <-] & H). congruence.
    - rewrite (callDeepSeekAPI_mock _ _ _ E). simpl.
      split; [discriminate|]. intros (k & c & t & H & _). discriminate H. }
  split; [apply callDeepSeekAPI_not_ai|].
  split.
  { intros E. rewrite (callDeepSeekAPI_mock _ _ _ E). split; [reflexivity|].
    intros post.
    exact (callDeepSeekAPI_mock (with_post env post) fullPrompt systemPrompt E). }
  intros key E Hf. now rewrite (callDeepSeekAPI_key _ _ _ _ E), Hf.
Qed.


Lemma mode_not_fallback env fullPrompt systemPrompt :
  str (AiResult.mode (callDeepSeekAPI env fullPrompt systemPrompt)) <> str "fallback".
Proof.
  destruct (callDeepSeekAPI_modes env fullPrompt systemPrompt) as [H|[H|H]];
    rewrite H; discriminate.
Qed.

Lemma verifyToken_refuses env authorization status body :
  verifyToken env authorization = Respond status body ->
  status = 401 /\ get "success" body = Some (Bool false) /\ get "data" body = None.
Proof.
  unfold verifyToken.
  destruct (header_token authorization) as [t|]; simpl.
  - destruct (String.eqb t ""); simpl.
    + destruct (development env); [discriminate|]. intros [= <- <-]. auto.
    + destruct (Env.jwt_verify env t (secret env)) as [d|name]; [discriminate|].
      destruct (String.eqb name "TokenExpiredError"); [intros [= <- <-]; auto|].
      destruct (String.eqb name "JsonWebTokenError"); intros [= <- <-]; auto.
  - destruct (development env); [discriminate|]. intros [= <- <-]. auto.
Qed.

(** X17. The route [/codeforces] answers with status 200, 400 or 401, and
    with [success: true] exactly under status 200.  Behind the middleware,
    status 400 is the answer exactly when the handle is absent or empty or
    the user data or the analysis is absent.  Otherwise the answer carries
    the text, the mode and the tokens of [callDeepSeekAPI] on the prompt
    that [generateCodeforcesPrompt] writes for the body, and the identifier
    of the saved generation, or [null] when it could not be saved.  The
    mode is never [fallback]: when the generative service fails, the text
    is the mock response to the prompt, which is not the text of
    [generateCodeforcesFallback]. *)
Theorem X17_codeforces_route (env : Env.t) (authorization : option string)
  (body : CodeforcesBody.t) :
  let answer := codeforces_route env authorization body in
  (fst answer = 200 \/ fst answer = 400 \/ fst answer = 401) /\
  (fst answer = 200 <-> get "success" (snd answer) = Some (Bool true)) /\
  (fst answer <> 200 ->
   get "success" (snd answer) = Some (Bool false) /\
   get "data" (snd answer) = None) /\
  (forall user,
     verifyToken env authorization = Next user ->
     (fst answer = 400 <->
      falsy (CodeforcesBody.handle body) = true \/
      CodeforcesBody.userData body = None \/
      CodeforcesBody.analysis body = None)) /\
  (forall user handle userData analysis,
     verifyToken env authorization = Next user ->
     body = CodeforcesBody.mk (Some handle) (Some userData) (Some analysis) ->
     handle <> EmptyString ->
     let r :=
       callDeepSeekAPI env
         (generateCodeforcesPrompt (Env.inherited_text env) handle userData
            analysis)
         codeforces_systemPrompt in
     fst answer = 200 /\
     get "data" (snd answer) = Some (Str (AiResult.data r)) /\
     get "mode" (snd answer) = Some (str (AiResult.mode r)) /\
     get "tokens" (snd answer) = Some (Num (AiResult.tokensUsed r)) /\
     get "generationId" (snd answer) =
       Some (generationId
               (Env.save env
                  (codeforces_generation user handle userData analysis r))) /\
     get "mode" (snd answer) <> Some (str "fallback") /\
     (AiResult.mode r <> "ai" ->
      get "tokens" (snd answer) = Some (Num 0) /\
      get "data" (snd answer) <>
        Some (Str (utf16 (generateCodeforcesFallback (Env.inherited_text env)
                            handle userData analysis))))).
Proof.
  cbv zeta.
  assert (Hok : forall user handle userData analysis,
            verifyToken env authorization = Next user ->
            body = CodeforcesBody.mk (Some handle) (Some userData) (Some analysis) ->
            handle <> EmptyString ->
            codeforces_route env authorization body =
            let r :=
              callDeepSeekAPI env
                (generateCodeforcesPrompt (Env.inherited_text env) handle
                   userData analysis)
                codeforces_systemPrompt in
            (200, [("success", Bool true);
                   ("data", Str (AiResult.data r));
                   ("promptType", str "codeforces_analysis");
                   ("mode", str (AiResult.mode r));
                   ("tokens", Num (AiResult.tokensUsed r));
                   ("generationId",
                    generationId
                      (Env.save env
                         (codeforces_generation user handle userData analysis r)));
                   ("timestamp", str (Env.toISOString env))])).
  { intros user handle userData analysis Hv -> Hh.
    unfold codeforces_route. rewrite Hv.
    cbn [CodeforcesBody.handle CodeforcesBody.userData CodeforcesBody.analysis].
    now rewrite (eqb_empty_false handle Hh). }
  assert (Hbad : forall user,
            verifyToken env authorization = Next user ->
            falsy (CodeforcesBody.handle body) = true \/
            CodeforcesBody.userData body = None \/
            CodeforcesBody.analysis body = None ->
            codeforces_route env authorization body =
            (400, [("success", Bool false);
                   ("error", str "handle, userData, and analysis are required")])).
  { intros user Hv H. unfold codeforces_route. rewrite Hv.
    destruct body as [[handle|] [userData|] [analysis|]]; simpl in *;
      try reflexivity.
    destruct H as [H|[H|H]]; try discriminate H. now rewrite H. }
  assert (Hcases : forall user,
            verifyToken env authorization = Next user ->
            (falsy (CodeforcesBody.handle body) = true \/
             CodeforcesBody.userData body = None \/
             CodeforcesBody.analysis body = None) \/
            exists handle userData analysis,
              body = CodeforcesBody.mk (Some handle) (Some userData) (Some analysis) /\
              handle <> EmptyString).
  { intros user _. destruct body as [[handle|] [userData|] [analysis|]]; simpl; auto.
    destruct (String.eqb_spec handle "") as [->|Hne]; [auto|].
    right. now exists handle, userData, analysis. }
  destruct (verifyToken env authorization) as [user|status resp] eqn:Hv.
  - destruct (Hcases user eq_refl) as [Hmiss|(handle & userData & analysis & Hb & Hh)].
    + rewrite (Hbad user eq_refl Hmiss). cbn [fst snd].
      split; [auto|]. split; [split; discriminate|].
      split; [auto|]. split; [intros u _; tauto|].
      intros u handle userData analysis _ -> Hh. exfalso.
      simpl in Hmiss. rewrite (eqb_empty_false handle Hh) in Hmiss.
      destruct Hmiss as [H|[H|H]]; discriminate H.
    + rewrite (Hok user handle userData analysis eq_refl Hb Hh). cbv zeta. cbn [fst snd].
      split; [auto|]. split; [split; reflexivity|].
      split; [congruence|].
      split.
      { intros u _. split; [discriminate|]. subst body. simpl.
        rewrite (eqb_empty_false handle Hh).
        intros [H|[H|H]]; discriminate H. }
      intros u handle' userData' analysis' [= <-] Hb' _.
      rewrite Hb in Hb'. injection Hb' as <- <- <-.
      split; [reflexivity|]. split; [reflexivity|]. split; [reflexivity|].
      split; [reflexivity|]. split; [reflexivity|].
      split.
      { intros H.
        apply (mode_not_fallback env
                 (generateCodeforcesPrompt (Env.inherited_text env) handle userData analysis)
                 codeforces_systemPrompt).
        exact (f_equal (fun o => match o with Some v => v | None => Null end) H). }
      intros Hmode.
      destruct (callDeepSeekAPI_not_ai env
                  (generateCodeforcesPrompt (Env.inherited_text env) handle userData analysis)
                  codeforces_systemPrompt Hmode) as [Ht Hd].
      split; [simpl; now rewrite Ht|].
      simpl. rewrite Hd. intros [= H].
      pose proof (generateMockResponse_hd (Env.toLocaleString env)
                    (utf16 (generateCodeforcesPrompt (Env.inherited_text env)
                              handle userData analysis))) as Hm.
      rewrite H, generateCodeforcesFallback_hd in Hm. discriminate Hm.
  - assert (E : codeforces_route env authorization body = (status, resp)).
    { unfold codeforces_route. now rewrite Hv. }
    rewrite E. cbn [fst snd].
    destruct (verifyToken_refuses _ _ _ _ Hv) as (-> & Hs & Hd).
    split; [auto|]. split; [split; [discriminate|congruence]|].
    split; [auto|]. split; [intros u H; discriminate H|].
    intros u handle userData analysis H. discriminate H.
Qed.

Lemma CUSTOM_PROMPTS_keys :
  Object_keys CUSTOM_PROMPTS = map fst CUSTOM_PROMPTS.
Proof. reflexivity. Qed.

Lemma customPrompt_own env promptType :
  In promptType (Object_keys CUSTOM_PROMPTS) ->
  exists prompt, customPrompt env promptType = Some prompt.
Proof.
  rewrite CUSTOM_PROMPTS_keys. cbn [map fst CUSTOM_PROMPTS].
  intros H. repeat (destruct H as [<-|H]; [eexists; reflexivity|]).
  contradiction.
Qed.

Lemma customPrompt_inherited env promptType :
  In promptType Object_prototype ->
  exists prompt, customPrompt env promptType = Some prompt.
Proof.
  unfold Object_prototype.
  intros H. repeat (destruct H as [<-|H]; [eexists; reflexivity|]).
  contradiction.
Qed.

Lemma existsb_eqb_false k l : ~ In k l -> existsb (String.eqb k) l = false.
Proof.
  intros H. destruct (existsb (String.eqb k) l) eqn:E; [|reflexivity].
  apply existsb_exists in E. destruct E as [x [Hx E]].
  apply String.eqb_eq in E. subst x. contradiction.
Qed.

Lemma customPrompt_unknown env promptType :
  ~ In promptType (Object_keys CUSTOM_PROMPTS) ->
  ~ In promptType Object_prototype ->
  customPrompt env promptType = None.
Proof.
  rewrite CUSTOM_PROMPTS_keys. intros Hown Hproto. unfold customPrompt.
  destruct (get promptType CUSTOM_PROMPTS) as [prompt|] eqn:E.
  - apply get_In_keys in E. contradiction.
  - now rewrite existsb_eqb_false.
Qed.

(** X18. A call of [deepseekAPI.generate] that the route [/generate]
    serves returns only a body with [success: true], and throws only a body
    with [success: false]: the chat page never receives an answer whose
    [success] is false as a result.  Behind the middleware and with a text
    that is not empty, the call returns for every prompt type of
    [CUSTOM_PROMPTS], and also for a name that every object inherits, such
    as [constructor]; it throws for any other prompt type. *)
Theorem X18_generate_call (env : Env.t) (token : option string)
  (promptType userInput : string) :
  let outcome := generate_call env token promptType userInput in
  (forall data, outcome = Returns data ->
     get "success" data = Some (Bool true) /\
     exists text, get "data" data = Some (Str text) /\ text <> []) /\
  (forall data, outcome = ThrowsBody data ->
     get "success" data = Some (Bool false)) /\
  (forall user,
     verifyToken env (request_Authorization token) = Next user ->
     promptType <> EmptyString -> userInput <> EmptyString ->
     (In promptType (Object_keys CUSTOM_PROMPTS) \/ In promptType Object_prototype ->
      exists data, outcome = Returns data) /\
     (~ In promptType (Object_keys CUSTOM_PROMPTS) ->
      ~ In promptType Object_prototype ->
      exists data, outcome = ThrowsBody data)).
Proof.
  cbv zeta. unfold generate_call, generate_route.
  cbn [GenerateBody.promptType GenerateBody.userInput GenerateBody.context].
  destruct (verifyToken env (request_Authorization token)) as [user|status resp] eqn:Hv.
  - destruct (String.eqb_spec promptType "") as [Hp|Hp];
      [|destruct (String.eqb_spec userInput "") as [Hu|Hu]]; cbn [orb].
    + split; [discriminate|]. split; [now intros data [= <-]|].
      intros u _ H. contradiction.
    + split; [discriminate|]. split; [now intros data [= <-]|].
      intros u _ _ H. contradiction.
    + destruct (customPrompt env promptType) as [prompt|] eqn:Ec.
      * cbv zeta. cbn [deepseekAPI_generate Z.leb Z.ltb Z.compare Pos.compare
                       Pos.compare_cont andb].
        split.
        { intros data [= <-]. split; [reflexivity|].
          eexists. split; [reflexivity|]. apply callDeepSeekAPI_data. }
        split; [discriminate|].
        intros u _ _ _. split; [intros _; now eexists|].
        intros Hown Hproto.
        rewrite (customPrompt_unknown env promptType Hown Hproto) in Ec.
        discriminate Ec.
      * cbn [deepseekAPI_generate Z.leb Z.ltb Z.compare Pos.compare
             Pos.compare_cont andb].
        split; [discriminate|]. split; [now intros data [= <-]|].
        intros u _ _ _. split; [|intros _ _; now eexists].
        intros [H|H].
        -- destruct (customPrompt_own env promptType H) as [x Hx]. congruence.
        -- destruct (customPrompt_inherited env promptType H) as [x Hx]. congruence.
  - destruct (verifyToken_refuses _ _ _ _ Hv) as (-> & Hs & _).
    cbn [deepseekAPI_generate Z.leb Z.ltb Z.compare Pos.compare
         Pos.compare_cont andb].
    split; [discriminate|]. split; [now intros data [= <-]|].
    intros u H. discriminate H.
Qed.


(** ** The tags of [tagAccuracy] *)

(** X19. [tagAccuracy] has an entry for a tag exactly when the tag is not
    the name of a member inherited from [Object.prototype] and is on the
    first submission of a problem that has an accepted submission, and no
    tag has two entries.  [solvedByTag] counts the tags of the first
    accepted submission instead, and has an entry for every such tag but
    [__proto__]: when the submissions of a problem all carry the same tags
    and rating, the tags of [tagAccuracy] are the tags of [solvedByTag]
    that are no inherited names. *)
Theorem X19_tagAccuracy_tags (submissions : list Submission.t) :
  let a := analyzeSubmissions submissions in
  (forall t,
     has_entry t (Analysis.tagAccuracy a) <->
     inherited t = false /\
     exists k s0 rest,
       submissions_of k submissions = s0 :: rest /\
       existsb accepted (s0 :: rest) = true /\
       In t (submission_tags s0)) /\
  (forall t,
     has_entry t (Analysis.solvedByTag a) <->
     t <> "__proto__" /\
     exists s, In s (first_accepted submissions) /\ In t (submission_tags s)) /\
  NoDup (map fst (Analysis.tagAccuracy a)) /\
  (forall meta, consistent meta submissions ->
     forall t, has_entry t (Analysis.tagAccuracy a) <->
               has_entry t (Analysis.solvedByTag a) /\ inherited t = false).
Proof.
  cbv zeta. unfold analyzeSubmissions;
    cbn [Analysis.tagAccuracy Analysis.solvedByTag].
  assert (Hacc : forall t,
            has_entry t (tagAccuracy (problemAccuracy
                                        (Vars.problemStats (forEach submissions)))) <->
            inherited t = false /\
            exists k s0 rest,
              submissions_of k submissions = s0 :: rest /\
              existsb accepted (s0 :: rest) = true /\
              In t (submission_tags s0)).
  { intros t. now rewrite has_entry_tagAccuracy, has_entry_problemAccuracy,
                 solved_stats_entry. }
  assert (Htag : forall t,
            has_entry t (Vars.solvedByTag (forEach submissions)) <->
            t <> "__proto__" /\
            exists s, In s (first_accepted submissions) /\ In t (submission_tags s)).
  { intros t.
    rewrite has_entry_keys, solvedByTag_tally, tally_of_keys, first_seen_In,
      filter_In.
    unfold solved_tags. rewrite in_flat_map, negb_true_iff.
    destruct (String.eqb_spec t "__proto__") as [E|E]; split.
    - intros [_ H]. discriminate H.
    - intros [H _]. contradiction.
    - intros [H _]. now split.
    - intros [_ H]. now split. }
  split; [exact Hacc|]. split; [exact Htag|].
  split; [apply tagAccuracy_NoDup|].
  intros meta Hc t. rewrite Hacc, Htag.
  rewrite (solved_tags_consistent meta t submissions Hc). split.
  - intros [I H]. split; [|exact I]. split; [|exact H].
    intros ->. discriminate I.
  - intros [[_ H] I]. now split.
Qed.


(** ** Properties of [formatTime] *)

(** X20. [formatTime] prints the whole minutes of an age below one hour,
    the whole hours, from 1 to 23, of an age below one day, the whole days,
    from 1 to 6, of an age below seven days, and the date from then on.  A
    timestamp in the future is printed as a negative number of minutes. *)
Theorem X20_formatTime (toLocaleDateString : option Z -> string) (now d : Z) :
  let age := now - d in
  let text := formatTime toLocaleDateString now (Some d) in
  (age < 3600000 ->
   text = (num (age / 60000) ++ "m ago")%string /\ age / 60000 < 60) /\
  (3600000 <= age < 86400000 ->
   text = (num (age / 3600000) ++ "h ago")%string /\ 1 <= age / 3600000 <= 23) /\
  (86400000 <= age < 604800000 ->
   text = (num (age / 86400000) ++ "d ago")%string /\ 1 <= age / 86400000 <= 6) /\
  (604800000 <= age -> text = toLocaleDateString (Some d)) /\
  (age < 0 -> age / 60000 < 0 /\ text = (num (age / 60000) ++ "m ago")%string).
Proof.
  cbv zeta. unfold formatTime. cbv zeta.
  set (age := now - d).
  assert (Hm : age / 60000 < 60 <-> age < 3600000).
  { split; intros H; Z.div_mod_to_equations; lia. }
  assert (Hh : age / 3600000 < 24 <-> age < 86400000).
  { split; intros H; Z.div_mod_to_equations; lia. }
  assert (Hd : age / 86400000 < 7 <-> age < 604800000).
  { split; intros H; Z.div_mod_to_equations; lia. }
  destruct (Z.ltb_spec (age / 60000) 60) as [H1|H1];
    [|destruct (Z.ltb_spec (age / 3600000) 24) as [H2|H2];
      [|destruct (Z.ltb_spec (age / 86400000) 7) as [H3|H3]]].
  - apply Hm in H1 as H1'.
    split; [intros _; split; [reflexivity|exact H1]|].
    split; [intros H; lia|]. split; [intros H; lia|]. split; [intros H; lia|].
    intros H. split; [|reflexivity]. Z.div_mod_to_equations; lia.
  - assert (H1' : 3600000 <= age) by (destruct (Z.lt_ge_cases age 3600000) as [H|H];
                                       [apply Hm in H; lia|exact H]).
    apply Hh in H2 as H2'.
    split; [intros H; lia|].
    split; [intros _; split; [reflexivity|Z.div_mod_to_equations; lia]|].
    split; [intros H; lia|]. split; [intros H; lia|]. intros H; lia.
  - assert (H2' : 86400000 <= age) by (destruct (Z.lt_ge_cases age 86400000) as [H|H];
                                        [apply Hh in H; lia|exact H]).
    apply Hd in H3 as H3'.
    split; [intros H; lia|]. split; [intros H; lia|].
    split; [intros _; split; [reflexivity|Z.div_mod_to_equations; lia]|].
    split; [intros H; lia|]. intros H; lia.
  - assert (H3' : 604800000 <= age) by (destruct (Z.lt_ge_cases age 604800000) as [H|H];
                                         [apply Hd in H; lia|exact H]).
    split; [intros H; lia|]. split; [intros H; lia|]. split; [intros H; lia|].
    split; [reflexivity|]. intros H; lia.
Qed.


(** ** The analysis in the fallback documents *)

(** The first weak tag has the smallest count of all tags. *)
Lemma weakTags_head_min submissions t rest :
  plain (solved_tags submissions) ->
  Analysis.weakTags (analyzeSubmissions submissions) = t :: rest ->
  forall t' n',
    get t' (Analysis.solvedByTag (analyzeSubmissions submissions)) = Some (Count n') ->
    tag_total t (first_accepted submissions) <= n'.
Proof.
  intros Hp E t' n' G.
  destruct (weakTags_counted submissions t Hp) as [Hc _]; [rewrite E; now left|].
  revert E G Hc.
  unfold analyzeSubmissions; cbn [Analysis.weakTags Analysis.solvedByTag].
  unfold slice0. set (tags := Vars.solvedByTag (forEach submissions)).
  intros E G Hc.
  destruct (firstn 5 (Array_sort by_count_asc (Object_entries tags)))
    as [|[t0 c0] l0] eqn:E5; [discriminate|].
  simpl in E. injection E as -> _.
  assert (G0 : get t tags = Some c0).
  { apply In_get; [apply solvedByTag_NoDup|].
    assert (H5 : In (t, c0) (firstn 5 (Array_sort by_count_asc
                                         (Object_entries tags))))
      by (rewrite E5; now left).
    apply In_firstn in H5. eapply Permutation_in; [|exact H5].
    rewrite Array_sort_Permutation. apply Object_entries_Permutation. }
  unfold get0 in Hc. rewrite G0 in Hc. subst c0.
  exact (sorted_first_least by_count_asc count_asc tags 5%nat _ _
           (weakTags_ordered submissions Hp) E5 t' (Count n') G).
Qed.

Lemma flat_map_nil {A B : Type} (f : A -> list B) l :
  (forall x, In x l -> f x = []) -> flat_map f l = [].
Proof.
  induction l as [|x l IH]; simpl; intros H; [reflexivity|].
  rewrite (H x) by now left. apply IH. intros y Hy. apply H. now right.
Qed.

Lemma weakTags_none submissions :
  (forall s, In s (first_accepted submissions) -> submission_tags s = []) ->
  Analysis.weakTags (analyzeSubmissions submissions) = [] /\
  Analysis.topTags (analyzeSubmissions submissions) = [].
Proof.
  intros H. unfold analyzeSubmissions; cbn [Analysis.weakTags Analysis.topTags].
  assert (E : Vars.solvedByTag (forEach submissions) = []).
  { rewrite solvedByTag_tally. unfold solved_tags. now rewrite flat_map_nil. }
  rewrite E. split; reflexivity.
Qed.

Lemma cat_nested pieces rest : cat (cat pieces :: rest) = cat (pieces ++ rest).
Proof. now rewrite cat_app. Qed.

(** Skips the pieces of a text up to a piece that is made of pieces. *)
Ltac skip_to_nested :=
  repeat lazymatch goal with
         | |- contains _ (cat (cat _ :: _)) => fail
         | |- _ => apply contains_skip
         end.

(** X21. The analysis of a submission list in the fallback documents of
    the backend and of the frontend, when no tag of a solved problem is the
    name of a member inherited from [Object.prototype].  The section of
    areas for improvement consists of one line for each of the first three
    weak tags, in the order of [weakTags] and numbered from 1, that gives
    the number of times the tag occurs on the solved problems.  The first
    weak tag has the smallest count of all tags of solved problems, at
    least 1, and is named as the immediate focus unless it is the empty
    string.  When no solved problem carries a tag, the immediate focus is
    the default, [Graph Theory]. *)
Theorem X21_fallback_of_analysis (inherited_text : string -> string)
  (handle : string) (userData : UserData.t) (submissions : list Submission.t) :
  plain (solved_tags submissions) ->
  let a := analyzeSubmissions submissions in
  let count t := tag_total t (first_accepted submissions) in
  let areas :=
    numbered_lines
      (fun n t => cat [num n; ". **"; t; "**: Only "; num (count t);
                       " problems solved"; nl])
      (firstn 3 (Analysis.weakTags a)) in
  let backend := generateCodeforcesFallback inherited_text handle userData a in
  let frontend :=
    generateFallbackRecommendations inherited_text handle userData a in
  contains (cat ["### ğŸ“ˆ Areas for Improvement"; nl; areas; nl;
                 "### ğŸ¯ Recommended Next Steps"; nl]) frontend /\
  (forall t rest,
     Analysis.weakTags a = t :: rest ->
     let focus := cat ["- **Immediate Focus**: "; t; " problems"; nl] in
     1 <= count t /\
     (forall t' n', get t' (Analysis.solvedByTag a) = Some (Count n') ->
                    count t <= n') /\
     contains (cat ["### 📈 Areas for Improvement"; nl; areas; nl;
                    "### 🎯 Recommended Next Steps"; nl]) backend /\
     (t <> EmptyString -> contains focus backend /\ contains focus frontend)) /\
  ((forall s, In s (first_accepted submissions) -> submission_tags s = []) ->
   let focus := cat ["- **Immediate Focus**: "; "Graph Theory"; " problems"; nl] in
   Analysis.weakTags a = [] /\
   contains focus backend /\ contains focus frontend).
Proof.
  intros Hp. cbv zeta.
  set (a := analyzeSubmissions submissions).
  pose proof (weak_lines_numbered inherited_text submissions ". **" "**: Only "
                (firstn 3 (Analysis.weakTags a)) Hp
                (fun t H => In_firstn _ _ _ H)) as Hsec.
  fold a in Hsec.
  split.
  { unfold generateFallbackRecommendations. cbv zeta. unfold slice0.
    rewrite Hsec.
    find_pieces ["### ğŸ“ˆ Areas for Improvement"; nl;
                 numbered_lines
                   (fun n t => cat [num n; ". **"; t; "**: Only ";
                                    num (tag_total t (first_accepted submissions));
                                    " problems solved"; nl])
                   (firstn 3 (Analysis.weakTags a));
                 nl; "### ğŸ¯ Recommended Next Steps"; nl]. }
  split.
  - intros t rest Hw.
    split.
    { apply (weakTags_counted submissions t Hp). fold a. rewrite Hw. now left. }
    split; [exact (weakTags_head_min submissions t rest Hp Hw)|].
    split.
    { unfold generateCodeforcesFallback. cbv zeta. unfold slice0.
      rewrite Hw in *. rewrite Hsec.
      skip_to_nested. rewrite cat_nested. cbn [app]. apply contains_skip.
      find_pieces ["### 📈 Areas for Improvement"; nl;
                   numbered_lines
                     (fun n t => cat [num n; ". **"; t; "**: Only ";
                                      num (tag_total t (first_accepted submissions));
                                      " problems solved"; nl])
                     (firstn 3 (t :: rest));
                   nl; "### 🎯 Recommended Next Steps"; nl]. }
    intros Ht.
    unfold generateCodeforcesFallback, generateFallbackRecommendations.
    cbv zeta. rewrite Hw, !(first_or_nonempty t rest _ Ht).
    split.
    + find_pieces ["- **Immediate Focus**: "; t; " problems"; nl].
    + find_pieces ["- **Immediate Focus**: "; t; " problems"; nl].
  - intros Hnone. destruct (weakTags_none submissions Hnone) as [Hw Htop].
    split; [exact Hw|].
    unfold generateCodeforcesFallback, generateFallbackRecommendations.
    cbv zeta. fold a in Hw. rewrite Hw. cbn [first_or].
    split.
    + find_pieces ["- **Immediate Focus**: "; "Graph Theory"; " problems"; nl].
    + find_pieces ["- **Immediate Focus**: "; "Graph Theory"; " problems"; nl].
Qed.

(** ** The further properties at sample inputs *)

Lemma X3_witness :
  In retry_ok order_example /\
  get (problemKey retry_ok)
      (Analysis.attemptsPerProblem (analyzeSubmissions order_example)) =
  Some (attempts_of (problemKey retry_ok) order_example) /\
  ~ In "3-C" (map problemKey order_example) /\
  get "3-C" (Analysis.attemptsPerProblem (analyzeSubmissions order_example)) = None.
Proof.
  destruct (X3_attempts_per_problem order_example) as (_ & _ & _ & Hin & Hout & _).
  assert (H1 : In retry_ok order_example) by (simpl; auto).
  assert (H2 : ~ In "3-C" (map problemKey order_example)).
  { vm_compute. intros [H|[H|[H|[]]]]; discriminate H. }
  exact (conj H1 (conj (Hin _ H1) (conj H2 (Hout _ H2)))).
Defined.

Lemma X4_witness :
  submissions_of "1-A" order_example = [retry_wrong; retry_ok] /\
  submissions_of "3-C" order_example = [] /\
  get "3-C" (Analysis.problemStats (analyzeSubmissions order_example)) = None /\
  exists st,
    get "1-A" (Analysis.problemStats (analyzeSubmissions order_example)) = Some st /\
    Stats.solved st = existsb accepted [retry_wrong; retry_ok] /\
    Stats.attempts st = Z.of_nat (List.length [retry_wrong; retry_ok]) /\
    Stats.tags st = submission_tags retry_wrong /\
    Stats.rating st = submission_rating retry_wrong /\
    is_max (Stats.lastAttempt st)
      (map Submission.creationTimeSeconds [retry_wrong; retry_ok]).
Proof.
  assert (H1 : submissions_of "1-A" order_example = [retry_wrong; retry_ok])
    by reflexivity.
  assert (H2 : submissions_of "3-C" order_example = []) by reflexivity.
  exact (conj H1 (conj H2
           (conj (proj1 (X4_problem_stats order_example "3-C") H2)
                 (proj2 (X4_problem_stats order_example "1-A") _ _ H1)))).
Defined.

Lemma X5_witness :
  In ("900", 1) (Analysis.ratingDistribution (analyzeSubmissions order_example)) /\
  get "900" (Analysis.solvedByRating (analyzeSubmissions order_example)) = Some 1 /\
  rating_of ("900", 1) <> 0 /\
  1 = Z.of_nat (List.length (filter (has_rating (rating_of ("900", 1)))
                               (first_accepted order_example))).
Proof.
  destruct (X5_rating_distribution order_example) as (_ & Hget & Hin & _).
  assert (H1 : In ("900", 1)
                 (Analysis.ratingDistribution (analyzeSubmissions order_example)))
    by (vm_compute; auto).
  destruct (Hin _ H1) as (Hr & _ & _ & Hc).
  exact (conj H1 (conj (proj1 (Hget _ _) H1) (conj Hr Hc))).
Defined.

Lemma X6_witness :
  plain (map Submission.programmingLanguage order_example) /\
  (forall k, In k (first_seen (map Submission.programmingLanguage order_example)) ->
             array_index k = None) /\
  map fst (Object_entries (Analysis.languages (analyzeSubmissions order_example))) =
  first_seen (map Submission.programmingLanguage order_example).
Proof.
  assert (H : forall k,
             In k (first_seen (map Submission.programmingLanguage order_example)) ->
             array_index k = None).
  { cbv [first_seen]. simpl. intros k [<-|[ ]]. reflexivity. }
  destruct (X6_topLanguages order_example) as (_ & _ & Hplain).
  destruct (Hplain (proj2 order_example_plain)) as (_ & _ & _ & Hkeys).
  exact (conj (proj2 order_example_plain) (conj H (Hkeys H))).
Defined.

Lemma X7_witness :
  plain (solved_tags order_example) /\
  Analysis.weakTags (analyzeSubmissions order_example) = ["graphs"; "dp"] /\
  get "dp" (Analysis.solvedByTag (analyzeSubmissions order_example)) =
    Some (Count 2) /\
  exists n,
    get0 "graphs" (Analysis.solvedByTag (analyzeSubmissions order_example)) =
      Count n /\
    n <= 2.
Proof.
  destruct (X7_derived_sequences order_example)
    as (_ & _ & _ & _ & _ & _ & _ & _ & _ & Htags & _).
  destruct (Htags (proj1 order_example_plain)) as (_ & Hweak & _).
  assert (H1 : Analysis.weakTags (analyzeSubmissions order_example) =
               ["graphs"; "dp"]) by reflexivity.
  assert (H2 : get "dp" (Analysis.solvedByTag (analyzeSubmissions order_example)) =
               Some (Count 2)) by reflexivity.
  exact (conj (proj1 order_example_plain)
           (conj H1 (conj H2 (Hweak _ _ H1 _ _ H2)))).
Defined.

Lemma X8_witness :
  plain (solved_tags order_example) /\
  contains
    (cat ["Areas for Improvement (Weakest Tags):"; nl;
          numbered_lines
            (fun n t => cat [num n; ". "; t; ": ";
                             num (tag_total t (first_accepted order_example));
                             " problems solved"; nl])
            (Analysis.weakTags (analyzeSubmissions order_example));
          nl; "Rating Distribution Analysis:"; nl])
    (generateAIRecommendationPrompt v8_text "alice" alice
       (analyzeSubmissions order_example)).
Proof.
  split; [exact (proj1 order_example_plain)|].
  exact (proj1 (proj2
    (X8_weak_tags_in_prompts v8_text "alice" alice order_example
       (proj1 order_example_plain)))).
Defined.

Lemma X9_witness :
  getRecommendedProblems (one_listing listing_example) ["dp"] (Some 1500) =
    Success [rated_problem 4 "B" 1300; rated_problem 5 "C" 1500;
             rated_problem 7 "D" 1700] /\
  (List.length [rated_problem 4 "B" 1300; rated_problem 5 "C" 1500;
                rated_problem 7 "D" 1700] <= 10)%nat.
Proof.
  assert (H : getRecommendedProblems (one_listing listing_example) ["dp"] (Some 1500) =
              Success [rated_problem 4 "B" 1300; rated_problem 5 "C" 1500;
                       rated_problem 7 "D" 1700]) by reflexivity.
  split; [exact H|].
  destruct (X9_recommended_problems _ _ _ _ H)
    as (url & comment & listing & sorted & _ & _ & _ & _ & Hlen & _).
  exact Hlen.
Defined.

Lemma X10_witness :
  getProblemsByTags (one_listing listing_example) (slice0 3 ["dp"]) =
    Success listing_example /\
  getRecommendedProblems (one_listing listing_example) ["dp"] (Some 1500) =
    Success (filteredProblems (1300, 1700) listing_example).
Proof.
  assert (H : getProblemsByTags (one_listing listing_example) (slice0 3 ["dp"]) =
              Success listing_example) by reflexivity.
  split; [exact H|].
  exact (proj1 (X10_tag_listing_first (one_listing listing_example) ["dp"] (Some 1500))
           listing_example H).
Defined.

Lemma X11_witness :
  Chat.conversation chat_example = [welcome "t0"; ask] /\
  Chat.conversationsHistory (saveCurrentConversation "t2" chat_example) =
    [Conversation.mk (Some "17") (utf16 "cf tourist") [welcome "t0"; ask] "t2";
     Conversation.mk (Some "16") (utf16 "first") [] "t"].
Proof.
  assert (H : Chat.conversation chat_example = [welcome "t0"; ask]) by reflexivity.
  split; [exact H|].
  exact (proj1 (proj1 (proj2 (X11_save_conversation "t2" chat_example))
                  (welcome "t0") ask [] H)).
Defined.

Lemma X12_witness :
  utf16 "cf tourist" <> [] /\
  (List.length (utf16 "cf tourist") <= 50)%nat /\
  title_of (utf16 "cf tourist") = utf16 "cf tourist".
Proof.
  assert (H1 : utf16 "cf tourist" <> []) by discriminate.
  assert (H2 : (List.length (utf16 "cf tourist") <= 50)%nat) by (vm_compute; lia).
  split; [exact H1|]. split; [exact H2|].
  exact (proj1 (proj2 (proj2 (proj2 (X12_conversation_title (utf16 "cf tourist")))))
           H1 H2).
Defined.

Lemma X13_witness :
  Some "17" = Chat.currentConversationId chat_example /\
  Chat.conversation (handleDeleteConversation 18 "t2" (Some "17") chat_example) =
    [welcome "t2"] /\
  history_ids (handleDeleteConversation 18 "t2" (Some "17") chat_example) =
    [Some "16"].
Proof.
  assert (H : Some "17" = Chat.currentConversationId chat_example) by reflexivity.
  split; [exact H|]. split; [|reflexivity].
  destruct (X13_delete_conversation 18 "t2" "t3" (Some "17") chat_example)
    as (_ & _ & _ & _ & _ & Hcur & _).
  exact (proj1 (Hcur H)).
Defined.

Lemma X14_witness :
  "good" <> EmptyString /\ no_space "good" = true /\
  header_token (request_Authorization (Some "good")) = Some "good" /\
  verifyToken env_example (request_Authorization (Some "good")) = Next ann.
Proof.
  assert (H1 : "good" <> EmptyString) by discriminate.
  assert (H2 : no_space "good" = true) by reflexivity.
  split; [exact H1|]. split; [exact H2|].
  destruct (X14_bearer_token env_example "good" H1 H2) as (Ht & _ & _ & _ & Hv & _).
  split; [exact Ht|]. apply Hv. reflexivity.
Defined.

Lemma X15_witness :
  header_token (Some "Bearer old") = Some "old" /\
  "old" <> EmptyString /\
  Env.jwt_verify env_example "old" (secret env_example) =
    Jwt.Throws "TokenExpiredError" /\
  verifyToken_auth env_example (Some "Bearer old") =
    Respond 403 [("success", Bool false);
                 ("error", str "Invalid or expired token")] /\
  verifyToken env_example (Some "Bearer old") =
    Respond 401 [("success", Bool false); ("error", str "Token expired");
                 ("code", str "TOKEN_EXPIRED")].
Proof.
  assert (H1 : header_token (Some "Bearer old") = Some "old") by reflexivity.
  assert (H2 : "old" <> EmptyString) by discriminate.
  assert (H3 : Env.jwt_verify env_example "old" (secret env_example) =
               Jwt.Throws "TokenExpiredError") by reflexivity.
  split; [exact H1|]. split; [exact H2|]. split; [exact H3|].
  destruct (X15_verifyToken env_example (Some "Bearer old"))
    as (_ & _ & _ & _ & _ & Hexp).
  exact (Hexp "old" H1 H2 H3).
Defined.

Lemma X16_witness :
  usable_key env_example = Some "sk-live" /\
  Env.axios_post env_example (chat_request "sk-live" "hello" default_systemPrompt) =
    ApiReply.Failed /\
  AiResult.mode (callDeepSeekAPI env_example "hello" default_systemPrompt) =
    "error-fallback".
Proof.
  assert (H1 : usable_key env_example = Some "sk-live") by reflexivity.
  assert (H2 : Env.axios_post env_example
                 (chat_request "sk-live" "hello" default_systemPrompt) =
               ApiReply.Failed) by reflexivity.
  split; [exact H1|]. split; [exact H2|].
  destruct (X16_callDeepSeekAPI env_example "hello" default_systemPrompt)
    as (_ & _ & _ & _ & _ & Hfail).
  exact (Hfail "sk-live" H1 H2).
Defined.

Lemma X17_witness :
  verifyToken env_example (Some "Bearer good") = Next ann /\
  "alice" <> EmptyString /\
  fst (codeforces_route env_example (Some "Bearer good") body_example) = 200 /\
  get "mode" (snd (codeforces_route env_example (Some "Bearer good") body_example)) =
    Some (str "error-fallback").
Proof.
  assert (H1 : verifyToken env_example (Some "Bearer good") = Next ann) by reflexivity.
  assert (H2 : "alice" <> EmptyString) by discriminate.
  split; [exact H1|]. split; [exact H2|].
  destruct (X17_codeforces_route env_example (Some "Bearer good") body_example)
    as (_ & _ & _ & _ & Hok).
  destruct (Hok ann "alice" alice (analyzeSubmissions order_example) H1 eq_refl H2)
    as (Hs & _ & Hm & _).
  split; [exact Hs|exact Hm].
Defined.

Lemma X18_witness :
  verifyToken env_example (request_Authorization (Some "good")) = Next ann /\
  "constructor" <> EmptyString /\ "hello" <> EmptyString /\
  In "constructor" Object_prototype /\
  exists data, generate_call env_example (Some "good") "constructor" "hello" =
               Returns data.
Proof.
  assert (H1 : verifyToken env_example (request_Authorization (Some "good")) =
               Next ann) by reflexivity.
  assert (H2 : "constructor" <> EmptyString) by discriminate.
  assert (H3 : "hello" <> EmptyString) by discriminate.
  assert (H4 : In "constructor" Object_prototype) by (simpl; auto).
  split; [exact H1|]. split; [exact H2|]. split; [exact H3|]. split; [exact H4|].
  destruct (X18_generate_call env_example (Some "good") "constructor" "hello")
    as (_ & _ & Hcall).
  exact (proj1 (Hcall ann H1 H2 H3) (or_intror H4)).
Defined.

Lemma X19_witness :
  consistent order_meta order_example /\
  (has_entry "graphs" (Analysis.tagAccuracy (analyzeSubmissions order_example)) <->
   has_entry "graphs" (Analysis.solvedByTag (analyzeSubmissions order_example)) /\
   inherited "graphs" = false) /\
  has_entry "greedy" (Analysis.tagAccuracy (analyzeSubmissions retagged_example)) /\
  ~ has_entry "greedy" (Analysis.solvedByTag (analyzeSubmissions retagged_example)).
Proof.
  split; [exact order_example_consistent|].
  split.
  { destruct (X19_tagAccuracy_tags order_example) as (_ & _ & _ & Hsame).
    exact (Hsame order_meta order_example_consistent "graphs"). }
  destruct (X19_tagAccuracy_tags retagged_example) as (Hacc & _).
  split.
  - apply Hacc. split; [reflexivity|]. eexists "1-A", _, _. split; [reflexivity|].
    split; [reflexivity|]. simpl. auto.
  - intros [c H]. discriminate H.
Defined.

Lemma X20_witness :
  3600000 <= 5400000 - 0 < 86400000 /\
  formatTime (fun _ => "1/1/1970") 5400000 (Some 0) = "1h ago".
Proof.
  assert (H : 3600000 <= 5400000 - 0 < 86400000) by lia.
  split; [exact H|].
  exact (proj1 (proj1 (proj2 (X20_formatTime (fun _ => "1/1/1970") 5400000 0)) H)).
Defined.

Lemma X21_witness :
  plain (solved_tags order_example) /\
  Analysis.weakTags (analyzeSubmissions order_example) = ["graphs"; "dp"] /\
  "graphs" <> EmptyString /\
  contains (cat ["- **Immediate Focus**: "; "graphs"; " problems"; nl])
    (generateCodeforcesFallback v8_text "alice" alice
       (analyzeSubmissions order_example)).
Proof.
  assert (H1 : Analysis.weakTags (analyzeSubmissions order_example) =
               ["graphs"; "dp"]) by reflexivity.
  assert (H2 : "graphs" <> EmptyString) by discriminate.
  split; [exact (proj1 order_example_plain)|].
  split; [exact H1|]. split; [exact H2|].
  destruct (X21_fallback_of_analysis v8_text "alice" alice order_example
              (proj1 order_example_plain)) as (_ & Hw & _).
  destruct (Hw "graphs" ["dp"] H1) as (_ & _ & _ & Hf).
  exact (proj1 (Hf H2)).
Defined.
